(** * zeus-go, package [scheduler]: retry, backoff and the job wrapper

    A shallow embedding of [pkg/scheduler/backoff.go], [pkg/scheduler/job.go],
    [pkg/scheduler/config.go] and [pkg/scheduler/scheduler.go], followed by the
    properties of the backoff policy, the retry executor, the execution
    wrapper and the run-now path.

    Conventions.
    - Go's [int], [int64] and [time.Duration] are 64-bit two's complement:
      they are modelled as [Z], and every increment the code performs
      ([attempt++], [runCount++], [failCount++]) is wrapped by [wrap_int].
    - Go's [float64] is Rocq's primitive binary64 [float].
    - A Go [error] is [option string]: [None] is [nil], [Some msg] an error
      with that message.  A panic payload is the string [%v] prints for it.
    - A user function is a transformer of an abstract world [W] that either
      returns an error value or panics.
    - What the code does to its collaborators (sleeping, invoking the
      operation, the retry callback, log records) is recorded in a trace. *)

From Stdlib Require Import ZArith List String Bool Lia Floats.
From stdpp Require Import gmap strings pretty.

Open Scope Z_scope.

(** ** Machine integers *)

Module GoInt.

Definition max_int : Z := 2 ^ 63 - 1.
Definition min_int : Z := - 2 ^ 63.

(** The value a 64-bit signed register holds after computing [z]. *)
Definition wrap_int (z : Z) : Z := (z + 2 ^ 63) `mod` 2 ^ 64 - 2 ^ 63.

Definition in_int (z : Z) : Prop := min_int <= z <= max_int.

(** [i++] *)
Definition incr (i : Z) : Z := wrap_int (i + 1).

End GoInt.
Export GoInt.

(** ** float64

    Conversions between [int64] and [float64], and [math.Pow], belong to the
    Go language and its runtime, not to this repository.  They are given here
    so that [Next] can be evaluated. *)

Module GoFloat.

(** [float64(z)]: round to nearest, ties to even. *)
Definition float64_of_int (z : Z) : float :=
  SF2Prim (binary_normalize prec emax z 0 false).

(** The result of converting a float that no [int64] represents (NaN, an
    infinity, a magnitude of 2^63 or more).  The language leaves it to the
    implementation; this is the value amd64 produces. *)
Definition int_indefinite : Z := min_int.

(** [int64(f)]: the fraction is discarded (truncation towards zero). *)
Definition int64_of_float64 (f : float) : Z :=
  match Prim2SF f with
  | S754_zero _ => 0
  | S754_finite s m e =>
      let mag := if 0 <=? e then Z.pos m * 2 ^ e else Z.pos m `div` 2 ^ (- e) in
      let v := if s then - mag else mag in
      if (min_int <=? v) && (v <=? max_int) then v else int_indefinite
  | S754_infinity _ | S754_nan => int_indefinite
  end.

(** The integer a finite integral float denotes ([0] for anything else).
    Unlike [int64_of_float64] it is not limited to 64 bits. *)
Definition integral_value (f : float) : Z :=
  match Prim2SF f with
  | S754_finite s m e =>
      let mag := if 0 <=? e then Z.pos m * 2 ^ e else Z.pos m `div` 2 ^ (- e) in
      if s then - mag else mag
  | _ => 0
  end.

(** [isOddInt] of math/pow.go, for an integral argument. *)
Definition isOddInt (y : float) : bool :=
  if (abs y <? 9007199254740992)%float then Z.odd (integral_value y) else false.

(** The square-and-multiply loop of math/pow.go over the bits of the
    exponent [i > 0], least significant first; [ans = a1 * 2^ae]. *)
Fixpoint pow_loop (i : positive) (x1 : float) (xe : Z) (a1 : float) (ae : Z)
  : float * Z :=
  if (xe <? - 4096) || (4096 <? xe) then (a1, ae + xe)
  else
    let '(a1, ae) :=
      match i with
      | xO _ => (a1, ae)
      | _ => ((a1 * x1)%float, ae + xe)
      end in
    let x1 := (x1 * x1)%float in
    let xe := 2 * xe in
    let '(x1, xe) :=
      if (x1 <? 0.5)%float then ((x1 + x1)%float, xe - 1) else (x1, xe) in
    match i with
    | xH => (a1, ae)
    | xO i' | xI i' => pow_loop i' x1 xe a1 ae
    end.

(** [math.Pow(x, y)] for an exponent [y] that is a non-negative integer,
    which is all [exponentialBackoff.Next] passes.  It follows the portable
    implementation (math/pow.go) case by case.  For any other exponent
    the result is left as NaN: those branches are not modelled. *)
Definition math_Pow (x y : float) : float :=
  if (y =? 0)%float || (x =? 1)%float then 1%float
  else if (y =? 1)%float then x
  else if is_nan x || is_nan y then nan
  else if negb (0 <? y)%float || is_infinity y
            || negb (float64_of_int (integral_value y) =? y)%float then nan
  else if (x =? 0)%float then
    if get_sign x && isOddInt y then x else 0%float
  else if is_infinity x then
    if get_sign x && isOddInt y then neg_infinity else infinity
  else
    let yi := integral_value y in
    if 2 ^ 63 <=? yi then
      if (x =? -1)%float then 1%float
      else if (abs x <? 1)%float then 0%float
      else infinity
    else
      let '(x1, xe) := Z.frexp x in
      let '(a1, ae) :=
        match yi with
        | Z.pos i => pow_loop i x1 xe 1%float 0
        | _ => (1%float, 0)
        end in
      Z.ldexp a1 ae.

End GoFloat.
Export GoFloat.

(** ** config.go *)

(** [type BackoffStrategy string] *)
Definition BackoffStrategy_t := string.
Definition BackoffNone : BackoffStrategy_t := "none".
Definition BackoffFixed : BackoffStrategy_t := "fixed".
Definition BackoffExponential : BackoffStrategy_t := "exponential".

Definition Millisecond : Z := 1000000.
Definition Second : Z := 1000000000.

Record JobOptions := mkJobOptions {
  MaxRetries : Z;
  BackoffStrategy : BackoffStrategy_t;
  InitialBackoff : Z;
  MaxBackoff : Z;
  BackoffMultiplier : float
}.

Definition DefaultJobOptions : JobOptions :=
  {| MaxRetries := 3;
     BackoffStrategy := BackoffExponential;
     InitialBackoff := Second;
     MaxBackoff := 30 * Second;
     BackoffMultiplier := 2%float |}.

(** ** backoff.go: the backoff policies *)

(** The three implementations of the [Backoff] interface. *)
Inductive Backoff :=
| noBackoff
| fixedBackoff (interval : Z)
| exponentialBackoff (initial max : Z) (multiplier : float).

Definition NewBackoff (opts : JobOptions) : Backoff :=
  if String.eqb (BackoffStrategy opts) BackoffFixed then
    fixedBackoff (InitialBackoff opts)
  else if String.eqb (BackoffStrategy opts) BackoffExponential then
    exponentialBackoff (InitialBackoff opts) (MaxBackoff opts) (BackoffMultiplier opts)
  else noBackoff.

(** [exponentialBackoff.Next].  Past the guard [attempt] is positive, so
    [attempt - 1] does not wrap. *)
Definition exponentialBackoff_Next (initial max : Z) (multiplier : float) (attempt : Z) : Z :=
  if attempt <=? 0 then initial
  else
    let backoff :=
      (float64_of_int initial * math_Pow multiplier (float64_of_int (attempt - 1)))%float in
    if (float64_of_int max <? backoff)%float then max
    else int64_of_float64 backoff.

Definition Next (b : Backoff) (attempt : Z) : Z :=
  match b with
  | noBackoff => 0
  | fixedBackoff interval => interval
  | exponentialBackoff initial max multiplier =>
      exponentialBackoff_Next initial max multiplier attempt
  end.

(** ** Effects

    Code run by the scheduler acts on a world [W] that holds whatever the
    user's jobs touch, together with the wall clock.  A computation may
    return, panic, or (for a loop whose counter wraps around) never finish:
    a model run is given [fuel] and answers [None] when it is used up. *)

Definition goerror := option string.

Inductive result (A : Type) :=
| Val (a : A)
| Panicking (payload : string).
Arguments Val {A} a.
Arguments Panicking {A} payload.

(** Values handed to the logger as [any]. *)
Inductive value :=
| VInt (z : Z)
| VString (s : string)
| VError (e : goerror)
| VDuration (d : Z)
| VPanic (payload : string).

Definition Field : Type := string * value.

Inductive level := LDebug | LInfo | LWarn | LError.

(** A call of [s.logger.Debug/Info/Warn/Error(msg, fields...)]. *)
Inductive logrec := Log (lv : level) (msg : string) (fs : list Field).

Inductive event :=
| EvCall (res : result goerror)              (* the operation was invoked, with what it did *)
| EvSleep (d : Z)                            (* time.Sleep(d) *)
| EvRetry (attempt : Z) (err : goerror) (d : Z)  (* onRetry(attempt, err, d) was invoked *)
| EvLog (l : logrec).                        (* a record handed to the logger *)

Class Runtime := {
  W : Type;
  time_Now : W -> Z;
  time_Sleep : Z -> W -> W
}.

Section Effects.
Context `{Runtime}.

Definition M (A : Type) : Type := W -> option (result A * W * list event).

Definition ret {A} (a : A) : M A := fun w => Some (Val a, w, []).

Definition bind {A B} (m : M A) (k : A -> M B) : M B :=
  fun w =>
    match m w with
    | None => None
    | Some (Panicking p, w1, t1) => Some (Panicking p, w1, t1)
    | Some (Val a, w1, t1) =>
        match k a w1 with
        | None => None
        | Some (r, w2, t2) => Some (r, w2, t1 ++ t2)
        end
    end.

Definition Sleep (d : Z) : M unit :=
  fun w => Some (Val tt, time_Sleep d w, [EvSleep d]).

(** A user function: it changes the world and returns an error value
    or panics. *)
Definition operation : Type := W -> result goerror * W.

(** [fn()] *)
Definition invoke (fn : operation) : M goerror :=
  fun w => let '(res, w') := fn w in Some (res, w', [EvCall res]).

(** An [onRetry] function: it may change the world and hand records to the
    logger. *)
Definition callback : Type := Z -> goerror -> Z -> W -> W * list logrec.

Definition call_onRetry (cb : callback) (attempt : Z) (err : goerror) (d : Z) : M unit :=
  fun w =>
    let '(w', ls) := cb attempt err d w in
    Some (Val tt, w', EvRetry attempt err d :: map EvLog ls).

End Effects.

Notation "x <~ m ; k" := (bind m (fun x => k))
  (at level 200, m at level 100, k at level 200, right associativity,
   format "'[v' x  <~  m ; '/' k ']'").
Notation "m ;~ k" := (bind m (fun _ => k))
  (at level 200, k at level 200, right associativity,
   format "'[v' m  ;~ '/' k ']'").

(** ** backoff.go: the retry executor *)

Record RetryExecutor := mkRetryExecutor {
  options : JobOptions;
  backoff : Backoff
}.

Definition NewRetryExecutor (opts : JobOptions) : RetryExecutor :=
  {| options := opts; backoff := NewBackoff opts |}.

Definition is_nil (e : goerror) : bool :=
  match e with None => true | Some _ => false end.

Section Executor.
Context `{Runtime}.

(** The [for] loop of [Execute], entered at its condition. *)
Fixpoint Execute_loop (fuel : nat) (r : RetryExecutor) (fn : operation)
    (attempt : Z) (lastErr : goerror) : M goerror :=
  match fuel with
  | O => fun _ => None
  | S fuel =>
      if attempt <=? MaxRetries (options r) then
        (if 0 <? attempt then
           let backoffDuration := Next (backoff r) attempt in
           if 0 <? backoffDuration then Sleep backoffDuration else ret tt
         else ret tt) ;~
        lastErr <~ invoke fn ;
        if is_nil lastErr then ret None
        else Execute_loop fuel r fn (incr attempt) lastErr
      else ret lastErr
  end.

Definition Execute (fuel : nat) (r : RetryExecutor) (fn : operation) : M goerror :=
  if (MaxRetries (options r) <=? 0)
     || String.eqb (BackoffStrategy (options r)) BackoffNone
  then invoke fn
  else Execute_loop fuel r fn 0 None.

(** The [for] loop of [ExecuteWithCallback]. *)
Fixpoint ExecuteWithCallback_loop (fuel : nat) (r : RetryExecutor) (fn : operation)
    (onRetry : option callback) (attempt : Z) (lastErr : goerror) : M goerror :=
  match fuel with
  | O => fun _ => None
  | S fuel =>
      if attempt <=? MaxRetries (options r) then
        (if 0 <? attempt then
           let backoffDuration := Next (backoff r) attempt in
           match onRetry with
           | Some f => call_onRetry f attempt lastErr backoffDuration
           | None => ret tt
           end ;~
           if 0 <? backoffDuration then Sleep backoffDuration else ret tt
         else ret tt) ;~
        lastErr <~ invoke fn ;
        if is_nil lastErr then ret None
        else ExecuteWithCallback_loop fuel r fn onRetry (incr attempt) lastErr
      else ret lastErr
  end.

Definition ExecuteWithCallback (fuel : nat) (r : RetryExecutor) (fn : operation)
    (onRetry : option callback) : M goerror :=
  if (MaxRetries (options r) <=? 0)
     || String.eqb (BackoffStrategy (options r)) BackoffNone
  then invoke fn
  else ExecuteWithCallback_loop fuel r fn onRetry 0 None.

End Executor.

(** ** The logging helper [fields] *)

(** [fmt.Sprint] of a key that is not a string.  (Go prints a duration with
    its unit; here it is printed as its count of nanoseconds.  Every key
    scheduler.go passes is a string, so no record depends on this.) *)
Definition Sprint (v : value) : string :=
  match v with
  | VInt z => pretty z
  | VString s => s
  | VError None => "<nil>"
  | VError (Some m) => m
  | VDuration d => pretty d
  | VPanic p => p
  end.

Fixpoint fields (kv : list value) : list Field :=
  match kv with
  | k :: v :: rest =>
      (match k with VString key => key | _ => Sprint k end, v) :: fields rest
  | _ => []
  end.

(** ** config.go: the scheduler configuration *)

Record MiddlewareConfig := mkMiddlewareConfig {
  Logging : bool;
  Recovery : bool;
  Metrics : bool
}.

Record Config := mkConfig {
  Timezone : string;
  WithSeconds : bool;
  JobTimeout : Z;
  SkipIfStillRunning : bool;
  Middleware : MiddlewareConfig;
  cfg_DefaultJobOptions : JobOptions
}.

Definition DefaultConfig : Config :=
  {| Timezone := "Asia/Shanghai";
     WithSeconds := false;
     JobTimeout := 0;
     SkipIfStillRunning := true;
     Middleware := {| Logging := true; Recovery := true; Metrics := false |};
     cfg_DefaultJobOptions := DefaultJobOptions |}.

(** ** job.go: the job entry *)

Definition JobID := Z.

Section Entry.
Context `{Runtime}.

(** The [Job] interface. *)
Record Job := mkJob {
  Job_Run : operation;
  Job_Name : string
}.

Record jobEntry := mkJobEntry {
  id : JobID;
  name : string;
  spec : string;
  job : option Job;
  fn : option operation;
  entry_options : JobOptions;
  runCount : Z;
  failCount : Z;
  running : bool;
  lastRun : Z
}.

Definition newJobEntry (name spec : string) (options : JobOptions) : jobEntry :=
  {| id := 0; name := name; spec := spec; job := None; fn := None;
     entry_options := options; runCount := 0; failCount := 0;
     running := false; lastRun := 0 |}.

Definition set_running (b : bool) (e : jobEntry) : jobEntry :=
  {| id := id e; name := name e; spec := spec e; job := job e; fn := fn e;
     entry_options := entry_options e; runCount := runCount e;
     failCount := failCount e; running := b; lastRun := lastRun e |}.

Definition set_lastRun (t : Z) (e : jobEntry) : jobEntry :=
  {| id := id e; name := name e; spec := spec e; job := job e; fn := fn e;
     entry_options := entry_options e; runCount := runCount e;
     failCount := failCount e; running := running e; lastRun := t |}.

Definition set_runCount (n : Z) (e : jobEntry) : jobEntry :=
  {| id := id e; name := name e; spec := spec e; job := job e; fn := fn e;
     entry_options := entry_options e; runCount := n;
     failCount := failCount e; running := running e; lastRun := lastRun e |}.

Definition set_failCount (n : Z) (e : jobEntry) : jobEntry :=
  {| id := id e; name := name e; spec := spec e; job := job e; fn := fn e;
     entry_options := entry_options e; runCount := runCount e;
     failCount := n; running := running e; lastRun := lastRun e |}.

End Entry.

(** ** scheduler.go: the execution wrapper *)

Section Wrapper.
Context `{Runtime}.

(** The error the deferred [recover] makes of a panic:
    [fmt.Errorf("job panicked: %v", r)]. *)
Definition panic_error (r : string) : string := "job panicked: " +:+ r.

(** The user function that returns that error where [f] panics, and does
    what [f] does otherwise. *)
Definition as_returned_error (f : operation) : operation :=
  fun w =>
    match f w with
    | (Panicking r, w') => (Val (Some (panic_error r)), w')
    | other => other
    end.

(** The function [wrapJob] hands to the executor: the entry's [Job] if it
    has one, else its function, else nothing. *)
Definition job_closure (e : jobEntry) : operation :=
  match job e with
  | Some j => Job_Run j
  | None =>
      match fn e with
      | Some f => f
      | None => fun w => (Val None, w)
      end
  end.

(** The [onRetry] function [wrapJob] hands to the executor. *)
Definition retry_logger (e : jobEntry) : callback :=
  fun attempt err backoff w =>
    (w, [Log LWarn "job retry"
           (fields [VString "job_id"; VInt (id e); VString "job_name"; VString (name e);
                    VString "attempt"; VInt attempt; VString "error"; VError err;
                    VString "backoff"; VDuration backoff])]).

(** [time.Since(start)], saturating as [Time.Sub] does. *)
Definition time_Since (start : Z) (w : W) : Z :=
  Z.max min_int (Z.min max_int (time_Now w - start)).

(** The skip test that opens the wrapper. *)
Definition skipped (cfg : Config) (e : jobEntry) : bool :=
  SkipIfStillRunning cfg && running e.

Definition skip_record (e : jobEntry) : logrec :=
  Log LDebug "job skipped, still running"
    (fields [VString "job_id"; VInt (id e); VString "job_name"; VString (name e)]).

(** From [entry.running.Store(true)] to [startTime := time.Now()]: the
    entry after it, the records logged, and [startTime]. *)
Definition wrap_begin (cfg : Config) (e : jobEntry) (w : W) : jobEntry * list event * Z :=
  let e := set_running true e in
  let e := set_lastRun (time_Now w) e in
  let t :=
    if Logging (Middleware cfg) then
      [EvLog (Log LInfo "job started"
                (fields [VString "job_id"; VInt (id e); VString "job_name"; VString (name e)]))]
    else [] in
  (e, t, time_Now w).

(** The call of the retry executor. *)
Definition wrap_exec (fuel : nat) (e : jobEntry) : M goerror :=
  ExecuteWithCallback fuel (NewRetryExecutor (entry_options e))
    (job_closure e) (Some (retry_logger e)).

(** The deferred [recover]: what [jobErr] holds after it, the record it
    logs, and the panic that goes on unwinding, if any.  Without the
    recovery middleware nothing is deferred, and [jobErr] keeps the [nil]
    it was declared with. *)
Definition wrap_recover (cfg : Config) (e : jobEntry) (res : result goerror)
  : goerror * list event * result unit :=
  match res with
  | Val err => (err, [], Val tt)
  | Panicking r =>
      if Recovery (Middleware cfg) then
        (Some (panic_error r),
         [EvLog (Log LError "job panicked"
                   (fields [VString "job_id"; VInt (id e); VString "job_name";
                            VString (name e); VString "panic"; VPanic r]))],
         Val tt)
      else (None, [], Panicking r)
  end.

(** The deferred statistics function. *)
Definition wrap_stats (cfg : Config) (startTime : Z) (jobErr : goerror)
    (e : jobEntry) (w : W) : jobEntry * list event :=
  let duration := time_Since startTime w in
  let e := set_runCount (incr (runCount e)) e in
  let e := if is_nil jobErr then e else set_failCount (incr (failCount e)) e in
  let t :=
    if Logging (Middleware cfg) then
      if is_nil jobErr then
        [EvLog (Log LInfo "job completed"
                  (fields [VString "job_id"; VInt (id e); VString "job_name";
                           VString (name e); VString "duration"; VDuration duration]))]
      else
        [EvLog (Log LError "job failed"
                  (fields [VString "job_id"; VInt (id e); VString "job_name";
                           VString (name e); VString "duration"; VDuration duration;
                           VString "error"; VError jobErr]))]
    else [] in
  (e, t).

(** The deferred functions, run last registered first when the body
    returns or panics: [recover], the statistics,
    [entry.running.Store(false)]. *)
Definition wrap_end (cfg : Config) (startTime : Z) (res : result goerror)
    (e : jobEntry) (w : W) : jobEntry * list event * result unit :=
  let '(jobErr, t1, out) := wrap_recover cfg e res in
  let '(e, t2) := wrap_stats cfg startTime jobErr e w in
  (set_running false e, t1 ++ t2, out).

(** One run of the function [wrapJob] returns, on the entry it closes
    over: how the run ends (a panic that leaves it is [Panicking]), the entry
    and the world after it, and the trace. *)
Definition wrapJob (fuel : nat) (cfg : Config) (e : jobEntry) (w : W)
  : option (result unit * jobEntry * W * list event) :=
  if skipped cfg e then Some (Val tt, e, w, [EvLog (skip_record e)])
  else
    let '(e, t0, startTime) := wrap_begin cfg e w in
    match wrap_exec fuel e w with
    | None => None
    | Some (res, w, t1) =>
        let '(e, t2, out) := wrap_end cfg startTime res e w in
        Some (out, e, w, t0 ++ t1 ++ t2)
    end.

End Wrapper.

(** ** Overlapping firings of one job

    cron starts every firing on a goroutine of its own, and [RunNow] hands
    the wrapper to the pool, so several runs of the wrapper for one entry may
    overlap.  Each run is cut where it reads or writes the entry: the skip
    test, the store of [running] (with the prologue up to [startTime]), and
    the body with its deferred functions.  A run is in flight from the store
    until its deferred functions have run. *)

Section Firings.
Context `{Runtime}.

Inductive pc :=
| AtCheck                   (* about to test [SkipIfStillRunning && IsRunning()] *)
| AtStore                   (* test passed, about to [running.Store(true)] *)
| InFlight (startTime : Z)  (* flag stored; executing the job with its retries *)
| Finished.                 (* returned *)

Record firings := mkFirings {
  shared : jobEntry;        (* the entry all the runs close over *)
  fworld : W;
  ftrace : list event;
  threads : list pc;
  escaped : option string   (* a panic that left a wrapper: the process is gone *)
}.

Definition is_in_flight (p : pc) : bool :=
  match p with InFlight _ => true | _ => false end.

(** How many of the runs are in flight. *)
Definition flying (l : list pc) : nat :=
  length (filter (fun p => is_in_flight p = true) l).

Definition in_flight (σ : firings) : nat := flying (threads σ).

(** Run [i] takes its next step. *)
Definition step (fuel : nat) (cfg : Config) (i : nat) (σ : firings) : option firings :=
  match escaped σ, threads σ !! i with
  | Some _, _ | _, None | _, Some Finished => Some σ
  | None, Some AtCheck =>
      if skipped cfg (shared σ) then
        Some {| shared := shared σ; fworld := fworld σ;
                ftrace := ftrace σ ++ [EvLog (skip_record (shared σ))];
                threads := <[i := Finished]> (threads σ); escaped := None |}
      else
        Some {| shared := shared σ; fworld := fworld σ; ftrace := ftrace σ;
                threads := <[i := AtStore]> (threads σ); escaped := None |}
  | None, Some AtStore =>
      let '(e, t, startTime) := wrap_begin cfg (shared σ) (fworld σ) in
      Some {| shared := e; fworld := fworld σ; ftrace := ftrace σ ++ t;
              threads := <[i := InFlight startTime]> (threads σ); escaped := None |}
  | None, Some (InFlight startTime) =>
      match wrap_exec fuel (shared σ) (fworld σ) with
      | None => None
      | Some (res, w, t1) =>
          let '(e, t2, out) := wrap_end cfg startTime res (shared σ) w in
          Some {| shared := e; fworld := w; ftrace := ftrace σ ++ t1 ++ t2;
                  threads := <[i := Finished]> (threads σ);
                  escaped := match out with Val _ => None | Panicking r => Some r end |}
      end
  end.

(** The runs take steps in the order [schedule] names them. *)
Fixpoint run (fuel : nat) (cfg : Config) (schedule : list nat) (σ : firings)
  : option firings :=
  match schedule with
  | [] => Some σ
  | i :: rest =>
      match step fuel cfg i σ with
      | None => None
      | Some σ' => run fuel cfg rest σ'
      end
  end.

(** [n] firings of the entry [e], none of them started. *)
Definition fire (n : nat) (e : jobEntry) (w : W) : firings :=
  {| shared := e; fworld := w; ftrace := []; threads := replicate n AtCheck;
     escaped := None |}.

End Firings.

(** ** scheduler.go: the scheduler *)

(** Entries are shared by reference: the registry, cron and every closure
    [wrapJob] returns hold a pointer to the same [jobEntry]. *)
Definition loc := nat.

(** What [Start] and [Stop] change of the [cron.Cron] the scheduler owns. *)
Record Cron := mkCron {
  cron_running : bool
}.

(** Modelled from the spec: the worker pool [conc.Pool] (package [conc],
    not among the sources) is the Task Executor, which "accepts a
    zero-argument unit of work and runs it asynchronously".  A pool is the
    queue of the tasks it accepted and has not run yet; the only task the
    scheduler submits is the closure of [RunNow], which is determined by the
    entry it closes over. *)
Definition Pool := list loc.

Definition Submit (task : loc) (p : Pool) : Pool := p ++ [task].

Record Scheduler := mkScheduler {
  cron : Cron;
  config : Config;
  pool : Pool;
  jobs : gmap JobID loc;
  sched_running : bool
}.

Definition Start (s : Scheduler) : Scheduler * list event :=
  if sched_running s then (s, [])
  else
    ({| cron := {| cron_running := true |}; config := config s; pool := pool s;
        jobs := jobs s; sched_running := true |},
     [EvLog (Log LInfo "scheduler started" [])]).

Definition Stop (s : Scheduler) : Scheduler * list event :=
  if negb (sched_running s) then (s, [])
  else
    ({| cron := {| cron_running := false |}; config := config s; pool := pool s;
        jobs := jobs s; sched_running := false |},
     [EvLog (Log LInfo "scheduler stopped" [])]).

Definition IsRunning (s : Scheduler) : bool := sched_running s.

Definition RunNow (s : Scheduler) (id : JobID) : goerror * Scheduler :=
  match jobs s !! id with
  | None => (Some ("job " +:+ pretty id +:+ " not found"), s)
  | Some entry =>
      (None,
       {| cron := cron s; config := config s; pool := Submit entry (pool s);
          jobs := jobs s; sched_running := sched_running s |})
  end.

Section Tasks.
Context `{Runtime}.

(** The pool runs the task [RunNow] submitted for the entry at [l]:
    [s.wrapJob(entry).Run()]. *)
Definition run_task (fuel : nat) (cfg : Config) (l : loc)
    (heap : gmap loc jobEntry) (w : W)
  : option (result unit * gmap loc jobEntry * W * list event) :=
  match heap !! l with
  | None => Some (Val tt, heap, w, [])
  | Some e =>
      match wrapJob fuel cfg e w with
      | None => None
      | Some (out, e', w', t) => Some (out, <[l := e']> heap, w', t)
      end
  end.

End Tasks.

(** ** Reading a trace *)

(** What each invocation of the operation did, in order. *)
Fixpoint calls (t : list event) : list (result goerror) :=
  match t with
  | [] => []
  | EvCall r :: t => r :: calls t
  | _ :: t => calls t
  end.

(** The invocation returned an error. *)
Definition failed (e : string) : result goerror := Val (Some e).

(** What a run of the retry loop with [maxRetries] retries looks like from
    outside: every invocation but the last returned an error, the last one
    decided the result [res] (a [nil] or a panic ends the run at once, an
    error only when the retries are used up), there were at most
    [maxRetries + 1] invocations, and the first event of the run is the
    first invocation. *)
Definition retry_outcome (maxRetries : Z) (res : result goerror) (t : list event) : Prop :=
  exists errs : list string,
    calls t = map failed errs ++ [res]
    /\ Z.of_nat (length errs) <= maxRetries
    /\ (forall e, res = failed e -> Z.of_nat (length errs) = maxRetries)
    /\ exists t', t = EvCall (hd res (map failed errs)) :: t'.

(** ** Sample jobs *)

Module Sample.

(** A world that counts the calls of the job and doubles as the clock. *)
#[global] Instance counting : Runtime :=
  {| W := nat; time_Now := fun n => Z.of_nat n; time_Sleep := fun _ n => n |}.

(** Fails on its first [k] calls, then succeeds. *)
Definition flaky (k : nat) : operation :=
  fun n => (if (n <? k)%nat then Val (Some "boom") else Val None, S n).

(** Panics on its first call, succeeds afterwards. *)
Definition panics_once : operation :=
  fun n => (match n with O => Panicking "test panic" | _ => Val None end, S n).

Definition always_fails : operation := fun n => (Val (Some "boom"), S n).

(** Five retries asked for, but the strategy is [none]. *)
Definition none5 : JobOptions :=
  {| MaxRetries := 5; BackoffStrategy := BackoffNone; InitialBackoff := 0;
     MaxBackoff := 0; BackoffMultiplier := 0%float |}.

(** Options whose cap is below the initial delay, and their backoff. *)
Definition low_cap : JobOptions :=
  {| MaxRetries := 3; BackoffStrategy := BackoffExponential; InitialBackoff := 10;
     MaxBackoff := 5; BackoffMultiplier := 2%float |}.

Definition capped_low : Backoff := NewBackoff low_cap.

Definition fixed3 : JobOptions :=
  {| MaxRetries := 3; BackoffStrategy := BackoffFixed;
     InitialBackoff := 10 * Millisecond; MaxBackoff := 0;
     BackoffMultiplier := 0%float |}.

Definition entry_of (f : operation) (o : JobOptions) : jobEntry :=
  {| id := 1; name := "job"; spec := "* * * * * *"; job := None; fn := Some f;
     entry_options := o; runCount := 0; failCount := 0; running := false;
     lastRun := 0 |}.

Definition quiet (skip : bool) : Config :=
  {| Timezone := "Asia/Shanghai"; WithSeconds := true; JobTimeout := 0;
     SkipIfStillRunning := skip;
     Middleware := {| Logging := false; Recovery := true; Metrics := false |};
     cfg_DefaultJobOptions := fixed3 |}.

(** A started scheduler with one job, registered under id 1 at address 0. *)
Definition one_job : Scheduler :=
  {| cron := {| cron_running := true |}; config := DefaultConfig; pool := [];
     jobs := {[ 1 := 0%nat ]}; sched_running := true |}.

End Sample.

(** ** More of a trace *)

(** The sleeps of a run, in order. *)
Fixpoint sleeps (t : list event) : list Z :=
  match t with
  | [] => []
  | EvSleep d :: t => d :: sleeps t
  | _ :: t => sleeps t
  end.

(** The calls of [onRetry] of a run, in order. *)
Fixpoint retries (t : list event) : list (Z * goerror * Z) :=
  match t with
  | [] => []
  | EvRetry attempt err d :: t => (attempt, err, d) :: retries t
  | _ :: t => retries t
  end.

(** The sleeps and the calls of [onRetry] that the policy [b] asks for when
    the errors [errs] are each followed by a retry, the first retry being
    attempt [from]: before each retry one call of [onRetry], and one sleep
    if the delay is positive. *)
Fixpoint sleeps_from (b : Backoff) (from : Z) (errs : list string) : list Z :=
  match errs with
  | [] => []
  | _ :: errs =>
      (if 0 <? Next b from then [Next b from] else []) ++ sleeps_from b (from + 1) errs
  end.

Fixpoint retries_from (b : Backoff) (from : Z) (errs : list string)
  : list (Z * goerror * Z) :=
  match errs with
  | [] => []
  | e :: errs => (from, Some e, Next b from) :: retries_from b (from + 1) errs
  end.

(** ** job.go: options and the entry's own [Run] *)

Section MoreEntry.
Context `{Runtime}.

Definition set_id (i : JobID) (e : jobEntry) : jobEntry :=
  {| id := i; name := name e; spec := spec e; job := job e; fn := fn e;
     entry_options := entry_options e; runCount := runCount e;
     failCount := failCount e; running := running e; lastRun := lastRun e |}.

Definition set_job (j : option Job) (e : jobEntry) : jobEntry :=
  {| id := id e; name := name e; spec := spec e; job := j; fn := fn e;
     entry_options := entry_options e; runCount := runCount e;
     failCount := failCount e; running := running e; lastRun := lastRun e |}.

Definition set_fn (f : option operation) (e : jobEntry) : jobEntry :=
  {| id := id e; name := name e; spec := spec e; job := job e; fn := f;
     entry_options := entry_options e; runCount := runCount e;
     failCount := failCount e; running := running e; lastRun := lastRun e |}.

Definition set_options (o : JobOptions) (e : jobEntry) : jobEntry :=
  {| id := id e; name := name e; spec := spec e; job := job e; fn := fn e;
     entry_options := o; runCount := runCount e;
     failCount := failCount e; running := running e; lastRun := lastRun e |}.

(** [type JobOption func(e *jobEntry)] *)
Definition JobOption : Type := jobEntry -> jobEntry.

Definition WithMaxRetries (n : Z) : JobOption :=
  fun e =>
    let o := entry_options e in
    set_options {| MaxRetries := n; BackoffStrategy := BackoffStrategy o;
                   InitialBackoff := InitialBackoff o; MaxBackoff := MaxBackoff o;
                   BackoffMultiplier := BackoffMultiplier o |} e.

Definition WithBackoffStrategy (strategy : BackoffStrategy_t) : JobOption :=
  fun e =>
    let o := entry_options e in
    set_options {| MaxRetries := MaxRetries o; BackoffStrategy := strategy;
                   InitialBackoff := InitialBackoff o; MaxBackoff := MaxBackoff o;
                   BackoffMultiplier := BackoffMultiplier o |} e.

Definition WithInitialBackoff (d : Z) : JobOption :=
  fun e =>
    let o := entry_options e in
    set_options {| MaxRetries := MaxRetries o; BackoffStrategy := BackoffStrategy o;
                   InitialBackoff := d; MaxBackoff := MaxBackoff o;
                   BackoffMultiplier := BackoffMultiplier o |} e.

Definition WithMaxBackoff (d : Z) : JobOption :=
  fun e =>
    let o := entry_options e in
    set_options {| MaxRetries := MaxRetries o; BackoffStrategy := BackoffStrategy o;
                   InitialBackoff := InitialBackoff o; MaxBackoff := d;
                   BackoffMultiplier := BackoffMultiplier o |} e.

Definition WithBackoffMultiplier (m : float) : JobOption :=
  fun e =>
    let o := entry_options e in
    set_options {| MaxRetries := MaxRetries o; BackoffStrategy := BackoffStrategy o;
                   InitialBackoff := InitialBackoff o; MaxBackoff := MaxBackoff o;
                   BackoffMultiplier := m |} e.

Definition WithJobOptions (opts : JobOptions) : JobOption :=
  fun e => set_options opts e.

Definition WithNoRetry : JobOption :=
  fun e =>
    let o := entry_options e in
    set_options {| MaxRetries := 0; BackoffStrategy := BackoffNone;
                   InitialBackoff := InitialBackoff o; MaxBackoff := MaxBackoff o;
                   BackoffMultiplier := BackoffMultiplier o |} e.

(** [for _, opt := range opts { opt(entry) }] *)
Definition apply_options (opts : list JobOption) (e : jobEntry) : jobEntry :=
  fold_left (fun e opt => opt e) opts e.

(** [jobEntry.Run], the entry's own implementation of [cron.Job]: the run
    ends normally or with the panic of the job; the entry, the world and the
    trace after it. *)
Definition jobEntry_Run (e : jobEntry) (w : W)
  : result unit * jobEntry * W * list event :=
  let e := set_running true e in
  let e := set_lastRun (time_Now w) e in
  let e := set_runCount (incr (runCount e)) e in
  let '(res, w, t) :=
    match job e with
    | Some j => let '(r, w') := Job_Run j w in (r, w', [EvCall r])
    | None =>
        match fn e with
        | Some f => let '(r, w') := f w in (r, w', [EvCall r])
        | None => (Val None, w, [])
        end
    end in
  match res with
  | Panicking r => (Panicking r, set_running false e, w, t)
  | Val err =>
      let e := if is_nil err then e else set_failCount (incr (failCount e)) e in
      (Val tt, set_running false e, w, t)
  end.

(** What the deferred statistics function of [wrapJob] sees in [jobErr]
    as a failure: an error the executor returned, or a panic the deferred
    [recover] turned into one. *)
Definition run_failed (cfg : Config) (res : result goerror) : bool :=
  match res with
  | Val err => negb (is_nil err)
  | Panicking _ => Recovery (Middleware cfg)
  end.

(** How a run of the wrapper ends: with the panic of the job only when
    nothing recovers it. *)
Definition run_exit (cfg : Config) (res : result goerror) : result unit :=
  match res with
  | Val _ => Val tt
  | Panicking r => if Recovery (Middleware cfg) then Val tt else Panicking r
  end.

(** An option that writes to [e.options] and nowhere else, as every [With...]
    of job.go does. *)
Definition only_options (opt : JobOption) : Prop :=
  forall e, opt e = set_options (entry_options (opt e)) e.

End MoreEntry.

(** ** scheduler.go: construction and the job registry *)

(** What the scheduler asks of code outside the repository: cron's parser
    (for a cron built with or without [cron.WithSeconds()]) says whether a
    spec parses, and [time.LoadLocation] whether a time zone exists; each
    answers [nil] or its error. *)
Class Collaborators := {
  cron_Parse : bool -> string -> goerror;
  time_LoadLocation : string -> goerror
}.

(** A scheduler with the memory its pointers lead to and the part of its
    cron that registration changes: [nextID], the counter ids come from, and
    the entries, each the wrapped job of a [jobEntry]. *)
Section Registry.
Context `{Runtime} `{Collaborators}.

Record JobInfo := mkJobInfo {
  info_ID : JobID;
  info_Name : string;
  info_Spec : string;
  info_LastRun : Z;
  info_NextRun : Z;
  info_RunCount : Z;
  info_FailCount : Z;
  info_Running : bool;
  info_Options : JobOptions
}.

Record machine := mkMachine {
  m_sched : Scheduler;
  m_nextID : JobID;
  m_cron : gmap JobID loc;
  m_heap : gmap loc jobEntry
}.

Definition set_jobs (js : gmap JobID loc) (s : Scheduler) : Scheduler :=
  {| cron := cron s; config := config s; pool := pool s; jobs := js;
     sched_running := sched_running s |}.

Definition set_pool (p : Pool) (s : Scheduler) : Scheduler :=
  {| cron := cron s; config := config s; pool := p; jobs := jobs s;
     sched_running := sched_running s |}.

(** [type SchedulerOption func(s *Scheduler)].  [WithPool] replaces the pool
    unless it is given [nil]. *)
Definition SchedulerOption : Type := Scheduler -> Scheduler.

Definition WithPool (p : option Pool) : SchedulerOption :=
  fun s => match p with Some p => set_pool p s | None => s end.

(** [New]: the scheduler, or the error. *)
Definition New (cfg : option Config) (opts : list SchedulerOption) : option machine * goerror :=
  let cfg := match cfg with Some c => c | None => DefaultConfig end in
  match time_LoadLocation (Timezone cfg) with
  | Some err => (None, Some ("invalid timezone " +:+ Timezone cfg +:+ ": " +:+ err))
  | None =>
      let s := {| cron := {| cron_running := false |}; config := cfg; pool := [];
                  jobs := ∅; sched_running := false |} in
      (Some {| m_sched := fold_left (fun s opt => opt s) opts s;
               m_nextID := 0; m_cron := ∅; m_heap := ∅ |}, None)
  end.

(** A newly allocated [jobEntry] lives where nothing lives yet. *)
Definition new_loc (heap : gmap loc jobEntry) : loc := fresh (dom heap).

(** [addEntry spec entry].  The entry its caller built is put in memory
    when it is registered: until then only the caller's frame points to it,
    and when the spec does not parse nothing ever will. *)
Definition addEntry (spec : string) (entry : jobEntry) (m : machine)
  : JobID * goerror * machine * list event :=
  match cron_Parse (WithSeconds (config (m_sched m))) spec with
  | Some err =>
      (0, Some ("failed to add job " +:+ name entry +:+ ": " +:+ err), m, [])
  | None =>
      let id := incr (m_nextID m) in
      let l := new_loc (m_heap m) in
      (id, None,
       {| m_sched := set_jobs (<[id := l]> (jobs (m_sched m))) (m_sched m);
          m_nextID := id;
          m_cron := <[id := l]> (m_cron m);
          m_heap := <[l := set_id id entry]> (m_heap m) |},
       [EvLog (Log LInfo "job added"
                 (fields [VString "job_id"; VInt id; VString "job_name";
                          VString (name entry); VString "spec"; VString spec]))])
  end.

Definition AddJob (name spec : string) (j : Job) (opts : list JobOption) (m : machine)
  : JobID * goerror * machine * list event :=
  let entry := newJobEntry name spec (cfg_DefaultJobOptions (config (m_sched m))) in
  let entry := set_job (Some j) entry in
  let entry := apply_options opts entry in
  addEntry spec entry m.

Definition AddFunc (name spec : string) (f : operation) (opts : list JobOption) (m : machine)
  : JobID * goerror * machine * list event :=
  let entry := newJobEntry name spec (cfg_DefaultJobOptions (config (m_sched m))) in
  let entry := set_fn (Some f) entry in
  let entry := apply_options opts entry in
  addEntry spec entry m.

Definition RemoveJob (id : JobID) (m : machine) : machine * list event :=
  ({| m_sched := set_jobs (delete id (jobs (m_sched m))) (m_sched m);
      m_nextID := m_nextID m;
      m_cron := delete id (m_cron m);
      m_heap := m_heap m |},
   match jobs (m_sched m) !! id with
   | Some l =>
       match m_heap m !! l with
       | Some entry =>
           [EvLog (Log LInfo "job removed"
                     (fields [VString "job_id"; VInt id; VString "job_name";
                              VString (name entry)]))]
       | None => []
       end
   | None => []
   end).

(** The snapshot [GetJob] and [ListJobs] make of an entry; [next] is what
    [cron.Entry(id).Next] answers at that moment. *)
Definition snapshot (next : JobID -> Z) (id : JobID) (entry : jobEntry) : JobInfo :=
  {| info_ID := id; info_Name := name entry; info_Spec := spec entry;
     info_LastRun := lastRun entry; info_NextRun := next id;
     info_RunCount := runCount entry; info_FailCount := failCount entry;
     info_Running := running entry; info_Options := entry_options entry |}.

Definition GetJob (next : JobID -> Z) (m : machine) (id : JobID) : option JobInfo :=
  match jobs (m_sched m) !! id with
  | None => None
  | Some l =>
      match m_heap m !! l with
      | Some entry => Some (snapshot next id entry)
      | None => None
      end
  end.

(** [ListJobs].  Go ranges over the map in no particular order; the order of
    this list means nothing. *)
Definition ListJobs (next : JobID -> Z) (m : machine) : list JobInfo :=
  omap (fun '(id, l) =>
          match m_heap m !! l with
          | Some entry => Some (snapshot next id entry)
          | None => None
          end)
       (map_to_list (jobs (m_sched m))).

(** [RunNow], [Start] and [Stop] of the scheduler in its memory. *)
Definition run_now (m : machine) (id : JobID) : goerror * machine :=
  let '(err, s) := RunNow (m_sched m) id in
  (err, {| m_sched := s; m_nextID := m_nextID m; m_cron := m_cron m;
           m_heap := m_heap m |}).

(** The pool runs the oldest task it holds. *)
Definition pool_run (fuel : nat) (m : machine) (w : W)
  : option (result unit * machine * W * list event) :=
  match pool (m_sched m) with
  | [] => Some (Val tt, m, w, [])
  | l :: rest =>
      match run_task fuel (config (m_sched m)) l (m_heap m) w with
      | None => None
      | Some (out, heap, w', t) =>
          Some (out,
                {| m_sched := set_pool rest (m_sched m); m_nextID := m_nextID m;
                   m_cron := m_cron m; m_heap := heap |},
                w', t)
      end
  end.

(** What [GetJob] answers for a job that has not run yet. *)
Definition new_info (next : JobID -> Z) (id : JobID) (name spec : string)
    (o : JobOptions) : JobInfo :=
  {| info_ID := id; info_Name := name; info_Spec := spec; info_LastRun := 0;
     info_NextRun := next id; info_RunCount := 0; info_FailCount := 0;
     info_Running := false; info_Options := o |}.

(** What the operations keep: every registered pointer leads to an entry,
    no two ids share an entry, cron fires exactly the registered jobs, and
    ids are positive and not above the counter. *)
Definition consistent (m : machine) : Prop :=
  (forall id l, jobs (m_sched m) !! id = Some l -> is_Some (m_heap m !! l))
  /\ (forall id1 id2 l,
        jobs (m_sched m) !! id1 = Some l -> jobs (m_sched m) !! id2 = Some l -> id1 = id2)
  /\ m_cron m = jobs (m_sched m)
  /\ 0 <= m_nextID m
  /\ (forall id l, jobs (m_sched m) !! id = Some l -> 0 < id <= m_nextID m).

End Registry.

(** ** More samples *)

Module Demo.

(** cron's standard parser, as far as these samples go: it rejects the
    empty spec.  Every time zone but the empty one exists. *)
#[global] Instance collaborators : Collaborators :=
  {| cron_Parse := fun _ spec =>
       if String.eqb spec "" then Some "empty spec string" else None;
     time_LoadLocation := fun tz =>
       if String.eqb tz "" then Some "unknown time zone" else None |}.

(** A fresh scheduler with the default configuration. *)
Definition fresh_machine : machine :=
  {| m_sched := {| cron := {| cron_running := false |}; config := DefaultConfig;
                   pool := []; jobs := ∅; sched_running := false |};
     m_nextID := 0; m_cron := ∅; m_heap := ∅ |}.

(** That scheduler after an [AddFunc] of the job that always fails. *)
Definition with_job : machine :=
  (AddFunc "job" "* * * * *" Sample.always_fails [] fresh_machine).1.2.


(** Two executions of one entry in flight. *)
Definition two_in_flight : firings :=
  {| shared := set_running true (Sample.entry_of (Sample.flaky 0) Sample.none5);
     fworld := 0%nat; ftrace := [];
     threads := [InFlight 0; InFlight 0]; escaped := None |}.

(** A started scheduler whose configuration switches the skip policy off,
    with one job registered under id 1 at address 0, and that job's entry
    while an execution of it is in flight. *)
Definition no_skip : Scheduler :=
  {| cron := {| cron_running := true |}; config := Sample.quiet false; pool := [];
     jobs := {[ 1 := 0%nat ]}; sched_running := true |}.

Definition busy : jobEntry :=
  set_running true (Sample.entry_of (Sample.flaky 0) Sample.none5).

(** Retry for ever. *)
Definition forever : JobOptions :=
  {| MaxRetries := max_int; BackoffStrategy := BackoffFixed;
     InitialBackoff := 0; MaxBackoff := 0; BackoffMultiplier := 0%float |}.

End Demo.

(** ** Reading a float64

    What the statements about [Next] need to speak of a float as a number:
    the bit length of a mantissa, when a float is an integer, and
    [math.Pow(2, k)]. *)

(** The number of bits of [p]. *)
Definition dz (p : positive) : Z := Z.pos (digits2_pos p).

(** The finite float with mantissa [m] and exponent [e] is the integer [z]
    times [2^j]: [m * 2^e = z * 2^j], written without negative powers. *)
Definition repr (z j : Z) (m : positive) (e : Z) : Prop :=
  dz m = 53 /\ -52 <= e /\ 0 <= j /\ Z.pos m * 2 ^ (e + 52) = z * 2 ^ (j + 52).




(** * Properties *)

(** ** Machine integers *)

Lemma wrap_int_id z : in_int z -> wrap_int z = z.
Proof.
  unfold in_int, wrap_int, min_int, max_int. intros Hz.
  rewrite Z.mod_small; lia.
Qed.

Lemma wrap_int_range z : in_int (wrap_int z).
Proof.
  unfold in_int, wrap_int, min_int, max_int.
  pose proof (Z.mod_pos_bound (z + 2 ^ 63) (2 ^ 64) ltac:(lia)). lia.
Qed.

Lemma incr_small i : min_int <= i < max_int -> incr i = i + 1.
Proof.
  intros Hi. unfold incr. apply wrap_int_id. unfold in_int. lia.
Qed.

(** ** The effect monad *)

Section MonadFacts.
Context `{Runtime}.

Lemma bind_val {A B} (m : M A) (k : A -> M B) w a w1 t1 :
  m w = Some (Val a, w1, t1) ->
  bind m k w =
    match k a w1 with
    | None => None
    | Some (r, w2, t2) => Some (r, w2, t1 ++ t2)
    end.
Proof. intros Hm. unfold bind. now rewrite Hm. Qed.

Lemma bind_panic {A B} (m : M A) (k : A -> M B) w p w1 t1 :
  m w = Some (Panicking p, w1, t1) -> bind m k w = Some (Panicking p, w1, t1).
Proof. intros Hm. unfold bind. now rewrite Hm. Qed.

Lemma bind_ret_l {A B} (a : A) (k : A -> M B) w : bind (ret a) k w = k a w.
Proof.
  unfold bind, ret. destruct (k a w) as [[[r w2] t2]|]; reflexivity.
Qed.

Lemma calls_app t1 t2 : calls (t1 ++ t2) = calls t1 ++ calls t2.
Proof.
  induction t1 as [|ev t1 IH]; [reflexivity|].
  destruct ev; simpl; now rewrite IH.
Qed.

Lemma calls_logs ls : calls (map EvLog ls) = [].
Proof. induction ls; simpl; auto. Qed.

(** What precedes the invocation in one round of the loop never fails and
    invokes nothing; in round 0 it does nothing at all. *)
Lemma before_attempt (r : RetryExecutor) (cb : option callback) attempt lastErr w :
  exists w1 t1,
    (if 0 <? attempt then
       let backoffDuration := Next (backoff r) attempt in
       (match cb with
        | Some f => call_onRetry f attempt lastErr backoffDuration
        | None => ret tt
        end ;~
        if 0 <? backoffDuration then Sleep backoffDuration else ret tt)
     else ret tt) w = Some (Val tt, w1, t1)
    /\ calls t1 = []
    /\ (attempt = 0 -> t1 = []).
Proof.
  destruct (0 <? attempt) eqn:Ha.
  - cbv zeta. set (d := Next (backoff r) attempt).
    destruct cb as [f|].
    + unfold bind, call_onRetry. destruct (f attempt lastErr d w) as [w1 ls].
      destruct (0 <? d); unfold Sleep, ret; eexists _, _; (split; [reflexivity|]);
        (split; [|lia]); simpl; rewrite ?calls_app, ?calls_logs; reflexivity.
    + rewrite bind_ret_l.
      destruct (0 <? d); unfold Sleep, ret; eexists _, _; (split; [reflexivity|]);
        (split; [|lia]); reflexivity.
  - unfold ret. eexists _, _. repeat split.
Qed.

End MonadFacts.

(** ** The retry executor *)

Section ExecutorFacts.
Context `{Runtime}.

(** Without a callback the two loops are the same function. *)
Lemma callback_loop_nil r fn :
  forall fuel attempt lastErr w,
    ExecuteWithCallback_loop fuel r fn None attempt lastErr w
    = Execute_loop fuel r fn attempt lastErr w.
Proof.
  induction fuel as [|fuel IH]; intros attempt lastErr w; [reflexivity|].
  simpl. destruct (attempt <=? MaxRetries (options r)); [|reflexivity].
  assert (Hround : forall (pre : M unit) w',
    (pre ;~ lastErr <~ invoke fn ;
       if is_nil lastErr then ret None
       else ExecuteWithCallback_loop fuel r fn None (incr attempt) lastErr) w'
    = (pre ;~ lastErr <~ invoke fn ;
         if is_nil lastErr then ret None
         else Execute_loop fuel r fn (incr attempt) lastErr) w').
  { intros pre w'. unfold bind, invoke.
    destruct (pre w') as [[[[[]|p] w1] t1]|]; try reflexivity.
    destruct (fn w1) as [[err|p] w2]; try reflexivity.
    destruct (is_nil err); [reflexivity|]. now rewrite IH. }
  destruct (0 <? attempt); [|apply Hround].
  cbv zeta. rewrite <- Hround. unfold bind at 1 3.
  rewrite bind_ret_l. reflexivity.
Qed.

Lemma callback_nil fuel r fn w :
  ExecuteWithCallback fuel r fn None w = Execute fuel r fn w.
Proof.
  unfold ExecuteWithCallback, Execute.
  destruct (_ || _); [reflexivity|]. apply callback_loop_nil.
Qed.

(** The loop entered at [attempt] with [k] rounds left. *)
Lemma retry_loop_spec r fn cb :
  MaxRetries (options r) < max_int ->
  forall (k fuel : nat) attempt lastErr w,
    0 <= attempt ->
    Z.of_nat k = MaxRetries (options r) + 1 - attempt ->
    (k < fuel)%nat ->
    exists res w' t,
      ExecuteWithCallback_loop fuel r fn cb attempt lastErr w = Some (res, w', t)
      /\ ((k = 0%nat /\ res = Val lastErr /\ w' = w /\ t = [])
          \/ exists errs,
               calls t = map failed errs ++ [res]
               /\ (length errs < k)%nat
               /\ (forall e, res = failed e -> S (length errs) = k)
               /\ (attempt = 0 -> exists t', t = EvCall (hd res (map failed errs)) :: t')).
Proof.
  intros Hmax. induction k as [|k IH]; intros fuel attempt lastErr w Ha Hk Hfuel.
  - destruct fuel as [|fuel]; [lia|]. simpl.
    destruct (attempt <=? MaxRetries (options r)) eqn:Hle; [lia|].
    eexists _, _, _. split; [reflexivity|]. left. auto.
  - destruct fuel as [|fuel]; [lia|]. simpl.
    destruct (attempt <=? MaxRetries (options r)) eqn:Hle; [|lia].
    destruct (before_attempt r cb attempt lastErr w) as (w1 & t1 & Hpre & Hc1 & Ht1).
    rewrite (bind_val _ _ _ _ _ _ Hpre).
    unfold bind at 1, invoke at 1.
    destruct (fn w1) as [[[e|]|p] w2] eqn:Hfn; simpl.
    + (* an error: go round again *)
      rewrite incr_small by (unfold min_int; lia).
      destruct (IH fuel (attempt + 1) (Some e) w2) as (res & w' & t & Hrun & Hres);
        [lia | lia | lia |].
      rewrite Hrun. eexists _, _, _. split; [reflexivity|]. right.
      destruct Hres as [(-> & -> & -> & ->) | (errs & Hcalls & Hlen & Hlast & _)].
      * exists []. rewrite calls_app, Hc1. simpl. repeat split; auto.
        intros ->. rewrite (Ht1 eq_refl). simpl. eauto.
      * exists (e :: errs). rewrite calls_app, Hc1. simpl. rewrite Hcalls.
        repeat split; [lia | intros e' He'; specialize (Hlast e' He'); lia |].
        intros ->. rewrite (Ht1 eq_refl). simpl. eauto.
    + (* nil: return *)
      eexists _, _, _. split; [reflexivity|]. right. exists [].
      rewrite calls_app, Hc1. simpl. repeat split; [lia | discriminate |].
      intros ->. rewrite (Ht1 eq_refl). simpl. eauto.
    + (* a panic unwinds through the loop *)
      eexists _, _, _. split; [reflexivity|]. right. exists [].
      rewrite calls_app, Hc1. simpl. repeat split; [lia | discriminate |].
      intros ->. rewrite (Ht1 eq_refl). simpl. eauto.
Qed.

Lemma retry_runs (opts : JobOptions) fn cb fuel w :
  0 < MaxRetries opts < max_int ->
  BackoffStrategy opts <> BackoffNone ->
  (Z.to_nat (MaxRetries opts) + 2 <= fuel)%nat ->
  exists res w' t,
    ExecuteWithCallback fuel (NewRetryExecutor opts) fn cb w = Some (res, w', t)
    /\ retry_outcome (MaxRetries opts) res t.
Proof.
  intros [Hpos Hmax] Hstrat Hfuel. unfold ExecuteWithCallback. simpl.
  destruct (MaxRetries opts <=? 0) eqn:H0; [lia|].
  destruct (String.eqb (BackoffStrategy opts) BackoffNone) eqn:Hs.
  { apply String.eqb_eq in Hs. contradiction. }
  simpl.
  destruct (retry_loop_spec (NewRetryExecutor opts) fn cb Hmax
              (Z.to_nat (MaxRetries opts) + 1) fuel 0 None w)
    as (res & w' & t & Hrun & Hres); [lia | simpl; lia | lia |].
  exists res, w', t. split; [exact Hrun|].
  destruct Hres as [(Hk & _) | (errs & Hcalls & Hlen & Hlast & Hfirst)]; [lia|].
  exists errs. repeat split; [exact Hcalls | lia | | apply Hfirst; reflexivity].
  intros e He. specialize (Hlast e He). lia.
Qed.

(** At [MaxRetries = math.MaxInt] the test [attempt <= MaxRetries] holds for
    every [int], and [attempt++] wraps: only a [nil] or a panic ends the
    loop.  On an operation that keeps returning errors the loop does not
    return, whatever the fuel. *)
Lemma retry_loop_at_max_int r fn cb :
  MaxRetries (options r) = max_int ->
  (forall w, exists e, (fn w).1 = failed e) ->
  forall fuel attempt lastErr w,
    in_int attempt ->
    ExecuteWithCallback_loop fuel r fn cb attempt lastErr w = None.
Proof.
  intros Hmax Hfails. induction fuel as [|fuel IH]; intros attempt lastErr w Ha;
    [reflexivity|].
  simpl. rewrite Hmax.
  destruct (attempt <=? max_int) eqn:Hle; [|unfold in_int in Ha; lia].
  destruct (before_attempt r cb attempt lastErr w) as (w1 & t1 & Hpre & _).
  rewrite (bind_val _ _ _ _ _ _ Hpre).
  unfold bind at 1, invoke at 1.
  destruct (Hfails w1) as [e He]. destruct (fn w1) as [res w2]. simpl in He. subst res.
  simpl. rewrite IH by apply wrap_int_range. reflexivity.
Qed.

End ExecutorFacts.

(** C1, as stated, fails at the largest [MaxRetries]: with
    [MaxRetries = math.MaxInt] the loop test [attempt <= MaxRetries] holds
    for every [int] and [attempt++] wraps around, so on an operation whose
    every invocation returns an error neither [Execute] nor
    [ExecuteWithCallback] ever returns: no last error comes back, and no
    number bounds the invocations. *)
Lemma retry_never_returns_at_max_int :
  (0 < MaxRetries Demo.forever /\ BackoffStrategy Demo.forever <> BackoffNone)
  /\ (forall n : nat, (Sample.always_fails n).1 = failed "boom")
  /\ forall fuel : nat,
       Execute fuel (NewRetryExecutor Demo.forever) Sample.always_fails 0%nat = None
       /\ ExecuteWithCallback fuel (NewRetryExecutor Demo.forever) Sample.always_fails
            None 0%nat = None.
Proof.
  split; [split; [reflexivity | discriminate]|]. split; [reflexivity|].
  intros fuel.
  assert (Hloop : ExecuteWithCallback fuel (NewRetryExecutor Demo.forever)
                    Sample.always_fails None 0%nat = None).
  { assert (Hfails : forall n : nat, exists e, (Sample.always_fails n).1 = failed e).
    { intros n. now exists "boom"%string. }
    assert (Hin : in_int 0) by (unfold in_int, min_int, max_int; lia).
    exact (@retry_loop_at_max_int Sample.counting (NewRetryExecutor Demo.forever)
             Sample.always_fails None eq_refl Hfails fuel 0 None 0%nat Hin). }
  split; [rewrite <- callback_nil|]; exact Hloop.
Qed.

(** C1, amended.  With [0 < MaxRetries < math.MaxInt] and a
    strategy other than [none], [Execute] and [ExecuteWithCallback] return
    for every operation, having invoked it at most [MaxRetries + 1] times,
    the first time before anything else; the run ends with the first
    invocation that does not return an error, and its result is that of the
    last invocation: [nil] as soon as one returns [nil], the last error when
    all [MaxRetries + 1] returned errors.  With [MaxRetries = 3], a fixed
    backoff of 10ms and an operation that fails twice and then succeeds, there
    are exactly three invocations and the result is [nil]. *)
Theorem retry_executor_bounded :
  (forall (R : Runtime) (opts : JobOptions) (fn : operation) (cb : option callback)
          (fuel : nat) (w : W),
      0 < MaxRetries opts < max_int ->
      BackoffStrategy opts <> BackoffNone ->
      (Z.to_nat (MaxRetries opts) + 2 <= fuel)%nat ->
      (exists res w' t,
          Execute fuel (NewRetryExecutor opts) fn w = Some (res, w', t)
          /\ retry_outcome (MaxRetries opts) res t)
      /\ (exists res w' t,
          ExecuteWithCallback fuel (NewRetryExecutor opts) fn cb w = Some (res, w', t)
          /\ retry_outcome (MaxRetries opts) res t))
  /\ (let r := NewRetryExecutor Sample.fixed3 in
      let trace :=
        [EvCall (failed "boom"); EvSleep (10 * Millisecond);
         EvCall (failed "boom"); EvSleep (10 * Millisecond);
         EvCall (Val None)] in
      Execute 5 r (Sample.flaky 2) 0%nat = Some (Val None, 3%nat, trace)
      /\ ExecuteWithCallback 5 r (Sample.flaky 2) None 0%nat = Some (Val None, 3%nat, trace)
      /\ length (calls trace) = 3%nat).
Proof.
  split.
  - intros R opts fn cb fuel w Hmax Hstrat Hfuel. split.
    + rewrite <- callback_nil. now apply retry_runs.
    + now apply retry_runs.
  - vm_compute. auto.
Qed.

(** The run of C1 on the sample operation that always fails, with three
    retries: four invocations, and the last error comes back. *)
Lemma retry_executor_bounded_witness :
  (0 < MaxRetries Sample.fixed3 < max_int
   /\ BackoffStrategy Sample.fixed3 <> BackoffNone
   /\ (Z.to_nat (MaxRetries Sample.fixed3) + 2 <= 5)%nat)
  /\ ((exists res w' t,
          Execute 5 (NewRetryExecutor Sample.fixed3) Sample.always_fails 0%nat
          = Some (res, w', t)
          /\ retry_outcome (MaxRetries Sample.fixed3) res t)
      /\ (exists res w' t,
          ExecuteWithCallback 5 (NewRetryExecutor Sample.fixed3) Sample.always_fails None 0%nat
          = Some (res, w', t)
          /\ retry_outcome (MaxRetries Sample.fixed3) res t)).
Proof.
  assert (Hh : 0 < MaxRetries Sample.fixed3 < max_int
               /\ BackoffStrategy Sample.fixed3 <> BackoffNone
               /\ (Z.to_nat (MaxRetries Sample.fixed3) + 2 <= 5)%nat).
  { split; [vm_compute; split; reflexivity|]. split; [discriminate|]. vm_compute. lia. }
  split; [exact Hh|].
  destruct Hh as (H1 & H2 & H3).
  exact (proj1 retry_executor_bounded Sample.counting Sample.fixed3 Sample.always_fails
           None 5%nat 0%nat H1 H2 H3).
Defined.

(** C3.  With [MaxRetries <= 0] or the strategy [none], [Execute] and
    [ExecuteWithCallback] invoke the operation exactly once and hand back
    what it did and the world it left, whatever that is: the trace holds
    that one invocation and nothing else (no sleep, no callback). *)
Theorem no_retry_runs_once (R : Runtime) (opts : JobOptions) (fn : operation)
    (cb : option callback) (fuel : nat) (w : W) :
  MaxRetries opts <= 0 \/ BackoffStrategy opts = BackoffNone ->
  Execute fuel (NewRetryExecutor opts) fn w
  = Some ((fn w).1, (fn w).2, [EvCall (fn w).1])
  /\ ExecuteWithCallback fuel (NewRetryExecutor opts) fn cb w
     = Some ((fn w).1, (fn w).2, [EvCall (fn w).1]).
Proof.
  intros Hoff.
  assert (Hguard : (MaxRetries opts <=? 0) || String.eqb (BackoffStrategy opts) BackoffNone = true).
  { destruct Hoff as [Hle | ->].
    - apply Z.leb_le in Hle. now rewrite Hle.
    - rewrite String.eqb_refl. apply orb_true_r. }
  unfold Execute, ExecuteWithCallback. simpl. rewrite Hguard.
  unfold invoke. destruct (fn w) as [res w']. auto.
Qed.

Lemma no_retry_runs_once_witness :
  (MaxRetries Sample.none5 <= 0 \/ BackoffStrategy Sample.none5 = BackoffNone)
  /\ Execute 0 (NewRetryExecutor Sample.none5) Sample.always_fails 0%nat
     = Some (failed "boom", 1%nat, [EvCall (failed "boom")])
  /\ ExecuteWithCallback 0 (NewRetryExecutor Sample.none5) Sample.always_fails None 0%nat
     = Some (failed "boom", 1%nat, [EvCall (failed "boom")]).
Proof.
  split; [right; reflexivity|].
  exact (no_retry_runs_once Sample.counting Sample.none5 Sample.always_fails None
           0%nat 0%nat (or_intror eq_refl)).
Defined.

(** C10.  Without an [onRetry] function, [ExecuteWithCallback] is [Execute]:
    same result, same world, same trace, for every operation and every
    executor. *)
Theorem callback_absent_is_execute (R : Runtime) (fuel : nat) (r : RetryExecutor)
    (fn : operation) (w : W) :
  ExecuteWithCallback fuel r fn None w = Execute fuel r fn w.
Proof. apply callback_nil. Qed.

(** ** The exponential backoff *)

(** The default options double from one second up to the cap of thirty. *)
Example default_backoff_delays :
  map (Next (NewBackoff DefaultJobOptions)) [1; 2; 3; 4; 5; 6; 7; 8]
  = map (fun s => s * Second) [1; 2; 4; 8; 16; 30; 30; 30].
Proof. vm_compute. reflexivity. Qed.

(** The product is truncated to whole nanoseconds: 3ns * 1.5 is 4ns. *)
Example backoff_truncates : Next (exponentialBackoff 3 100 1.5%float) 2 = 4.
Proof. vm_compute. reflexivity. Qed.

(** *** float64: rounding, conversion and order

    [float64(z)], [int64(f)], the product and the comparison that
    [exponentialBackoff.Next] performs, through the specification of
    binary64 arithmetic. *)

Section FloatFacts.

Lemma dz_log2 p : dz p = Z.log2 (Z.pos p) + 1.
Proof.
  unfold dz. induction p as [p IH|p IH|]; simpl digits2_pos.
  - rewrite Pos2Z.inj_succ, IH.
    change (Z.pos p~1) with (2 * Z.pos p + 1). rewrite Z.log2_succ_double by lia. lia.
  - rewrite Pos2Z.inj_succ, IH.
    change (Z.pos p~0) with (2 * Z.pos p). rewrite Z.log2_double by lia. lia.
  - reflexivity.
Qed.

Lemma dz_bounds p : 2 ^ (dz p - 1) <= Z.pos p < 2 ^ dz p.
Proof.
  rewrite dz_log2. replace (Z.log2 (Z.pos p) + 1 - 1) with (Z.log2 (Z.pos p)) by lia.
  replace (Z.log2 (Z.pos p) + 1) with (Z.succ (Z.log2 (Z.pos p))) by lia.
  apply Z.log2_spec. lia.
Qed.

Lemma dz_unique p d : 2 ^ (d - 1) <= Z.pos p < 2 ^ d -> dz p = d.
Proof.
  intros Hd. rewrite dz_log2.
  assert (0 <= d - 1).
  { destruct (Z.le_gt_cases 0 (d - 1)) as [|Hneg]; [assumption|].
    assert (d <= 0) by lia. rewrite (Z.pow_neg_r 2 (d - 1)) in Hd by lia.
    destruct (Z.eq_dec d 0) as [->|]; [simpl in Hd; lia|].
    rewrite (Z.pow_neg_r 2 d) in Hd by lia. lia. }
  rewrite (Z.log2_unique (Z.pos p) (d - 1)); [lia | lia |].
  replace (Z.succ (d - 1)) with d by lia. exact Hd.
Qed.

Lemma dz_pos p : 1 <= dz p.
Proof. unfold dz. lia. Qed.

Lemma iter_pos_nat {A} (f : A -> A) (n : positive) (x : A) :
  SpecFloat.iter_pos f n x = Nat.iter (Pos.to_nat n) f x.
Proof.
  revert x. induction n as [n IH|n IH|]; intros x; simpl SpecFloat.iter_pos.
  - rewrite !IH, Pos2Nat.inj_xI.
    replace (S (2 * Pos.to_nat n)) with (Pos.to_nat n + (Pos.to_nat n + 1))%nat by lia.
    rewrite !Nat.iter_add. reflexivity.
  - rewrite !IH, Pos2Nat.inj_xO.
    replace (2 * Pos.to_nat n)%nat with (Pos.to_nat n + Pos.to_nat n)%nat by lia.
    rewrite Nat.iter_add. reflexivity.
  - reflexivity.
Qed.

(** One right shift of a non-negative mantissa. *)
Lemma shr_1_nonneg m r s :
  0 <= m ->
  shr_1 {| shr_m := m; shr_r := r; shr_s := s |}
  = {| shr_m := m / 2; shr_r := Z.odd m; shr_s := r || s |}.
Proof.
  intros Hm. destruct m as [|[p|p|]|p]; try lia; unfold shr_1.
  - reflexivity.
  - f_equal. change (Z.pos p~1) with (2 * Z.pos p + 1).
    apply Z.div_unique with 1; lia.
  - f_equal. change (Z.pos p~0) with (2 * Z.pos p).
    apply Z.div_unique with 0; lia.
  - reflexivity.
Qed.

(** [k] right shifts: the mantissa is divided by [2^k]. *)
Lemma shr_iter_m (k : nat) m r s :
  0 <= m ->
  shr_m (Nat.iter k shr_1 {| shr_m := m; shr_r := r; shr_s := s |}) = m / 2 ^ Z.of_nat k.
Proof.
  intros Hm. induction k as [|k IH].
  - simpl. now rewrite Z.div_1_r.
  - rewrite Nat.iter_succ.
    destruct (Nat.iter k shr_1 _) as [mk rk sk] eqn:Hk. simpl in IH. subst mk.
    rewrite shr_1_nonneg by (apply Z.div_pos; lia). simpl.
    rewrite Nat2Z.inj_succ, Z.pow_succ_r by lia.
    rewrite Z.div_div by lia. f_equal. lia.
Qed.

(** Shifting out zeros only loses nothing. *)
Lemma shr_iter_exact (k : nat) m :
  0 <= m ->
  Nat.iter k shr_1 {| shr_m := m * 2 ^ Z.of_nat k; shr_r := false; shr_s := false |}
  = {| shr_m := m; shr_r := false; shr_s := false |}.
Proof.
  intros Hm. revert m Hm. induction k as [|k IH]; intros m Hm.
  - simpl. f_equal. lia.
  - rewrite Nat.iter_succ_r.
    rewrite shr_1_nonneg by lia.
    rewrite Nat2Z.inj_succ, Z.pow_succ_r by lia.
    replace (m * (2 * 2 ^ Z.of_nat k)) with ((m * 2 ^ Z.of_nat k) * 2) by lia.
    rewrite Z.div_mul by lia. rewrite Z.odd_mul. simpl. rewrite andb_false_r.
    apply IH. exact Hm.
Qed.

End FloatFacts.

Section RoundFacts.

Lemma fexp_eq e : fexp prec emax e = Z.max (e - 53) (-1074).
Proof. reflexivity. Qed.

Lemma shr_nonpos mrs e n : n <= 0 -> shr mrs e n = (mrs, e).
Proof. intros Hn. destruct n; try reflexivity. lia. Qed.

Lemma shr_exact m (k : Z) e :
  0 <= m -> 0 < k ->
  shr {| shr_m := m * 2 ^ k; shr_r := false; shr_s := false |} e k
  = ({| shr_m := m; shr_r := false; shr_s := false |}, e + k).
Proof.
  intros Hm Hk. destruct k as [|kp|kp]; try lia. unfold shr.
  rewrite iter_pos_nat. f_equal.
  rewrite <- (positive_nat_Z kp). apply shr_iter_exact. exact Hm.
Qed.

Lemma shr_floor m (k : Z) e :
  0 <= m -> 0 < k ->
  exists mrs, shr {| shr_m := m; shr_r := false; shr_s := false |} e k = (mrs, e + k)
              /\ shr_m mrs = m / 2 ^ k.
Proof.
  intros Hm Hk. destruct k as [|kp|kp]; try lia. unfold shr.
  eexists. split; [reflexivity|].
  rewrite iter_pos_nat, shr_iter_m by exact Hm. now rewrite positive_nat_Z.
Qed.

Lemma valid53 s m e :
  dz m = 53 -> -1074 <= e <= 971 -> valid_binary (S754_finite s m e) = true.
Proof.
  intros Hd He. unfold valid_binary, SpecFloat.valid_binary, bounded, canonical_mantissa.
  fold (dz m). rewrite Hd, fexp_eq.
  apply andb_true_iff. split; [apply Z.eqb_eq | apply Z.leb_le]; unfold prec, emax; lia.
Qed.

(** Rounding a mantissa that fits: nothing is shifted, nothing is lost. *)
Lemma bra_noshift s m e :
  dz m <= 53 -> -1074 <= e ->
  binary_round_aux prec emax s (Z.pos m) e loc_Exact
  = if e <=? 971 then S754_finite s m e else S754_infinity s.
Proof.
  intros Hd He. unfold binary_round_aux, shr_fexp.
  change (Zdigits2 (Z.pos m)) with (dz m).
  rewrite fexp_eq, shr_nonpos by lia. cbn [shr_record_of_loc shr_m loc_of_shr_record].
  cbn [round_nearest_even].
  change (Zdigits2 (Z.pos m)) with (dz m).
  rewrite fexp_eq, shr_nonpos by lia. cbn [shr_record_of_loc shr_m].
  reflexivity.
Qed.

(** Rounding a 53-bit mantissa followed by [k] zeros: the zeros are shifted
    out, nothing is lost. *)
Lemma bra_shift s m (q : positive) k e :
  dz m = 53 -> 0 < k -> -1074 <= e + k ->
  Z.pos q = Z.pos m * 2 ^ k ->
  binary_round_aux prec emax s (Z.pos q) e loc_Exact
  = if e + k <=? 971 then S754_finite s m (e + k) else S754_infinity s.
Proof.
  intros Hd Hk He Hq.
  assert (Hdq : dz q = 53 + k).
  { apply dz_unique. rewrite Hq. pose proof (dz_bounds m) as Hb. rewrite Hd in Hb.
    replace (53 + k - 1) with (52 + k) by lia.
    rewrite !Z.pow_add_r by lia. split; [apply Z.mul_le_mono_nonneg_r | apply Z.mul_lt_mono_pos_r];
      try lia; apply Z.pow_pos_nonneg; lia. }
  unfold binary_round_aux, shr_fexp.
  change (Zdigits2 (Z.pos q)) with (dz q). rewrite Hdq, fexp_eq.
  replace (Z.max (53 + k + e - 53) (-1074) - e) with k by lia.
  cbn [shr_record_of_loc]. rewrite Hq, shr_exact by lia.
  cbn [shr_m loc_of_shr_record round_nearest_even].
  change (Zdigits2 (Z.pos m)) with (dz m). rewrite Hd, fexp_eq, shr_nonpos by lia.
  cbn [shr_record_of_loc shr_m]. reflexivity.
Qed.

Lemma round_nearest_even_range m l :
  m <= round_nearest_even m l <= m + 1.
Proof.
  destruct l as [|[]]; simpl; try lia. destruct (Z.even m); lia.
Qed.

(** Rounding an integer of more than 53 bits: a 53-bit mantissa and a
    positive exponent. *)
Lemma bra_round (z : positive) :
  54 <= dz z <= 1000 ->
  exists m e,
    binary_round_aux prec emax false (Z.pos z) 0 loc_Exact = S754_finite false m e
    /\ dz m = 53 /\ dz z - 53 <= e <= dz z - 52.
Proof.
  intros Hd. set (n := dz z - 53).
  pose proof (dz_bounds z) as Hz.
  unfold binary_round_aux, shr_fexp.
  change (Zdigits2 (Z.pos z)) with (dz z). rewrite fexp_eq.
  replace (Z.max (dz z + 0 - 53) (-1074) - 0) with n by (unfold n; lia).
  cbn [shr_record_of_loc].
  destruct (shr_floor (Z.pos z) n 0) as (mrs & -> & Hm); [lia | unfold n; lia |].
  set (m0 := shr_m mrs) in *.
  assert (Hm0 : 2 ^ 52 <= m0 < 2 ^ 53).
  { rewrite Hm. split.
    - apply Z.div_le_lower_bound; [apply Z.pow_pos_nonneg; unfold n; lia|].
      rewrite <- Z.pow_add_r by (unfold n; lia).
      replace (n + 52) with (dz z - 1) by (unfold n; lia). lia.
    - apply Z.div_lt_upper_bound; [apply Z.pow_pos_nonneg; unfold n; lia|].
      rewrite <- Z.pow_add_r by (unfold n; lia).
      replace (n + 53) with (dz z) by (unfold n; lia). lia. }
  pose proof (round_nearest_even_range m0 (loc_of_shr_record mrs)) as Hr.
  set (r := round_nearest_even m0 (loc_of_shr_record mrs)) in *.
  destruct r as [|rp|rp] eqn:Er; try lia.
  destruct (Z.eq_dec (Z.pos rp) (2 ^ 53)) as [Htop | Hlow].
  - (* the mantissa overflowed to 2^53: one more shift *)
    assert (Hrp : rp = 9007199254740992%positive) by (apply Pos2Z.inj; exact Htop).
    subst rp. change (Zdigits2 (Z.pos 9007199254740992)) with 54.
    rewrite fexp_eq. replace (Z.max (54 + (0 + n) - 53) (-1074) - (0 + n)) with 1 by (unfold n; lia).
    cbn [shr_record_of_loc shr SpecFloat.iter_pos shr_1 shr_m].
    replace (0 + n + 1 <=? emax - prec) with true
      by (symmetry; apply Z.leb_le; unfold emax, prec, n; lia).
    eexists _, _. split; [reflexivity|]. split; [reflexivity | unfold n; lia].
  - assert (Hdr : dz rp = 53) by (apply dz_unique; lia).
    change (Zdigits2 (Z.pos rp)) with (dz rp). rewrite Hdr, fexp_eq, shr_nonpos by (unfold n; lia).
    cbn [shr_record_of_loc shr_m].
    replace (0 + n <=? emax - prec) with true
      by (symmetry; apply Z.leb_le; unfold emax, prec, n; lia).
    eexists _, _. split; [reflexivity|]. split; [exact Hdr | unfold n; lia].
Qed.

End RoundFacts.

Section ConversionFacts.

Lemma iter_xO p d : Z.pos (Pos.iter xO p d) = Z.pos p * 2 ^ Z.pos d.
Proof.
  induction d as [|d IH] using Pos.peano_ind.
  - simpl. lia.
  - rewrite Pos.iter_succ, Pos2Z.inj_succ, Z.pow_succ_r by lia.
    change (Z.pos (Pos.iter xO p d)~0) with (2 * Z.pos (Pos.iter xO p d)). rewrite IH. lia.
Qed.

(** The float a positive integer of at most 53 bits converts to: the
    integer itself, its bits moved to the top of the mantissa. *)
Lemma sf_int_small p :
  dz p <= 53 ->
  exists m,
    binary_normalize prec emax (Z.pos p) 0 false = S754_finite false m (dz p - 53)
    /\ dz m = 53 /\ Z.pos m = Z.pos p * 2 ^ (53 - dz p).
Proof.
  intros Hd. pose proof (dz_pos p) as Hp. pose proof (dz_bounds p) as Hb.
  unfold binary_normalize, binary_round. fold (dz p). rewrite fexp_eq.
  replace (Z.max (dz p + 0 - 53) (-1074)) with (dz p - 53) by lia.
  unfold shl_align. replace (dz p - 53 - 0) with (dz p - 53) by lia.
  destruct (dz p - 53) as [|d|d] eqn:Hs; try lia.
  - exists p. rewrite bra_noshift by lia. simpl.
    split; [reflexivity|]. split; [lia|]. replace (53 - dz p) with 0 by lia. lia.
  - assert (Hm : Z.pos (Pos.iter xO p d) = Z.pos p * 2 ^ (53 - dz p)).
    { rewrite iter_xO. f_equal. f_equal. lia. }
    assert (Hdm : dz (Pos.iter xO p d) = 53).
    { apply dz_unique. rewrite Hm.
      replace (2 ^ (53 - 1)) with (2 ^ (dz p - 1) * 2 ^ (53 - dz p))
        by (rewrite <- Z.pow_add_r by lia; f_equal; lia).
      replace (2 ^ 53) with (2 ^ dz p * 2 ^ (53 - dz p))
        by (rewrite <- Z.pow_add_r by lia; f_equal; lia).
      split; [apply Z.mul_le_mono_nonneg_r | apply Z.mul_lt_mono_pos_r];
        try lia; apply Z.pow_pos_nonneg; lia. }
    exists (Pos.iter xO p d). rewrite bra_noshift by lia.
    replace (Z.neg d <=? 971) with true by (symmetry; apply Z.leb_le; lia).
    split; [reflexivity|]. split; [exact Hdm | exact Hm].
Qed.

(** An integer of more than 53 bits is rounded to 53. *)
Lemma sf_int_big p :
  54 <= dz p <= 1000 ->
  exists m e,
    binary_normalize prec emax (Z.pos p) 0 false = S754_finite false m e
    /\ dz m = 53 /\ dz p - 53 <= e <= dz p - 52.
Proof.
  intros Hd. unfold binary_normalize, binary_round. fold (dz p). rewrite fexp_eq.
  unfold shl_align.
  destruct (Z.max (dz p + 0 - 53) (-1074) - 0) as [|d|d] eqn:Hs; try lia;
    now apply bra_round.
Qed.


Lemma Prim2SF_float64_of_int z m e :
  binary_normalize prec emax z 0 false = S754_finite false m e ->
  dz m = 53 -> -1074 <= e <= 971 ->
  Prim2SF (float64_of_int z) = S754_finite false m e.
Proof.
  intros Hn Hd He. unfold float64_of_int. rewrite Hn.
  apply Prim2SF_SF2Prim. now apply valid53.
Qed.

End ConversionFacts.

Section ValueFacts.

Lemma pow2_pos n : 0 <= n -> 0 < 2 ^ n.
Proof. intros. apply Z.pow_pos_nonneg; lia. Qed.


Lemma repr_pos z j m e : repr z j m e -> 0 < z.
Proof.
  intros (Hd & He & Hj & Hv).
  assert (0 < 2 ^ (e + 52)) by (apply pow2_pos; lia).
  assert (0 < 2 ^ (j + 52)) by (apply pow2_pos; lia). nia.
Qed.

(** Floats of integers up to [2^53]. *)
Lemma float_int_repr z :
  0 < z <= 2 ^ 53 ->
  exists m e, Prim2SF (float64_of_int z) = S754_finite false m e
              /\ repr z 0 m e /\ e <= 1.
Proof.
  intros Hz. destruct z as [|p|p]; try lia.
  destruct (Z.eq_dec (Z.pos p) (2 ^ 53)) as [Htop | Hlow].
  - assert (Hp : p = 9007199254740992%positive) by (apply Pos2Z.inj; exact Htop). subst p.
    exists 4503599627370496%positive, 1. split; [vm_compute; reflexivity|].
    split; [|lia]. split; [reflexivity|]. split; [lia|]. split; [lia | reflexivity].
  - assert (Hd : dz p <= 53).
    { pose proof (dz_bounds p) as Hb. pose proof (dz_pos p).
      destruct (Z.le_gt_cases (dz p) 53) as [|Hgt]; [assumption|].
      assert (2 ^ 53 <= 2 ^ (dz p - 1)) by (apply Z.pow_le_mono_r; lia). lia. }
    pose proof (dz_pos p) as Hp.
    destruct (sf_int_small p Hd) as (m & Hn & Hdm & Hm).
    exists m, (dz p - 53). split; [apply Prim2SF_float64_of_int; (assumption || lia)|].
    split; [|lia]. split; [exact Hdm|]. split; [lia|]. split; [lia|].
    rewrite Hm. replace (dz p - 53 + 52) with (dz p - 1) by lia.
    rewrite <- Z.mul_assoc, <- Z.pow_add_r by lia. f_equal. f_equal. lia.
Qed.

(** Floats of larger integers: a positive exponent. *)
Lemma float_int_big z :
  2 ^ 53 < z < 2 ^ 63 ->
  exists m e, Prim2SF (float64_of_int z) = S754_finite false m e
              /\ dz m = 53 /\ 1 <= e <= 11.
Proof.
  intros Hz. destruct z as [|p|p]; try lia.
  pose proof (dz_bounds p) as Hb.
  assert (Hd : 54 <= dz p <= 63).
  { split.
    - destruct (Z.le_gt_cases 54 (dz p)) as [|Hlt]; [assumption|].
      assert (2 ^ dz p <= 2 ^ 53) by (apply Z.pow_le_mono_r; lia). lia.
    - destruct (Z.le_gt_cases (dz p) 63) as [|Hgt]; [assumption|].
      assert (2 ^ 63 <= 2 ^ (dz p - 1)) by (apply Z.pow_le_mono_r; lia). lia. }
  destruct (sf_int_big p) as (m & e & Hn & Hdm & He); [lia|].
  exists m, e. split; [apply Prim2SF_float64_of_int; (assumption || lia)|].
  split; [exact Hdm | lia].
Qed.

(** [int64(f)] of a float that is an integer in range. *)
Lemma int64_of_repr f z m e :
  Prim2SF f = S754_finite false m e -> repr z 0 m e -> z <= max_int ->
  int64_of_float64 f = z.
Proof.
  intros Hf Hr Hz. pose proof (repr_pos _ _ _ _ Hr) as Hpos.
  destruct Hr as (Hd & He & _ & Hv). unfold int64_of_float64. rewrite Hf.
  assert (Hmag : (if 0 <=? e then Z.pos m * 2 ^ e else Z.pos m `div` 2 ^ (- e)) = z).
  { destruct (Z.leb_spec 0 e) as [Hnn | Hneg].
    - rewrite Z.pow_add_r in Hv by lia. simpl (0 + 52) in Hv. lia.
    - assert (Hm : Z.pos m = z * 2 ^ (- e)).
      { replace (0 + 52) with ((e + 52) + (- e)) in Hv by lia.
        rewrite (Z.pow_add_r 2 (e + 52) (- e)) in Hv by lia.
        assert (0 < 2 ^ (e + 52)) by (apply pow2_pos; lia). nia. }
      rewrite Hm. apply Z.div_mul. assert (0 < 2 ^ (- e)) by (apply pow2_pos; lia). lia. }
  rewrite Hmag.
  replace ((min_int <=? z) && (z <=? max_int)) with true; [reflexivity|].
  symmetry. apply andb_true_iff. split; apply Z.leb_le; unfold min_int in *; lia.
Qed.

Lemma order_aux a b P Q v1 v2 :
  a < 9007199254740992 -> 4503599627370496 <= b -> 0 < P -> 2 <= Q ->
  a * P = v1 * 4503599627370496 -> b * (P * Q) = v2 * 4503599627370496 -> v1 < v2.
Proof.
  intros Ha Hb HP HQ H1 H2.
  assert (Hx : a * P < 9007199254740992 * P) by (apply Z.mul_lt_mono_pos_r; lia).
  assert (Hy : 4503599627370496 * (P * 2) <= b * (P * Q)).
  { apply Z.mul_le_mono_nonneg; try lia. apply Z.mul_le_mono_nonneg_l; lia. }
  lia.
Qed.

(** Order of two finite positive floats with full mantissas: by exponent,
    then by mantissa, which is the order of what they denote. *)
Lemma SFltb_repr z1 j1 m1 e1 z2 j2 m2 e2 :
  repr z1 j1 m1 e1 -> repr z2 j2 m2 e2 ->
  SFltb (S754_finite false m1 e1) (S754_finite false m2 e2)
  = (z1 * 2 ^ j1 <? z2 * 2 ^ j2).
Proof.
  intros (Hd1 & He1 & Hj1 & Hv1) (Hd2 & He2 & Hj2 & Hv2).
  pose proof (dz_bounds m1) as Hb1. pose proof (dz_bounds m2) as Hb2.
  rewrite Hd1 in Hb1. rewrite Hd2 in Hb2.
  rewrite (Z.pow_add_r 2 j1 52) in Hv1 by lia.
  rewrite (Z.pow_add_r 2 j2 52) in Hv2 by lia.
  set (v1 := z1 * 2 ^ j1) in *. set (v2 := z2 * 2 ^ j2) in *.
  assert (Hv1' : Z.pos m1 * 2 ^ (e1 + 52) = v1 * 2 ^ 52) by (unfold v1; lia).
  assert (Hv2' : Z.pos m2 * 2 ^ (e2 + 52) = v2 * 2 ^ 52) by (unfold v2; lia).
  clearbody v1 v2. clear Hv1 Hv2.
  unfold SFltb, SFcompare.
  destruct (Z.compare_spec e1 e2) as [Heq | Hlt | Hgt].
  - subst e2. rewrite Pos.compare_cont_spec. simpl Pos.switch_Eq.
    assert (Hp : 0 < 2 ^ (e1 + 52)) by (apply pow2_pos; lia).
    destruct (Pos.compare_spec m1 m2) as [-> | Hm | Hm]; symmetry.
    + apply Z.ltb_ge. change (2 ^ 52) with 4503599627370496 in *. lia.
    + apply Z.ltb_lt. change (2 ^ 52) with 4503599627370496 in *.
      assert (Z.pos m1 * 2 ^ (e1 + 52) < Z.pos m2 * 2 ^ (e1 + 52))
        by (apply Z.mul_lt_mono_pos_r; lia). lia.
    + apply Z.ltb_ge. change (2 ^ 52) with 4503599627370496 in *.
      assert (Z.pos m2 * 2 ^ (e1 + 52) < Z.pos m1 * 2 ^ (e1 + 52))
        by (apply Z.mul_lt_mono_pos_r; lia). lia.
  - symmetry. apply Z.ltb_lt.
    replace (e2 + 52) with ((e1 + 52) + (e2 - e1)) in Hv2' by lia.
    rewrite Z.pow_add_r in Hv2' by lia.
    assert (Hp : 0 < 2 ^ (e1 + 52)) by (apply pow2_pos; lia).
    assert (2 <= 2 ^ (e2 - e1)).
    { change 2 with (2 ^ 1) at 1. apply Z.pow_le_mono_r; lia. }
    change (2 ^ (53 - 1)) with 4503599627370496 in *.
    change (2 ^ 53) with 9007199254740992 in *. change (2 ^ 52) with 4503599627370496 in *.
    eapply (order_aux (Z.pos m1) (Z.pos m2)); [| | exact Hp | | exact Hv1' | exact Hv2']; lia.
  - symmetry. apply Z.ltb_ge.
    replace (e1 + 52) with ((e2 + 52) + (e1 - e2)) in Hv1' by lia.
    rewrite Z.pow_add_r in Hv1' by lia.
    assert (Hp : 0 < 2 ^ (e2 + 52)) by (apply pow2_pos; lia).
    assert (2 <= 2 ^ (e1 - e2)).
    { change 2 with (2 ^ 1) at 1. apply Z.pow_le_mono_r; lia. }
    change (2 ^ (53 - 1)) with 4503599627370496 in *.
    change (2 ^ 53) with 9007199254740992 in *. change (2 ^ 52) with 4503599627370496 in *.
    apply Z.lt_le_incl.
    eapply (order_aux (Z.pos m2) (Z.pos m1)); [| | exact Hp | | exact Hv2' | exact Hv1']; lia.
Qed.

(** Multiplying by a power of two moves the exponent. *)
Lemma mul_pow2 x y m e k :
  Prim2SF x = S754_finite false m e -> dz m = 53 ->
  Prim2SF y = S754_finite false 4503599627370496 (k - 52) -> -1074 <= e + k ->
  Prim2SF (x * y)
  = if e + k <=? 971 then S754_finite false m (e + k) else S754_infinity false.
Proof.
  intros Hx Hd Hy Hk. rewrite mul_spec, Hx, Hy. unfold SF64mul, SFmul.
  change (xorb false false) with false.
  rewrite (bra_shift false m (m * 4503599627370496) 52 (e + (k - 52)))
    by (assumption || lia || (rewrite Pos2Z.inj_mul; reflexivity)).
  replace (e + (k - 52) + 52) with (e + k) by lia. reflexivity.
Qed.


(** [x * 1 = x] for the floats of positive integers. *)
Lemma mul_one x m e :
  Prim2SF x = S754_finite false m e -> dz m = 53 -> -52 <= e <= 971 ->
  (x * 1)%float = x.
Proof.
  intros Hx Hd He. apply Prim2SF_inj.
  rewrite (mul_pow2 x 1%float m e 0 Hx Hd) by (lia || reflexivity).
  replace (e + 0) with e by lia.
  replace (e <=? 971) with true by (symmetry; apply Z.leb_le; lia).
  now rewrite Hx.
Qed.

End ValueFacts.

Section FirstAttempt.

Lemma SFltb_exp_gt m1 e1 m2 e2 :
  e2 < e1 -> SFltb (S754_finite false m1 e1) (S754_finite false m2 e2) = false.
Proof.
  intros He. unfold SFltb, SFcompare.
  destruct (Z.compare_spec e1 e2); (reflexivity || lia).
Qed.

Lemma SFltb_mant_ge m1 m2 e :
  (m2 <= m1)%positive -> SFltb (S754_finite false m1 e) (S754_finite false m2 e) = false.
Proof.
  intros Hm. unfold SFltb, SFcompare. rewrite Z.compare_refl, Pos.compare_cont_spec.
  simpl Pos.switch_Eq. destruct (Pos.compare_spec m1 m2); (reflexivity || lia).
Qed.

Lemma math_Pow_zero x : math_Pow x 0 = 1%float.
Proof. reflexivity. Qed.

(** The cap converted to a float. *)
Lemma float_cap_shape M :
  0 < M <= max_int ->
  exists m e, Prim2SF (float64_of_int M) = S754_finite false m e /\ dz m = 53
              /\ ((M <= 2 ^ 53 /\ repr M 0 m e) \/ (2 ^ 53 < M /\ 1 <= e)).
Proof.
  intros HM. destruct (Z.le_gt_cases M (2 ^ 53)) as [Hs | Hb].
  - destruct (float_int_repr M) as (m & e & Hf & Hr & _); [lia|].
    exists m, e. split; [exact Hf|]. split; [apply Hr | left; auto].
  - destruct (float_int_big M) as (m & e & Hf & Hd & He); [unfold max_int in HM; lia|].
    exists m, e. split; [exact Hf|]. split; [exact Hd | right; lia].
Qed.

(** [Next(1)], whatever the multiplier. *)
Lemma Next_first initial max multiplier :
  0 <= initial <= 2 ^ 53 -> 0 <= max <= max_int ->
  exponentialBackoff_Next initial max multiplier 1 = Z.min initial max.
Proof.
  intros HI HM. unfold exponentialBackoff_Next.
  change (1 <=? 0) with false. cbv iota.
  change (float64_of_int (1 - 1)) with 0%float. rewrite math_Pow_zero. cbv zeta.
  destruct (Z.eq_dec initial 0) as [-> | HI0].
  - change (float64_of_int 0 * 1)%float with 0%float.
    assert (Hlt : (float64_of_int max <? 0)%float = false).
    { destruct (Z.eq_dec max 0) as [-> | HM0]; [reflexivity|].
      destruct (float_cap_shape max) as (m & e & Hf & _); [lia|].
      rewrite ltb_spec, Hf. reflexivity. }
    rewrite Hlt. change (int64_of_float64 0) with 0. lia.
  - destruct (float_int_repr initial) as (mI & eI & HfI & HrI & HeI); [lia|].
    pose proof HrI as (HdI & HeI' & _ & HvI).
    rewrite (mul_one _ mI eI HfI HdI) by lia.
    rewrite ltb_spec, HfI.
    destruct (Z.eq_dec max 0) as [-> | HM0].
    + change (Prim2SF (float64_of_int 0)) with (S754_zero false).
      change (SFltb (S754_zero false) (S754_finite false mI eI)) with true. cbv iota. lia.
    + destruct (float_cap_shape max) as (mM & eM & HfM & HdM & [[Hs HrM] | [Hb HeM]]); [lia| |];
        rewrite HfM.
      * rewrite (SFltb_repr _ _ _ _ _ _ _ _ HrM HrI). rewrite !Z.mul_1_r.
        destruct (Z.ltb_spec max initial); [lia|].
        rewrite (int64_of_repr _ initial mI eI HfI HrI) by (unfold max_int; lia). lia.
      * assert (Hnot : SFltb (S754_finite false mM eM) (S754_finite false mI eI) = false).
        { destruct (Z.eq_dec eI eM) as [-> | Hne]; [|apply SFltb_exp_gt; lia].
          apply SFltb_mant_ge.
          assert (eM = 1) by lia. subst eM.
          pose proof (dz_bounds mI) as HbI. rewrite HdI in HbI.
          pose proof (dz_bounds mM) as HbM. rewrite HdM in HbM.
          change (2 ^ (1 + 52)) with (2 * 2 ^ 52) in HvI.
          change (2 ^ (0 + 52)) with (2 ^ 52) in HvI.
          change (2 ^ (53 - 1)) with 4503599627370496 in *.
          change (2 ^ 53) with 9007199254740992 in *.
          change (2 ^ 52) with 4503599627370496 in *. lia. }
        rewrite Hnot.
        rewrite (int64_of_repr _ initial mI eI HfI HrI) by (unfold max_int; lia). lia.
Qed.

End FirstAttempt.


Section PowFacts.




End PowFacts.

Section PowLoopFacts.







End PowLoopFacts.

Section Doubling.



End Doubling.

Section Capping.




End Capping.




(** An initial delay above the cap is outside what the options are meant to
    hold; there attempt 0 yields the initial delay and attempt 1 the cap. *)
Example initial_above_cap_is_not_capped :
  Sample.capped_low = exponentialBackoff 10 5 2%float
  /\ Next Sample.capped_low 0 = 10
  /\ Next Sample.capped_low 1 = 5.
Proof. vm_compute. repeat split. Qed.

(** C8, as stated, fails: an initial delay of [2^53 + 1] ns, below the cap
    [2^62] ns, comes back as it is for attempt 0, while attempt 1 converts it
    to [float64] and back, which rounds it to [2^53]. *)
Lemma nonpositive_attempt_differs_from_first :
  let b := exponentialBackoff (2 ^ 53 + 1) (2 ^ 62) 2%float in
  0 <= 2 ^ 53 + 1 <= 2 ^ 62
  /\ Next b 0 = 2 ^ 53 + 1
  /\ Next b 1 = 2 ^ 53
  /\ Next b 0 <> Next b 1.
Proof. cbv zeta. vm_compute. repeat split; discriminate. Qed.

(** C8, amended.  For [attempt <= 0] the exponential backoff returns
    [InitialBackoff] as it is.  When [0 <= InitialBackoff <= MaxBackoff] and
    [InitialBackoff] is at most [2^53] ns, which [float64] holds exactly,
    that is what attempt 1 yields, [min(InitialBackoff * 1, MaxBackoff)],
    whatever the multiplier. *)
Theorem nonpositive_attempt_is_first (initial max : Z) (multiplier : float) (attempt : Z) :
  attempt <= 0 ->
  0 <= initial <= 2 ^ 53 ->
  initial <= max <= max_int ->
  let b := exponentialBackoff initial max multiplier in
  Next b attempt = Next b 1
  /\ Next b 1 = Z.min (initial * 1) max
  /\ Next b attempt = initial.
Proof.
  intros Ha HI HM b. subst b. simpl Next.
  rewrite Next_first by lia.
  assert (Hguard : exponentialBackoff_Next initial max multiplier attempt = initial).
  { unfold exponentialBackoff_Next. destruct (Z.leb_spec attempt 0); [reflexivity | lia]. }
  rewrite Hguard. repeat split; lia.
Qed.

Lemma nonpositive_attempt_is_first_witness :
  (-1 <= 0 /\ 0 <= 10 * Millisecond <= 2 ^ 53 /\ 10 * Millisecond <= Second <= max_int)
  /\ Next (exponentialBackoff (10 * Millisecond) Second 1.5) (-1)
     = Next (exponentialBackoff (10 * Millisecond) Second 1.5) 1.
Proof.
  assert (Ha : -1 <= 0) by discriminate.
  assert (HI : 0 <= 10 * Millisecond <= 2 ^ 53) by (vm_compute; split; discriminate).
  assert (HM : 10 * Millisecond <= Second <= max_int) by (vm_compute; split; discriminate).
  split; [split; [exact Ha | split; [exact HI | exact HM]]|].
  exact (proj1 (nonpositive_attempt_is_first (10 * Millisecond) Second 1.5 (-1) Ha HI HM)).
Defined.

(** The power [Next] multiplies by at attempt 1 is 1, whatever the
    multiplier. *)
Lemma first_attempt_power (multiplier : float) :
  math_Pow multiplier (float64_of_int (1 - 1)) = 1%float.
Proof. reflexivity. Qed.

(** ** The execution wrapper *)

Section WrapperFacts.
Context `{Runtime}.

(** The executor reads the options, the work and the identity of the
    entry, none of which the wrapper changes. *)
Lemma wrap_exec_begin fuel cfg e w :
  wrap_exec fuel (wrap_begin cfg e w).1.1 = wrap_exec fuel e.
Proof. reflexivity. Qed.

Lemma wrap_end_running cfg startTime res e w :
  running (wrap_end cfg startTime res e w).1.1 = false.
Proof.
  unfold wrap_end.
  destruct (wrap_recover cfg e res) as [[jobErr t1] out].
  destruct (wrap_stats cfg startTime jobErr e w) as [e' t2]. reflexivity.
Qed.

Lemma wrap_end_calls cfg startTime res e w :
  calls (wrap_end cfg startTime res e w).1.2 = [].
Proof.
  unfold wrap_end, wrap_recover, wrap_stats.
  destruct res as [err|r]; [|destruct (Recovery (Middleware cfg))];
    destruct (Logging (Middleware cfg)); simpl;
    try destruct (is_nil err); reflexivity.
Qed.

(** A panic comes out of the retry loop from the invocation that raised
    it: that invocation is the last one. *)
Lemma panic_ends_loop r fn cb p :
  forall fuel attempt lastErr w w' t,
    ExecuteWithCallback_loop fuel r fn cb attempt lastErr w = Some (Panicking p, w', t) ->
    exists errs, calls t = map failed errs ++ [Panicking p].
Proof.
  induction fuel as [|fuel IH]; intros attempt lastErr w w' t Hrun; [discriminate|].
  simpl in Hrun.
  destruct (attempt <=? MaxRetries (options r)); [|discriminate].
  destruct (before_attempt r cb attempt lastErr w) as (w1 & t1 & Hpre & Hc1 & _).
  rewrite (bind_val _ _ _ _ _ _ Hpre) in Hrun.
  unfold bind at 1, invoke at 1 in Hrun.
  destruct (fn w1) as [[[e|]|q] w2] eqn:Hfn; simpl in Hrun.
  - destruct (ExecuteWithCallback_loop fuel r fn cb (incr attempt) (Some e) w2)
      as [[[res w3] t3]|] eqn:Hrest; [|discriminate].
    injection Hrun as -> -> <-.
    destruct (IH _ _ _ _ _ Hrest) as (errs & Hcalls).
    exists (e :: errs). rewrite calls_app, Hc1. simpl. now rewrite Hcalls.
  - discriminate.
  - injection Hrun as -> -> <-. exists [].
    rewrite calls_app, Hc1. reflexivity.
Qed.

Lemma panic_ends_run fuel r fn cb p w w' t :
  ExecuteWithCallback fuel r fn cb w = Some (Panicking p, w', t) ->
  exists errs, calls t = map failed errs ++ [Panicking p].
Proof.
  unfold ExecuteWithCallback. destruct (_ || _).
  - unfold invoke. destruct (fn w) as [res w1]. intros [= -> -> <-].
    exists []. reflexivity.
  - apply panic_ends_loop.
Qed.

(** The skip: nothing but the debug record. *)
Lemma wrapJob_skipped fuel cfg e w :
  SkipIfStillRunning cfg = true ->
  running e = true ->
  wrapJob fuel cfg e w = Some (Val tt, e, w, [EvLog (skip_record e)]).
Proof.
  intros Hskip Hrun. unfold wrapJob, skipped. now rewrite Hskip, Hrun.
Qed.

End WrapperFacts.

(** C4.  When [SkipIfStillRunning] is enabled and the entry's [running] flag
    is set, the wrapper returns at once: the entry (so [runCount],
    [failCount], [lastRun] and [running]) and the world are as before, and
    the trace holds the debug record and no invocation of the job. *)
Theorem skip_leaves_entry_untouched (R : Runtime) (fuel : nat) (cfg : Config)
    (e : jobEntry) (w : W) :
  SkipIfStillRunning cfg = true ->
  running e = true ->
  wrapJob fuel cfg e w = Some (Val tt, e, w, [EvLog (skip_record e)])
  /\ calls [EvLog (skip_record e)] = [].
Proof.
  intros Hskip Hrun. split; [now apply wrapJob_skipped | reflexivity].
Qed.

Lemma skip_leaves_entry_untouched_witness :
  let e := set_running true (Sample.entry_of Sample.always_fails Sample.fixed3) in
  (SkipIfStillRunning DefaultConfig = true /\ running e = true)
  /\ wrapJob 0 DefaultConfig e 7%nat = Some (Val tt, e, 7%nat, [EvLog (skip_record e)])
  /\ calls [EvLog (skip_record e)] = [].
Proof.
  cbv zeta. split; [split; reflexivity|].
  exact (skip_leaves_entry_untouched Sample.counting 0 DefaultConfig
           (set_running true (Sample.entry_of Sample.always_fails Sample.fixed3)) 7%nat
           eq_refl eq_refl).
Defined.

(** C5, as stated, fails: a panic is not treated as a returned error where
    retrying is concerned.  With three retries, a job that panics on its
    first call is called once and the execution is counted as failed; the
    same job returning that error instead of panicking is called again,
    succeeds, and the execution is not counted as failed. *)
Lemma panic_is_not_retried :
  let cfg := Sample.quiet true in
  let panicking := Sample.entry_of Sample.panics_once Sample.fixed3 in
  let returning := Sample.entry_of (as_returned_error Sample.panics_once) Sample.fixed3 in
  exists e1 w1 t1 e2 w2 t2,
    wrapJob 5 cfg panicking 0%nat = Some (Val tt, e1, w1, t1)
    /\ wrapJob 5 cfg returning 0%nat = Some (Val tt, e2, w2, t2)
    /\ calls t1 = [Panicking "test panic"]
    /\ calls t2 = [failed "job panicked: test panic"; Val None]
    /\ failCount e1 = 1
    /\ failCount e2 = 0.
Proof.
  cbv zeta. eexists _, _, _, _, _, _.
  split; [vm_compute; reflexivity|]. split; [vm_compute; reflexivity|].
  repeat split.
Qed.

(** C5, amended.  With panic recovery enabled, a panic of the job function
    in an execution that is not skipped is intercepted and turned into the
    error ["job panicked: " ++ payload]; the wrapper returns normally, with
    [runCount] and [failCount] each incremented by 1 and the [running] flag
    cleared.  The panicking invocation is the last of the execution: the
    retry executor does not retry after a panic. *)
Theorem panic_is_recorded_failure (R : Runtime) (fuel : nat) (cfg : Config)
    (e : jobEntry) (w w' : W) (payload : string) (t : list event) :
  Recovery (Middleware cfg) = true ->
  skipped cfg e = false ->
  wrap_exec fuel e w = Some (Panicking payload, w', t) ->
  (wrap_recover cfg e (Panicking payload)).1.1 = Some ("job panicked: " +:+ payload)%string
  /\ exists e' t',
       wrapJob fuel cfg e w = Some (Val tt, e', w', t')
       /\ runCount e' = incr (runCount e)
       /\ failCount e' = incr (failCount e)
       /\ (min_int <= runCount e < max_int -> runCount e' = runCount e + 1)
       /\ (min_int <= failCount e < max_int -> failCount e' = failCount e + 1)
       /\ running e' = false
       /\ exists errs, calls t' = map failed errs ++ [Panicking payload].
Proof.
  intros Hrec Hskip Hexec.
  split; [unfold wrap_recover; now rewrite Hrec|].
  destruct (panic_ends_run _ _ _ _ _ _ _ _ Hexec) as (errs & Hcalls).
  unfold wrapJob. rewrite Hskip.
  destruct (wrap_begin cfg e w) as [[e1 t0] startTime] eqn:Hbegin.
  assert (He1 : wrap_exec fuel e1 = wrap_exec fuel e).
  { change e1 with (e1, t0, startTime).1.1. rewrite <- Hbegin. apply wrap_exec_begin. }
  assert (Hcount : runCount e1 = runCount e /\ failCount e1 = failCount e).
  { unfold wrap_begin in Hbegin. injection Hbegin as <- _ _. auto. }
  assert (Ht0 : calls t0 = []).
  { unfold wrap_begin in Hbegin. injection Hbegin as _ <- _.
    destruct (Logging (Middleware cfg)); reflexivity. }
  destruct Hcount as [Hrc Hfc].
  rewrite He1, Hexec.
  unfold wrap_end, wrap_recover, wrap_stats. rewrite Hrec. simpl.
  eexists _, _. split; [reflexivity|]. simpl. rewrite Hrc, Hfc.
  repeat split; try (intros; apply incr_small; assumption).
  exists errs. rewrite !calls_app, Ht0, Hcalls. simpl.
  destruct (Logging (Middleware cfg)); simpl; now rewrite app_nil_r.
Qed.

Lemma panic_is_recorded_failure_witness :
  let cfg := Sample.quiet true in
  let e := Sample.entry_of Sample.panics_once Sample.fixed3 in
  (Recovery (Middleware cfg) = true
   /\ skipped cfg e = false
   /\ wrap_exec 5 e 0%nat = Some (Panicking "test panic", 1%nat, [EvCall (Panicking "test panic")]))
  /\ (wrap_recover cfg e (Panicking "test panic")).1.1 = Some "job panicked: test panic"
  /\ exists e' t',
       wrapJob 5 cfg e 0%nat = Some (Val tt, e', 1%nat, t')
       /\ runCount e' = incr (runCount e)
       /\ failCount e' = incr (failCount e)
       /\ (min_int <= runCount e < max_int -> runCount e' = runCount e + 1)
       /\ (min_int <= failCount e < max_int -> failCount e' = failCount e + 1)
       /\ running e' = false
       /\ exists errs, calls t' = map failed errs ++ [Panicking "test panic"].
Proof.
  cbv zeta.
  assert (Hexec : wrap_exec 5 (Sample.entry_of Sample.panics_once Sample.fixed3) 0%nat
                  = Some (Panicking "test panic", 1%nat, [EvCall (Panicking "test panic")])).
  { vm_compute. reflexivity. }
  split; [split; [reflexivity | split; [reflexivity | exact Hexec]]|].
  exact (panic_is_recorded_failure Sample.counting 5 (Sample.quiet true)
           (Sample.entry_of Sample.panics_once Sample.fixed3) 0%nat 1%nat
           "test panic" [EvCall (Panicking "test panic")] eq_refl eq_refl Hexec).
Defined.

(** ** The run-now path *)

(** C6, as stated, fails where the skip policy is switched off: with
    [SkipIfStillRunning] disabled, [RunNow] on a registered job whose
    [running] flag is set returns [nil], and the firing is not dropped: when
    the pool runs the task the job is invoked and the run is counted. *)
Lemma run_now_not_dropped_without_skip :
  let heap : gmap loc jobEntry := {[ 0%nat := Demo.busy ]} in
  SkipIfStillRunning (config Demo.no_skip) = false
  /\ jobs Demo.no_skip !! 1 = Some 0%nat
  /\ running Demo.busy = true
  /\ (RunNow Demo.no_skip 1).1 = None
  /\ pool (RunNow Demo.no_skip 1).2 = [0%nat]
  /\ exists e' t,
       run_task 0 (config Demo.no_skip) 0%nat heap 0%nat
       = Some (Val tt, <[0%nat := e']> heap, 1%nat, t)
       /\ calls t = [Val None]
       /\ runCount e' = runCount Demo.busy + 1.
Proof.
  cbv zeta. split; [reflexivity|]. split; [reflexivity|]. split; [reflexivity|].
  split; [reflexivity|]. split; [reflexivity|].
  eexists _, _. split; [vm_compute; reflexivity|]. split; reflexivity.
Qed.

(** C6, amended.  [RunNow id] returns an error, "job <id> not found", exactly when
    [id] is not in the registry, and then changes nothing.  For a registered
    id it returns [nil] and hands the wrapper of that entry to the pool,
    whatever the entry's [running] flag says; when the pool runs that task
    while the flag is set and [SkipIfStillRunning] is enabled, the run is
    dropped: entry and world stay as they are, the job is not invoked, and
    nothing is reported beyond the debug record. *)
Theorem run_now_error_iff_unknown (R : Runtime) (s : Scheduler) (id : JobID) :
  ((RunNow s id).1 <> None <-> jobs s !! id = None)
  /\ (jobs s !! id = None ->
      RunNow s id = (Some ("job " +:+ pretty id +:+ " not found"), s))
  /\ (forall entry,
      jobs s !! id = Some entry ->
      RunNow s id
      = (None, {| cron := cron s; config := config s; pool := pool s ++ [entry];
                  jobs := jobs s; sched_running := sched_running s |})
      /\ forall fuel (heap : gmap loc jobEntry) (e : jobEntry) (w : W),
           SkipIfStillRunning (config s) = true ->
           heap !! entry = Some e ->
           running e = true ->
           run_task fuel (config s) entry heap w
           = Some (Val tt, heap, w, [EvLog (skip_record e)])).
Proof.
  unfold RunNow. destruct (jobs s !! id) as [entry|] eqn:Hjob.
  - split; [split; [intros Hne; now destruct Hne | discriminate]|].
    split; [discriminate|].
    intros entry' [= <-]. split; [reflexivity|].
    intros fuel heap e w Hskip Hheap Hrun.
    unfold run_task. rewrite Hheap.
    rewrite (wrapJob_skipped fuel (config s) e w Hskip Hrun).
    rewrite insert_id by assumption. reflexivity.
  - split; [split; [reflexivity | discriminate]|].
    split; [reflexivity | discriminate].
Qed.

Lemma run_now_error_iff_unknown_witness :
  let e := set_running true (Sample.entry_of Sample.always_fails Sample.fixed3) in
  let heap : gmap loc jobEntry := {[ 0%nat := e ]} in
  (jobs Sample.one_job !! 1 = Some 0%nat
   /\ SkipIfStillRunning (config Sample.one_job) = true
   /\ heap !! 0%nat = Some e
   /\ running e = true)
  /\ (RunNow Sample.one_job 1).1 = None
  /\ pool (RunNow Sample.one_job 1).2 = [0%nat]
  /\ run_task 5 (config Sample.one_job) 0%nat heap 3%nat
     = Some (Val tt, heap, 3%nat, [EvLog (skip_record e)])
  /\ RunNow Sample.one_job 2 = (Some "job 2 not found", Sample.one_job).
Proof.
  cbv zeta.
  pose proof (run_now_error_iff_unknown Sample.counting Sample.one_job 1) as (_ & _ & Hreg).
  pose proof (run_now_error_iff_unknown Sample.counting Sample.one_job 2) as (_ & Hunk & _).
  destruct (Hreg 0%nat eq_refl) as [Hret Hdrop].
  split; [repeat split|].
  split; [now rewrite Hret|]. split; [now rewrite Hret|].
  split; [apply Hdrop; reflexivity | apply Hunk; reflexivity].
Defined.

(** C9, as stated, fails: after [Stop], [RunNow] on a registered id returns
    [nil] and the task is in the pool. *)
Lemma run_now_after_stop_succeeds :
  let s := (Stop Sample.one_job).1 in
  IsRunning Sample.one_job = true
  /\ IsRunning s = false
  /\ jobs s !! 1 = Some 0%nat
  /\ (RunNow s 1).1 = None
  /\ pool (RunNow s 1).2 = [0%nat].
Proof. cbv zeta. repeat split. Qed.

(** C9, amended.  [RunNow] does not consult the lifecycle state: for a
    registered id, a call made after [Stop] (the scheduler not running)
    returns [nil] and hands the wrapped job to the pool, as it does while
    the scheduler runs. *)
Theorem run_now_ignores_lifecycle (s : Scheduler) (id : JobID) (entry : loc) :
  jobs s !! id = Some entry ->
  IsRunning (Stop s).1 = false
  /\ RunNow (Stop s).1 id
     = (None, {| cron := cron (Stop s).1; config := config s; pool := pool s ++ [entry];
                 jobs := jobs s; sched_running := false |})
  /\ (RunNow s id).1 = None.
Proof.
  intros Hjob. unfold IsRunning, Stop, RunNow.
  destruct (sched_running s) eqn:Hrun; simpl; rewrite Hjob; simpl; rewrite ?Hrun; auto.
Qed.

Lemma run_now_ignores_lifecycle_witness :
  jobs Sample.one_job !! 1 = Some 0%nat
  /\ IsRunning (Stop Sample.one_job).1 = false
  /\ RunNow (Stop Sample.one_job).1 1
     = (None, {| cron := cron (Stop Sample.one_job).1; config := config Sample.one_job;
                 pool := pool Sample.one_job ++ [0%nat];
                 jobs := jobs Sample.one_job; sched_running := false |})
  /\ (RunNow Sample.one_job 1).1 = None.
Proof.
  split; [reflexivity|].
  exact (run_now_ignores_lifecycle Sample.one_job 1 0%nat eq_refl).
Defined.

(** ** Overlapping firings *)

Section FiringFacts.
Context `{Runtime}.

Lemma flying_cons p l :
  flying (p :: l) = (Nat.b2n (is_in_flight p) + flying l)%nat.
Proof.
  unfold flying. rewrite filter_cons.
  destruct (decide (is_in_flight p = true)) as [Hp|Hp].
  - rewrite Hp. reflexivity.
  - apply not_true_is_false in Hp. rewrite Hp. reflexivity.
Qed.

(** A firing whose skip test finds the flag set is dropped. *)
Lemma step_check_skipped fuel cfg i σ :
  escaped σ = None ->
  threads σ !! i = Some AtCheck ->
  skipped cfg (shared σ) = true ->
  step fuel cfg i σ
  = Some {| shared := shared σ; fworld := fworld σ;
            ftrace := ftrace σ ++ [EvLog (skip_record (shared σ))];
            threads := <[i := Finished]> (threads σ); escaped := None |}.
Proof. intros He Hi Hs. unfold step. now rewrite He, Hi, Hs. Qed.

Lemma step_finished fuel cfg i σ :
  threads σ !! i = Some Finished -> step fuel cfg i σ = Some σ.
Proof. intros Hi. unfold step. rewrite Hi. now destruct (escaped σ). Qed.

(** One firing, run on its own, is the wrapper. *)
Lemma single_firing_is_wrapJob fuel cfg e w :
  run fuel cfg [0; 0; 0]%nat (fire 1 e w)
  = match wrapJob fuel cfg e w with
    | None => None
    | Some (out, e', w', t) =>
        Some {| shared := e'; fworld := w'; ftrace := t; threads := [Finished];
                escaped := match out with Val _ => None | Panicking r => Some r end |}
    end.
Proof.
  unfold wrapJob, run, fire, step. simpl.
  destruct (skipped cfg e) eqn:Hs; simpl; [reflexivity|].
  change (wrap_exec fuel (set_lastRun (time_Now w) (set_running true e)))
    with (wrap_exec fuel e).
  destruct (wrap_exec fuel e w) as [[[res w1] t1]|]; [|reflexivity].
  destruct (wrap_end cfg (time_Now w) res _ w1) as [[e' t2] out].
  destruct out; reflexivity.
Qed.

End FiringFacts.

(** With [SkipIfStillRunning] disabled nothing is skipped: a second firing
    that starts after the first has set the flag passes the test, and both
    executions are in flight.  That is what the option is for. *)
Lemma overlapping_firings_without_skip :
  exists σ,
    run 0 (Sample.quiet false) [0; 0; 1; 1]%nat
      (fire 2 (Sample.entry_of Sample.always_fails Sample.fixed3) 0%nat) = Some σ
    /\ threads σ = [InFlight 0; InFlight 0]
    /\ in_flight σ = 2%nat.
Proof. eexists. split; [vm_compute; reflexivity|]. split; reflexivity. Qed.

(** C7.  The code at the failing input: the default configuration
    ([SkipIfStillRunning] enabled), one job whose flag is clear, and two
    firings of it.  [entry.IsRunning()] and [entry.running.Store(true)] are
    two operations; when the skip test of the second firing comes before the
    store of the first, both pass it: both executions are in flight at once,
    and when they have run to the end the job has been invoked by both, two
    runs are counted and nothing was dropped. *)
Theorem skip_enabled_firings_overlap :
  let e := Sample.entry_of (Sample.flaky 0) Sample.none5 in
  SkipIfStillRunning DefaultConfig = true
  /\ running e = false
  /\ exists σ1 σ2,
       run 0 DefaultConfig [0; 1; 0; 1]%nat (fire 2 e 0%nat) = Some σ1
       /\ threads σ1 = [InFlight 0; InFlight 0]
       /\ in_flight σ1 = 2%nat
       /\ run 0 DefaultConfig [0; 1]%nat σ1 = Some σ2
       /\ threads σ2 = [Finished; Finished]
       /\ calls (ftrace σ2) = [Val None; Val None]
       /\ runCount (shared σ2) = 2
       /\ Forall (fun ev => ev <> EvLog (skip_record e)) (ftrace σ2).
Proof.
  cbv zeta. split; [reflexivity|]. split; [reflexivity|].
  eexists _, _. split; [vm_compute; reflexivity|].
  split; [reflexivity|]. split; [reflexivity|].
  split; [vm_compute; reflexivity|].
  split; [reflexivity|]. split; [reflexivity|]. split; [reflexivity|].
  repeat constructor; discriminate.
Qed.


(** * More properties *)

(** ** The retry executor: what a run looks like *)

Section ScheduleFacts.
Context `{Runtime}.

Lemma sleeps_app t1 t2 : sleeps (t1 ++ t2) = sleeps t1 ++ sleeps t2.
Proof.
  induction t1 as [|ev t1 IH]; [reflexivity|].
  destruct ev; simpl; now rewrite IH.
Qed.

Lemma retries_app t1 t2 : retries (t1 ++ t2) = retries t1 ++ retries t2.
Proof.
  induction t1 as [|ev t1 IH]; [reflexivity|].
  destruct ev; simpl; now rewrite IH.
Qed.

Lemma sleeps_logs ls : sleeps (map EvLog ls) = [].
Proof. induction ls; simpl; auto. Qed.

Lemma retries_logs ls : retries (map EvLog ls) = [].
Proof. induction ls; simpl; auto. Qed.

(** Before a retry: one call of [onRetry] if there is one, one sleep if the
    delay is positive, no invocation. *)
Lemma before_retry (r : RetryExecutor) (cb : option callback) attempt lastErr w :
  0 < attempt ->
  exists w1 t1,
    (if 0 <? attempt then
       let backoffDuration := Next (backoff r) attempt in
       (match cb with
        | Some f => call_onRetry f attempt lastErr backoffDuration
        | None => ret tt
        end ;~
        if 0 <? backoffDuration then Sleep backoffDuration else ret tt)
     else ret tt) w = Some (Val tt, w1, t1)
    /\ calls t1 = []
    /\ sleeps t1 = (if 0 <? Next (backoff r) attempt then [Next (backoff r) attempt] else [])
    /\ retries t1 = match cb with
                    | Some _ => [(attempt, lastErr, Next (backoff r) attempt)]
                    | None => []
                    end.
Proof.
  intros Hpos. apply Z.ltb_lt in Hpos. rewrite Hpos. cbv zeta.
  set (d := Next (backoff r) attempt).
  destruct cb as [f|].
  - unfold bind, call_onRetry. destruct (f attempt lastErr d w) as [w1 ls].
    destruct (0 <? d); unfold Sleep, ret; eexists _, _; (split; [reflexivity|]); simpl;
      rewrite ?calls_app, ?sleeps_app, ?retries_app, ?calls_logs, ?sleeps_logs, ?retries_logs;
      auto.
  - rewrite bind_ret_l.
    destruct (0 <? d); unfold Sleep, ret; eexists _, _; (split; [reflexivity|]); auto.
Qed.

(** The loop entered at a retry, after the error [e0]. *)
Lemma retry_schedule_loop r fn cb :
  MaxRetries (options r) < max_int ->
  forall fuel attempt e0 w res w' t,
    0 < attempt ->
    ExecuteWithCallback_loop fuel r fn cb attempt (Some e0) w = Some (res, w', t) ->
    (MaxRetries (options r) < attempt /\ res = failed e0 /\ t = [])
    \/ exists errs,
         calls t = map failed errs ++ [res]
         /\ sleeps t = sleeps_from (backoff r) attempt (e0 :: errs)
         /\ retries t = match cb with
                        | Some _ => retries_from (backoff r) attempt (e0 :: errs)
                        | None => []
                        end.
Proof.
  intros Hmax. induction fuel as [|fuel IH]; intros attempt e0 w res w' t Hpos Hrun;
    [discriminate|].
  simpl in Hrun.
  destruct (attempt <=? MaxRetries (options r)) eqn:Hle.
  2:{ injection Hrun as <- <- <-. left. repeat split. lia. }
  right.
  destruct (before_retry r cb attempt (Some e0) w Hpos) as (w1 & t1 & Hpre & Hc1 & Hs1 & Hr1).
  rewrite (bind_val _ _ _ _ _ _ Hpre) in Hrun.
  unfold bind at 1, invoke at 1 in Hrun.
  destruct (fn w1) as [[[e1|]|p] w2] eqn:Hfn; simpl in Hrun.
  - rewrite incr_small in Hrun by (unfold min_int; lia).
    destruct (ExecuteWithCallback_loop fuel r fn cb (attempt + 1) (Some e1) w2)
      as [[[res1 w3] t3]|] eqn:Hrest; [|discriminate].
    injection Hrun as <- <- <-.
    assert (Hnext : 0 < attempt + 1) by lia.
    destruct (IH _ _ _ _ _ _ Hnext Hrest)
      as [(_ & -> & ->) | (errs & Hcalls & Hsleeps & Hretries)].
    + exists []. rewrite calls_app, sleeps_app, retries_app, Hc1, Hs1, Hr1. simpl.
      rewrite !app_nil_r. destruct cb; auto.
    + exists (e1 :: errs).
      rewrite calls_app, sleeps_app, retries_app, Hc1, Hs1, Hr1. simpl.
      rewrite Hcalls, Hsleeps, Hretries. destruct cb; auto.
  - injection Hrun as <- <- <-. exists [].
    rewrite calls_app, sleeps_app, retries_app, Hc1, Hs1, Hr1. simpl.
    rewrite !app_nil_r. destruct cb; auto.
  - injection Hrun as <- <- <-. exists [].
    rewrite calls_app, sleeps_app, retries_app, Hc1, Hs1, Hr1. simpl.
    rewrite !app_nil_r. destruct cb; auto.
Qed.

Lemma retry_schedule (opts : JobOptions) fn cb fuel w res w' t :
  0 < MaxRetries opts < max_int ->
  BackoffStrategy opts <> BackoffNone ->
  ExecuteWithCallback fuel (NewRetryExecutor opts) fn cb w = Some (res, w', t) ->
  exists errs,
    calls t = map failed errs ++ [res]
    /\ sleeps t = sleeps_from (NewBackoff opts) 1 errs
    /\ retries t = match cb with
                   | Some _ => retries_from (NewBackoff opts) 1 errs
                   | None => []
                   end.
Proof.
  intros [Hpos Hmax] Hstrat. unfold ExecuteWithCallback. simpl.
  destruct (MaxRetries opts <=? 0) eqn:H0; [lia|].
  destruct (String.eqb (BackoffStrategy opts) BackoffNone) eqn:Hs.
  { apply String.eqb_eq in Hs. contradiction. }
  simpl. destruct fuel as [|fuel]; [discriminate|]. simpl.
  destruct (0 <=? MaxRetries opts) eqn:Hle; [|lia].
  rewrite bind_ret_l. unfold bind at 1, invoke at 1.
  destruct (fn w) as [[[e0|]|p] w1] eqn:Hfn; simpl.
  - change (incr 0) with 1.
    destruct (ExecuteWithCallback_loop fuel (NewRetryExecutor opts) fn cb 1 (Some e0) w1)
      as [[[res1 w2] t2]|] eqn:Hrest; [|discriminate].
    intros [= <- <- <-].
    destruct (retry_schedule_loop (NewRetryExecutor opts) fn cb Hmax _ _ _ _ _ _ _
                Z.lt_0_1 Hrest)
      as [(Hover & _) | (errs & Hcalls & Hsleeps & Hretries)]; [simpl in Hover; lia|].
    exists (e0 :: errs). simpl in *. rewrite Hcalls. auto.
  - intros [= <- <- <-]. exists []. destruct cb; auto.
  - intros [= <- <- <-]. exists []. destruct cb; auto.
Qed.

End ScheduleFacts.

Section ShapeFacts.
Context `{Runtime}.

(** Whatever the bounds, a run of the loop that returns made no invocation
    at all or ends with the invocation that decided its result. *)
Lemma loop_calls_shape r fn cb :
  forall fuel attempt lastErr w res w' t,
    ExecuteWithCallback_loop fuel r fn cb attempt lastErr w = Some (res, w', t) ->
    (MaxRetries (options r) < attempt /\ res = Val lastErr /\ t = [])
    \/ exists errs, calls t = map failed errs ++ [res].
Proof.
  induction fuel as [|fuel IH]; intros attempt lastErr w res w' t Hrun; [discriminate|].
  simpl in Hrun.
  destruct (attempt <=? MaxRetries (options r)) eqn:Hle.
  2:{ injection Hrun as <- <- <-. left. repeat split. lia. }
  right.
  destruct (before_attempt r cb attempt lastErr w) as (w1 & t1 & Hpre & Hc1 & _).
  rewrite (bind_val _ _ _ _ _ _ Hpre) in Hrun.
  unfold bind at 1, invoke at 1 in Hrun.
  destruct (fn w1) as [[[e1|]|p] w2] eqn:Hfn; simpl in Hrun.
  - destruct (ExecuteWithCallback_loop fuel r fn cb (incr attempt) (Some e1) w2)
      as [[[res1 w3] t3]|] eqn:Hrest; [|discriminate].
    injection Hrun as <- <- <-.
    destruct (IH _ _ _ _ _ _ Hrest) as [(_ & -> & ->) | (errs & Hcalls)].
    + exists []. rewrite calls_app, Hc1. reflexivity.
    + exists (e1 :: errs). rewrite calls_app, Hc1. simpl. now rewrite Hcalls.
  - injection Hrun as <- <- <-. exists []. rewrite calls_app, Hc1. reflexivity.
  - injection Hrun as <- <- <-. exists []. rewrite calls_app, Hc1. reflexivity.
Qed.

Lemma run_calls_shape fuel r fn cb w res w' t :
  ExecuteWithCallback fuel r fn cb w = Some (res, w', t) ->
  exists errs, calls t = map failed errs ++ [res].
Proof.
  unfold ExecuteWithCallback.
  destruct (MaxRetries (options r) <=? 0) eqn:H0; simpl.
  { unfold invoke. destruct (fn w) as [res0 w0]. intros [= <- <- <-]. now exists []. }
  destruct (String.eqb _ _).
  { unfold invoke. destruct (fn w) as [res0 w0]. intros [= <- <- <-]. now exists []. }
  intros Hrun. destruct (loop_calls_shape _ _ _ _ _ _ _ _ _ _ Hrun) as [[Hover _] | Hshape];
    [lia | exact Hshape].
Qed.

Lemma first_success fuel r fn cb w :
  (fn w).1 = Val None ->
  (1 <= fuel)%nat ->
  ExecuteWithCallback fuel r fn cb w = Some (Val None, (fn w).2, [EvCall (Val None)]).
Proof.
  intros Hok Hfuel. unfold ExecuteWithCallback.
  destruct (MaxRetries (options r) <=? 0) eqn:H0; simpl.
  { unfold invoke. destruct (fn w) as [res0 w0]. simpl in *. now subst. }
  destruct (String.eqb _ _).
  { unfold invoke. destruct (fn w) as [res0 w0]. simpl in *. now subst. }
  destruct fuel as [|fuel]; [lia|]. simpl.
  destruct (0 <=? MaxRetries (options r)) eqn:Hle; [|lia].
  rewrite bind_ret_l. unfold bind, invoke.
  destruct (fn w) as [res0 w0]. simpl in *. now subst.
Qed.

End ShapeFacts.

(** X1.  When a run of the executor with retries returns, the errors that
    came before the deciding invocation were each followed by one retry:
    retry [k] (counted from 1) was preceded by one call of [onRetry], when
    there is one, with [k], the error just seen and the delay [Next k], and
    by one sleep of [Next k] when that is positive; nothing else sleeps or
    calls [onRetry]. *)
Theorem retries_follow_the_policy (R : Runtime) (opts : JobOptions) (fn : operation)
    (cb : option callback) (fuel : nat) (w w' : W) (res : result goerror)
    (t : list event) :
  0 < MaxRetries opts < max_int ->
  BackoffStrategy opts <> BackoffNone ->
  ExecuteWithCallback fuel (NewRetryExecutor opts) fn cb w = Some (res, w', t) ->
  exists errs,
    calls t = map failed errs ++ [res]
    /\ sleeps t = sleeps_from (NewBackoff opts) 1 errs
    /\ retries t = match cb with
                   | Some _ => retries_from (NewBackoff opts) 1 errs
                   | None => []
                   end.
Proof. apply retry_schedule. Qed.

Lemma retries_follow_the_policy_witness :
  (0 < MaxRetries Sample.fixed3 < max_int /\ BackoffStrategy Sample.fixed3 <> BackoffNone)
  /\ exists t,
       ExecuteWithCallback 5 (NewRetryExecutor Sample.fixed3) (Sample.flaky 2)
         (Some (retry_logger (Sample.entry_of (Sample.flaky 2) Sample.fixed3))) 0%nat
       = Some (Val None, 3%nat, t)
       /\ sleeps t = [10 * Millisecond; 10 * Millisecond]
       /\ retries t
          = [(1, Some "boom", 10 * Millisecond); (2, Some "boom", 10 * Millisecond)].
Proof.
  assert (Hh : 0 < MaxRetries Sample.fixed3 < max_int
               /\ BackoffStrategy Sample.fixed3 <> BackoffNone).
  { split; [vm_compute; split; reflexivity | discriminate]. }
  split; [exact Hh|]. destruct Hh as [Hmax Hstrat].
  destruct (ExecuteWithCallback 5 (NewRetryExecutor Sample.fixed3) (Sample.flaky 2)
              (Some (retry_logger (Sample.entry_of (Sample.flaky 2) Sample.fixed3))) 0%nat)
    as [[[res w'] t]|] eqn:Hrun; [|vm_compute in Hrun; discriminate].
  assert (Hres : res = Val None /\ w' = 3%nat
                 /\ calls t = [failed "boom"; failed "boom"; Val None]).
  { vm_compute in Hrun. injection Hrun as <- <- <-. repeat split. }
  destruct Hres as (-> & -> & Hcalls).
  exists t. split; [reflexivity|].
  destruct (retries_follow_the_policy Sample.counting Sample.fixed3 (Sample.flaky 2) _ 5
              0%nat 3%nat (Val None) t Hmax Hstrat Hrun)
    as (errs & Hshape & Hsleeps & Hretries).
  rewrite Hcalls in Hshape.
  assert (Herrs : errs = ["boom"; "boom"]%string).
  { destruct errs as [|e1 [|e2 [|e3 errs]]]; simpl in Hshape; try discriminate.
    now injection Hshape as -> ->. }
  subst errs. split; [exact Hsleeps | exact Hretries].
Defined.



Lemma sleeps_from_fixed (i from : Z) (errs : list string) :
  sleeps_from (fixedBackoff i) from errs
  = if 0 <? i then replicate (length errs) i else [].
Proof.
  revert from. induction errs as [|e errs IH]; intros from.
  - simpl. now destruct (0 <? i).
  - cbn [sleeps_from length replicate Next]. rewrite IH. now destruct (0 <? i).
Qed.

(** X3.  With the strategy "fixed", a run that returns slept
    [InitialBackoff] once before each retry, that is once less than it
    invoked the operation, and not at all when [InitialBackoff] is not
    positive. *)
Theorem fixed_backoff_waits (R : Runtime) (opts : JobOptions) (fn : operation)
    (cb : option callback) (fuel : nat) (w w' : W) (res : result goerror)
    (t : list event) :
  0 < MaxRetries opts < max_int ->
  BackoffStrategy opts = BackoffFixed ->
  ExecuteWithCallback fuel (NewRetryExecutor opts) fn cb w = Some (res, w', t) ->
  sleeps t = if 0 <? InitialBackoff opts
             then replicate (length (calls t) - 1) (InitialBackoff opts)
             else [].
Proof.
  intros Hmax Hfixed Hrun.
  assert (Hnone : BackoffStrategy opts <> BackoffNone) by (rewrite Hfixed; discriminate).
  destruct (retry_schedule opts fn cb fuel w res w' t Hmax Hnone Hrun)
    as (errs & Hcalls & Hsleeps & _).
  assert (Hb : NewBackoff opts = fixedBackoff (InitialBackoff opts)).
  { unfold NewBackoff. now rewrite Hfixed. }
  rewrite Hsleeps, Hcalls, Hb, length_app, length_map.
  replace (length errs + length [res] - 1)%nat with (length errs) by (simpl; lia).
  apply sleeps_from_fixed.
Qed.

Lemma fixed_backoff_waits_witness :
  (0 < MaxRetries Sample.fixed3 < max_int /\ BackoffStrategy Sample.fixed3 = BackoffFixed)
  /\ exists res w' t,
       Execute 5 (NewRetryExecutor Sample.fixed3) Sample.always_fails 0%nat
       = Some (res, w', t)
       /\ length (calls t) = 4%nat
       /\ sleeps t = replicate 3 (10 * Millisecond).
Proof.
  assert (Hh : 0 < MaxRetries Sample.fixed3 < max_int
               /\ BackoffStrategy Sample.fixed3 = BackoffFixed).
  { split; [vm_compute; split; reflexivity | reflexivity]. }
  split; [exact Hh|]. destruct Hh as [Hmax Hfixed].
  destruct (Execute 5 (NewRetryExecutor Sample.fixed3) Sample.always_fails 0%nat)
    as [[[res w'] t]|] eqn:Hrun; [|vm_compute in Hrun; discriminate].
  assert (Hn : length (calls t) = 4%nat).
  { vm_compute in Hrun. injection Hrun as _ _ <-. reflexivity. }
  exists res, w', t. split; [reflexivity|]. split; [exact Hn|].
  rewrite <- callback_nil in Hrun.
  rewrite (fixed_backoff_waits Sample.counting Sample.fixed3 Sample.always_fails None 5
             0%nat w' res t Hmax Hfixed Hrun), Hn.
  reflexivity.
Defined.

(** X4.  Whatever the options and the executor, when [Execute] or
    [ExecuteWithCallback] returns, every invocation of the operation but the
    last returned an error, and the result is what the last invocation did.
    So a [nil] or a panic of the operation is never followed by another
    invocation, and is never turned into something else. *)
Theorem result_is_last_invocation (R : Runtime) (fuel : nat) (r : RetryExecutor)
    (fn : operation) (cb : option callback) (w w' : W) (res : result goerror)
    (t : list event) :
  Execute fuel r fn w = Some (res, w', t)
  \/ ExecuteWithCallback fuel r fn cb w = Some (res, w', t) ->
  exists errs,
    calls t = map failed errs ++ [res]
    /\ forall x, In x (calls t) -> x = res \/ exists e, x = failed e.
Proof.
  intros Hrun.
  assert (Hshape : exists errs, calls t = map failed errs ++ [res]).
  { destruct Hrun as [Hrun | Hrun].
    - rewrite <- callback_nil in Hrun. eapply run_calls_shape; eauto.
    - eapply run_calls_shape; eauto. }
  destruct Hshape as (errs & Hcalls). exists errs. split; [exact Hcalls|].
  intros x Hx. rewrite Hcalls in Hx. apply in_app_or in Hx as [Hx | Hx].
  - right. apply in_map_iff in Hx as (e & <- & _). now exists e.
  - left. destruct Hx as [<- | []]. reflexivity.
Qed.

Lemma result_is_last_invocation_witness :
  exists t,
    Execute 5 (NewRetryExecutor Sample.fixed3) Sample.panics_once 0%nat
    = Some (Panicking "test panic", 1%nat, t)
    /\ exists errs,
         calls t = map failed errs ++ [Panicking "test panic"]
         /\ forall x, In x (calls t) -> x = Panicking "test panic" \/ exists e, x = failed e.
Proof.
  destruct (Execute 5 (NewRetryExecutor Sample.fixed3) Sample.panics_once 0%nat)
    as [[[res w'] t]|] eqn:Hrun; [|vm_compute in Hrun; discriminate].
  assert (Hres : res = Panicking "test panic" /\ w' = 1%nat).
  { vm_compute in Hrun. injection Hrun as <- <- _. split; reflexivity. }
  destruct Hres as [-> ->]. exists t. split; [reflexivity|].
  exact (result_is_last_invocation Sample.counting 5 (NewRetryExecutor Sample.fixed3)
           Sample.panics_once None 0%nat 1%nat (Panicking "test panic") t (or_introl Hrun)).
Defined.

(** X5.  An operation that succeeds at once costs one invocation and
    nothing else, whatever the options say about retries: no sleep, no call
    of [onRetry], and the result is [nil]. *)
Theorem first_success_costs_one_call (R : Runtime) (fuel : nat) (r : RetryExecutor)
    (fn : operation) (cb : option callback) (w : W) :
  (fn w).1 = Val None ->
  (1 <= fuel)%nat ->
  Execute fuel r fn w = Some (Val None, (fn w).2, [EvCall (Val None)])
  /\ ExecuteWithCallback fuel r fn cb w = Some (Val None, (fn w).2, [EvCall (Val None)]).
Proof.
  intros Hok Hfuel. split.
  - rewrite <- callback_nil. now apply first_success.
  - now apply first_success.
Qed.

Lemma first_success_costs_one_call_witness :
  ((Sample.flaky 0 7%nat).1 = Val None /\ (1 <= 1)%nat)
  /\ Execute 1 (NewRetryExecutor DefaultJobOptions) (Sample.flaky 0) 7%nat
     = Some (Val None, 8%nat, [EvCall (Val None)])
  /\ ExecuteWithCallback 1 (NewRetryExecutor DefaultJobOptions) (Sample.flaky 0) None 7%nat
     = Some (Val None, 8%nat, [EvCall (Val None)]).
Proof.
  split; [split; [reflexivity | lia]|].
  exact (first_success_costs_one_call Sample.counting 1 (NewRetryExecutor DefaultJobOptions)
           (Sample.flaky 0) None 7%nat eq_refl (le_n 1)).
Defined.

(** X6.  With [MaxRetries = math.MaxInt] (and a strategy other than "none")
    the loop test [attempt <= MaxRetries] never fails, since [attempt++]
    wraps around: on an operation that keeps returning errors neither
    [Execute] nor [ExecuteWithCallback] ever returns. *)
Theorem max_int_retries_never_give_up (R : Runtime) (opts : JobOptions)
    (fn : operation) (cb : option callback) (w : W) :
  MaxRetries opts = max_int ->
  BackoffStrategy opts <> BackoffNone ->
  (forall w0, exists e, (fn w0).1 = failed e) ->
  forall fuel,
    Execute fuel (NewRetryExecutor opts) fn w = None
    /\ ExecuteWithCallback fuel (NewRetryExecutor opts) fn cb w = None.
Proof.
  intros Hmax Hstrat Hfails fuel.
  assert (Hcb : forall cb', ExecuteWithCallback fuel (NewRetryExecutor opts) fn cb' w = None).
  { intros cb'. unfold ExecuteWithCallback. simpl. rewrite Hmax.
    destruct (String.eqb (BackoffStrategy opts) BackoffNone) eqn:Hs.
    { apply String.eqb_eq in Hs. contradiction. }
    simpl. apply retry_loop_at_max_int; [exact Hmax | exact Hfails |].
    unfold in_int, min_int, max_int. lia. }
  split; [rewrite <- callback_nil|]; apply Hcb.
Qed.

Lemma max_int_retries_never_give_up_witness :
  (MaxRetries Demo.forever = max_int
   /\ BackoffStrategy Demo.forever <> BackoffNone
   /\ forall w0, exists e, (Sample.always_fails w0).1 = failed e)
  /\ Execute 1000 (NewRetryExecutor Demo.forever) Sample.always_fails 0%nat = None.
Proof.
  assert (Hh : MaxRetries Demo.forever = max_int
               /\ BackoffStrategy Demo.forever <> BackoffNone
               /\ forall w0, exists e, (Sample.always_fails w0).1 = failed e).
  { split; [reflexivity|]. split; [discriminate|]. intros w0. now exists "boom"%string. }
  split; [exact Hh|]. destruct Hh as (H1 & H2 & H3).
  exact (proj1 (max_int_retries_never_give_up Sample.counting Demo.forever
                  Sample.always_fails None 0%nat H1 H2 H3 1000%nat)).
Defined.

(** ** The execution wrapper: accounting *)

Section WrapperMore.
Context `{Runtime}.

(** A run that is not skipped, laid out: the prologue, the executor, the
    deferred functions. *)
Lemma wrapJob_run fuel cfg e w :
  skipped cfg e = false ->
  wrapJob fuel cfg e w
  = match wrap_exec fuel e w with
    | None => None
    | Some (res, w', t1) =>
        let r := wrap_end cfg (time_Now w) res (wrap_begin cfg e w).1.1 w' in
        Some (r.2, r.1.1, w', (wrap_begin cfg e w).1.2 ++ t1 ++ r.1.2)
    end.
Proof.
  intros Hskip. unfold wrapJob. rewrite Hskip.
  destruct (wrap_begin cfg e w) as [[e1 t0] startTime] eqn:Hbegin.
  assert (He1 : wrap_exec fuel e1 = wrap_exec fuel e).
  { change e1 with (e1, t0, startTime).1.1. rewrite <- Hbegin. apply wrap_exec_begin. }
  assert (Hst : startTime = time_Now w).
  { unfold wrap_begin in Hbegin. now injection Hbegin as _ _ <-. }
  rewrite He1. destruct (wrap_exec fuel e w) as [[[res w'] t1]|]; [|reflexivity].
  subst startTime. simpl.
  destruct (wrap_end cfg (time_Now w) res e1 w') as [[e2 t2] out]. reflexivity.
Qed.

(** What the deferred functions leave of the entry they are given. *)
Lemma wrap_end_entry cfg startTime res e w :
  let e' := (wrap_end cfg startTime res e w).1.1 in
  (id e', name e', spec e', job e', fn e', entry_options e', lastRun e')
  = (id e, name e, spec e, job e, fn e, entry_options e, lastRun e)
  /\ runCount e' = incr (runCount e)
  /\ failCount e' = (if run_failed cfg res then incr (failCount e) else failCount e)
  /\ (wrap_end cfg startTime res e w).2 = run_exit cfg res.
Proof.
  unfold wrap_end, wrap_recover, wrap_stats, run_failed, run_exit.
  destruct res as [[err|]|r]; [| |destruct (Recovery (Middleware cfg))];
    simpl; repeat split.
Qed.

Lemma wrap_end_quiet cfg startTime res e w :
  sleeps (wrap_end cfg startTime res e w).1.2 = []
  /\ retries (wrap_end cfg startTime res e w).1.2 = [].
Proof.
  unfold wrap_end, wrap_recover, wrap_stats.
  destruct res as [err|r]; [|destruct (Recovery (Middleware cfg))];
    destruct (Logging (Middleware cfg)); simpl;
    try destruct (is_nil err); split; reflexivity.
Qed.

Lemma wrap_begin_quiet cfg e w :
  calls (wrap_begin cfg e w).1.2 = []
  /\ sleeps (wrap_begin cfg e w).1.2 = []
  /\ retries (wrap_begin cfg e w).1.2 = [].
Proof.
  unfold wrap_begin. simpl. destruct (Logging (Middleware cfg)); repeat split.
Qed.

(** With no retries asked for, the executor is one invocation. *)
Lemma no_retry_once (opts : JobOptions) fn cb fuel w :
  MaxRetries opts <= 0 \/ BackoffStrategy opts = BackoffNone ->
  ExecuteWithCallback fuel (NewRetryExecutor opts) fn cb w
  = Some ((fn w).1, (fn w).2, [EvCall (fn w).1]).
Proof.
  intros Hoff.
  assert (Hguard : (MaxRetries opts <=? 0)
                   || String.eqb (BackoffStrategy opts) BackoffNone = true).
  { destruct Hoff as [Hle | ->].
    - apply Z.leb_le in Hle. now rewrite Hle.
    - rewrite String.eqb_refl. apply orb_true_r. }
  unfold ExecuteWithCallback. simpl. rewrite Hguard.
  unfold invoke. destruct (fn w) as [res w']. reflexivity.
Qed.

Lemma apply_options_app opts1 opts2 e :
  apply_options (opts1 ++ opts2) e = apply_options opts2 (apply_options opts1 e).
Proof. unfold apply_options. apply fold_left_app. Qed.

(** A run that is not skipped, from outside. *)
Lemma wrapJob_parts fuel cfg e e' w w' out t :
  skipped cfg e = false ->
  wrapJob fuel cfg e w = Some (out, e', w', t) ->
  exists res t1,
    wrap_exec fuel e w = Some (res, w', t1)
    /\ calls t = calls t1 /\ sleeps t = sleeps t1 /\ retries t = retries t1
    /\ (id e', name e', spec e', job e', fn e', entry_options e')
       = (id e, name e, spec e, job e, fn e, entry_options e)
    /\ running e' = false
    /\ lastRun e' = time_Now w
    /\ runCount e' = incr (runCount e)
    /\ failCount e' = (if run_failed cfg res then incr (failCount e) else failCount e)
    /\ out = run_exit cfg res.
Proof.
  intros Hskip Hrun. rewrite (wrapJob_run fuel cfg e w Hskip) in Hrun.
  destruct (wrap_exec fuel e w) as [[[res w1] t1]|]; [|discriminate].
  cbv zeta in Hrun.
  destruct (wrap_begin_quiet cfg e w) as (Hc0 & Hs0 & Hr0).
  destruct (wrap_end_quiet cfg (time_Now w) res (wrap_begin cfg e w).1.1 w1) as (Hs2 & Hr2).
  pose proof (wrap_end_calls cfg (time_Now w) res (wrap_begin cfg e w).1.1 w1) as Hc2.
  pose proof (wrap_end_running cfg (time_Now w) res (wrap_begin cfg e w).1.1 w1) as Hflag.
  destruct (wrap_end_entry cfg (time_Now w) res (wrap_begin cfg e w).1.1 w1)
    as (Hframe & Hrc & Hfc & Hout).
  assert (Hb : (id (wrap_begin cfg e w).1.1, name (wrap_begin cfg e w).1.1,
                spec (wrap_begin cfg e w).1.1, job (wrap_begin cfg e w).1.1,
                fn (wrap_begin cfg e w).1.1, entry_options (wrap_begin cfg e w).1.1,
                runCount (wrap_begin cfg e w).1.1, failCount (wrap_begin cfg e w).1.1,
                lastRun (wrap_begin cfg e w).1.1)
               = (id e, name e, spec e, job e, fn e, entry_options e,
                  runCount e, failCount e, time_Now w)) by reflexivity.
  remember (wrap_begin cfg e w) as b eqn:Eb.
  remember (wrap_end cfg (time_Now w) res b.1.1 w1) as r eqn:Er.
  clear Eb Er.
  assert (Hparts : out = r.2 /\ e' = r.1.1 /\ w' = w1 /\ t = b.1.2 ++ t1 ++ r.1.2).
  { now injection Hrun as <- <- <- <-. }
  destruct Hparts as (-> & -> & -> & ->).
  injection Hb as Hid Hname Hspec Hjob Hfn Hopts Hrc0 Hfc0 Hlast0.
  injection Hframe as Hid' Hname' Hspec' Hjob' Hfn' Hopts' Hlast'.
  exists res, t1. split; [reflexivity|].
  rewrite !calls_app, !sleeps_app, !retries_app, Hc0, Hs0, Hr0, Hc2, Hs2, Hr2, !app_nil_r.
  split; [reflexivity|]. split; [reflexivity|]. split; [reflexivity|].
  split; [now rewrite Hid', Hname', Hspec', Hjob', Hfn', Hopts',
                      Hid, Hname, Hspec, Hjob, Hfn, Hopts|].
  split; [exact Hflag|]. split; [now rewrite Hlast'|].
  split; [now rewrite Hrc, Hrc0|]. split; [now rewrite Hfc, Hfc0 | exact Hout].
Qed.

End WrapperMore.

(** X7.  One run of the wrapper that is not skipped counts as one run,
    however many times the executor retried the job: [runCount] goes up by
    one, [failCount] by one exactly when the executor's final result is an
    error or a recovered panic, [lastRun] is the time the run began,
    [running] is cleared, and [id], [name], [spec], the job and the options
    are as before.  The wrapper itself neither invokes the job nor sleeps:
    the invocations and sleeps of the run are the executor's, and the run
    ends with a panic only when the job panicked and nothing recovers it. *)
Theorem wrapper_accounting (R : Runtime) (fuel : nat) (cfg : Config)
    (e e' : jobEntry) (w w' : W) (out : result unit) (t : list event) :
  skipped cfg e = false ->
  wrapJob fuel cfg e w = Some (out, e', w', t) ->
  exists res t1,
    wrap_exec fuel e w = Some (res, w', t1)
    /\ calls t = calls t1 /\ sleeps t = sleeps t1 /\ retries t = retries t1
    /\ (id e', name e', spec e', job e', fn e', entry_options e')
       = (id e, name e, spec e, job e, fn e, entry_options e)
    /\ running e' = false
    /\ lastRun e' = time_Now w
    /\ runCount e' = incr (runCount e)
    /\ failCount e' = (if run_failed cfg res then incr (failCount e) else failCount e)
    /\ out = run_exit cfg res.
Proof. apply wrapJob_parts. Qed.

Lemma wrapper_accounting_witness :
  let cfg := Sample.quiet true in
  let e := Sample.entry_of Sample.always_fails Sample.fixed3 in
  exists out e' w' t,
    (skipped cfg e = false /\ wrapJob 5 cfg e 0%nat = Some (out, e', w', t))
    /\ length (calls t) = 4%nat
    /\ runCount e' = 1 /\ failCount e' = 1 /\ running e' = false.
Proof.
  cbv zeta.
  destruct (wrapJob 5 (Sample.quiet true)
              (Sample.entry_of Sample.always_fails Sample.fixed3) 0%nat)
    as [[[[out e'] w'] t]|] eqn:Hrun; [|vm_compute in Hrun; discriminate].
  exists out, e', w', t. split; [split; reflexivity|].
  destruct (wrapper_accounting Sample.counting 5 (Sample.quiet true)
              (Sample.entry_of Sample.always_fails Sample.fixed3) e' 0%nat w' out t
              eq_refl Hrun)
    as (res & t1 & Hexec & Hcalls & _ & _ & _ & Hflag & _ & Hrc & Hfc & _).
  vm_compute in Hexec. injection Hexec as <- _ <-.
  rewrite Hcalls, Hrc, Hfc, Hflag. repeat split.
Defined.

(** X8.  Without the recovery middleware a panic of the job leaves the
    wrapper, after the deferred functions have run on it with [jobErr] still
    [nil]: the run is counted ([runCount] up by one) but not as a failure
    ([failCount] as before), [running] is cleared, and with logging on the
    last record of the run says "job completed". *)
Theorem unrecovered_panic_escapes (R : Runtime) (fuel : nat) (cfg : Config)
    (e : jobEntry) (w w' : W) (payload : string) (t1 : list event) :
  Recovery (Middleware cfg) = false ->
  skipped cfg e = false ->
  wrap_exec fuel e w = Some (Panicking payload, w', t1) ->
  exists e',
    wrapJob fuel cfg e w
    = Some (Panicking payload, e', w',
            (wrap_begin cfg e w).1.2 ++ t1 ++
            (if Logging (Middleware cfg) then
               [EvLog (Log LInfo "job completed"
                         (fields [VString "job_id"; VInt (id e); VString "job_name";
                                  VString (name e); VString "duration";
                                  VDuration (time_Since (time_Now w) w')]))]
             else []))
    /\ runCount e' = incr (runCount e)
    /\ failCount e' = failCount e
    /\ running e' = false.
Proof.
  intros Hrec Hskip Hexec.
  rewrite (wrapJob_run fuel cfg e w Hskip), Hexec. cbv zeta.
  unfold wrap_end, wrap_recover, wrap_stats. rewrite Hrec. simpl.
  eexists. split; [reflexivity|]. repeat split.
Qed.

Lemma unrecovered_panic_escapes_witness :
  let cfg := {| Timezone := "UTC"; WithSeconds := false; JobTimeout := 0;
                SkipIfStillRunning := true;
                Middleware := {| Logging := true; Recovery := false; Metrics := false |};
                cfg_DefaultJobOptions := DefaultJobOptions |} in
  let e := Sample.entry_of Sample.panics_once Sample.fixed3 in
  (Recovery (Middleware cfg) = false /\ skipped cfg e = false
   /\ wrap_exec 5 e 0%nat
      = Some (Panicking "test panic", 1%nat, [EvCall (Panicking "test panic")]))
  /\ exists e' t,
       wrapJob 5 cfg e 0%nat = Some (Panicking "test panic", e', 1%nat, t)
       /\ runCount e' = 1 /\ failCount e' = 0 /\ running e' = false.
Proof.
  cbv zeta.
  assert (Hexec : wrap_exec 5 (Sample.entry_of Sample.panics_once Sample.fixed3) 0%nat
                  = Some (Panicking "test panic", 1%nat, [EvCall (Panicking "test panic")])).
  { vm_compute. reflexivity. }
  split; [split; [reflexivity | split; [reflexivity | exact Hexec]]|].
  destruct (unrecovered_panic_escapes Sample.counting 5
              {| Timezone := "UTC"; WithSeconds := false; JobTimeout := 0;
                 SkipIfStillRunning := true;
                 Middleware := {| Logging := true; Recovery := false; Metrics := false |};
                 cfg_DefaultJobOptions := DefaultJobOptions |}
              (Sample.entry_of Sample.panics_once Sample.fixed3) 0%nat 1%nat
              "test panic" [EvCall (Panicking "test panic")] eq_refl eq_refl Hexec)
    as (e' & Hrun & Hrc & Hfc & Hflag).
  exists e'. eexists. split; [exact Hrun|]. rewrite Hrc, Hfc, Hflag. repeat split.
Defined.

(** X9.  A job registered with [WithNoRetry()] as its last option is invoked
    exactly once per run of the wrapper, whatever the options before it and
    the defaults of the scheduler ask for: no retry, no sleep, no call of
    [onRetry], and the run needs no more than that one invocation to
    return. *)
Theorem no_retry_option_runs_job_once (R : Runtime) (fuel : nat) (cfg : Config)
    (opts : list JobOption) (e0 : jobEntry) (w : W) :
  let e := apply_options (opts ++ [WithNoRetry]) e0 in
  skipped cfg e = false ->
  exists out e' t,
    wrapJob fuel cfg e w = Some (out, e', (job_closure e w).2, t)
    /\ calls t = [(job_closure e w).1]
    /\ sleeps t = [] /\ retries t = []
    /\ runCount e' = incr (runCount e).
Proof.
  intros e Hskip.
  assert (He : e = WithNoRetry (apply_options opts e0)).
  { unfold e. now rewrite apply_options_app. }
  assert (Hexec : wrap_exec fuel e w
                  = Some ((job_closure e w).1, (job_closure e w).2,
                          [EvCall (job_closure e w).1])).
  { unfold wrap_exec. apply no_retry_once. left. rewrite He. simpl. lia. }
  destruct (wrapJob fuel cfg e w) as [[[[out e'] w'] t]|] eqn:Hrun.
  - destruct (wrapJob_parts fuel cfg e e' w w' out t Hskip Hrun)
      as (res & t1 & Hexec' & Hc & Hs & Hr & _ & _ & _ & Hrc & _).
    rewrite Hexec in Hexec'. injection Hexec' as <- <- <-.
    exists out, e', t. split; [reflexivity|]. rewrite Hc, Hs, Hr. repeat split. exact Hrc.
  - rewrite (wrapJob_run fuel cfg e w Hskip), Hexec in Hrun. discriminate.
Qed.

Lemma no_retry_option_runs_job_once_witness :
  let e := apply_options ([WithMaxRetries 5] ++ [WithNoRetry])
             (Sample.entry_of Sample.always_fails Sample.fixed3) in
  skipped DefaultConfig e = false
  /\ exists out e' t,
       wrapJob 0 DefaultConfig e 0%nat = Some (out, e', (job_closure e 0%nat).2, t)
       /\ calls t = [(job_closure e 0%nat).1]
       /\ sleeps t = [] /\ retries t = []
       /\ runCount e' = incr (runCount e).
Proof.
  cbv zeta. split; [reflexivity|].
  exact (no_retry_option_runs_job_once Sample.counting 0 DefaultConfig [WithMaxRetries 5]
           (Sample.entry_of Sample.always_fails Sample.fixed3) 0%nat eq_refl).
Defined.

(** ** The entry's own [Run] *)

(** X10.  [jobEntry.Run] is the wrapper with everything switched off: with
    no skip policy, no recovery, no logging and no retries, a run of the
    wrapper ends as [jobEntry.Run] does, with the same entry and the same
    world, and (when the entry has a job or a function) the same trace.  In
    particular [jobEntry.Run] lets a panic of the job through, counts the
    run, and does not count it as a failure. *)
Theorem entry_run_is_bare_wrapper (R : Runtime) (fuel : nat) (cfg : Config)
    (e : jobEntry) (w : W) :
  SkipIfStillRunning cfg = false ->
  Recovery (Middleware cfg) = false ->
  Logging (Middleware cfg) = false ->
  MaxRetries (entry_options e) <= 0 \/ BackoffStrategy (entry_options e) = BackoffNone ->
  exists t,
    wrapJob fuel cfg e w
    = Some ((jobEntry_Run e w).1.1.1, (jobEntry_Run e w).1.1.2, (jobEntry_Run e w).1.2, t)
    /\ (job e <> None \/ fn e <> None -> t = (jobEntry_Run e w).2)
    /\ forall p, (jobEntry_Run e w).1.1.1 = Panicking p ->
         runCount (jobEntry_Run e w).1.1.2 = incr (runCount e)
         /\ failCount (jobEntry_Run e w).1.1.2 = failCount e
         /\ running (jobEntry_Run e w).1.1.2 = false.
Proof.
  intros Hskip Hrec Hlog Hoff.
  assert (Hs : skipped cfg e = false) by (unfold skipped; now rewrite Hskip).
  rewrite (wrapJob_run fuel cfg e w Hs).
  unfold wrap_exec. rewrite (no_retry_once _ _ _ _ _ Hoff). cbv zeta.
  unfold wrap_end, wrap_recover, wrap_stats, wrap_begin, jobEntry_Run, job_closure.
  rewrite Hrec, Hlog. simpl.
  destruct (job e) as [j|] eqn:Hjob; [|destruct (fn e) as [f|] eqn:Hfn].
  - destruct (Job_Run j w) as [[[err|]|p] w1]; simpl; eexists;
      (split; [reflexivity|]); (split; [reflexivity|]);
      intros q Hq; try discriminate; repeat split.
  - destruct (f w) as [[[err|]|p] w1]; simpl; eexists;
      (split; [reflexivity|]); (split; [reflexivity|]);
      intros q Hq; try discriminate; repeat split.
  - simpl. eexists. split; [reflexivity|].
    split; [intros [Hn | Hn]; now destruct Hn | discriminate].
Qed.

Lemma entry_run_is_bare_wrapper_witness :
  let cfg := {| Timezone := "UTC"; WithSeconds := false; JobTimeout := 0;
                SkipIfStillRunning := false;
                Middleware := {| Logging := false; Recovery := false; Metrics := false |};
                cfg_DefaultJobOptions := DefaultJobOptions |} in
  let e := Sample.entry_of Sample.panics_once Sample.none5 in
  (SkipIfStillRunning cfg = false /\ Recovery (Middleware cfg) = false
   /\ Logging (Middleware cfg) = false
   /\ (MaxRetries (entry_options e) <= 0 \/ BackoffStrategy (entry_options e) = BackoffNone))
  /\ (jobEntry_Run e 0%nat).1.1.1 = Panicking "test panic"
  /\ exists t,
       wrapJob 0 cfg e 0%nat
       = Some ((jobEntry_Run e 0%nat).1.1.1, (jobEntry_Run e 0%nat).1.1.2,
               (jobEntry_Run e 0%nat).1.2, t)
       /\ t = (jobEntry_Run e 0%nat).2.
Proof.
  cbv zeta.
  split; [split; [reflexivity | split; [reflexivity | split; [reflexivity | now right]]]|].
  split; [reflexivity|].
  destruct (entry_run_is_bare_wrapper Sample.counting 0
              {| Timezone := "UTC"; WithSeconds := false; JobTimeout := 0;
                 SkipIfStillRunning := false;
                 Middleware := {| Logging := false; Recovery := false; Metrics := false |};
                 cfg_DefaultJobOptions := DefaultJobOptions |}
              (Sample.entry_of Sample.panics_once Sample.none5) 0%nat
              eq_refl eq_refl eq_refl (or_intror eq_refl))
    as (t & Hrun & Htrace & _).
  exists t. split; [exact Hrun|]. apply Htrace. right. discriminate.
Defined.

(** ** Overlapping firings: the flag is not a lock *)

(** X11.  The skip test and the store of the flag are two steps.  For every
    entry whose flag is clear and every configuration, [SkipIfStillRunning]
    enabled or not: when the test of a second firing falls between the test
    and the store of the first, both pass, and both executions are in flight
    at once, with nothing skipped. *)
Theorem skip_test_can_be_overtaken (R : Runtime) (fuel : nat) (cfg : Config)
    (e : jobEntry) (w : W) :
  running e = false ->
  exists σ,
    run fuel cfg [0; 1; 0; 1]%nat (fire 2 e w) = Some σ
    /\ in_flight σ = 2%nat
    /\ threads σ = [InFlight (time_Now w); InFlight (time_Now w)]
    /\ running (shared σ) = true
    /\ Forall (fun ev => ev <> EvLog (skip_record e)) (ftrace σ).
Proof.
  intros Hflag.
  assert (Hs : skipped cfg e = false).
  { unfold skipped. rewrite Hflag. apply andb_false_r. }
  unfold run, fire, step. simpl. rewrite Hs. simpl. rewrite Hs. simpl.
  eexists. split; [reflexivity|]. simpl.
  split; [reflexivity|]. split; [reflexivity|]. split; [reflexivity|].
  destruct (Logging (Middleware cfg)); simpl; repeat constructor; discriminate.
Qed.

Lemma skip_test_can_be_overtaken_witness :
  running (Sample.entry_of Sample.always_fails Sample.fixed3) = false
  /\ exists σ,
       run 0 DefaultConfig [0; 1; 0; 1]%nat
         (fire 2 (Sample.entry_of Sample.always_fails Sample.fixed3) 0%nat) = Some σ
       /\ in_flight σ = 2%nat.
Proof.
  split; [reflexivity|].
  destruct (skip_test_can_be_overtaken Sample.counting 0 DefaultConfig
              (Sample.entry_of Sample.always_fails Sample.fixed3) 0%nat eq_refl)
    as (σ & Hrun & Hfly & _).
  exists σ. split; [exact Hrun | exact Hfly].
Defined.

(** X12.  When two executions of one entry are in flight, the first to end
    clears the flag while the other still runs: from then on the entry says
    it is not running, and the skip test lets the next firing through. *)
Theorem first_exit_clears_flag (R : Runtime) (fuel : nat) (cfg : Config)
    (σ σ' : firings) (i j : nat) (st st' : Z) :
  escaped σ = None ->
  i <> j ->
  threads σ !! i = Some (InFlight st) ->
  threads σ !! j = Some (InFlight st') ->
  step fuel cfg i σ = Some σ' ->
  running (shared σ') = false
  /\ skipped cfg (shared σ') = false
  /\ threads σ' !! i = Some Finished
  /\ threads σ' !! j = Some (InFlight st')
  /\ (1 <= in_flight σ')%nat.
Proof.
  intros Hesc Hij Hi Hj Hstep. unfold step in Hstep. rewrite Hesc, Hi in Hstep.
  destruct (wrap_exec fuel (shared σ) (fworld σ)) as [[[res w1] t1]|]; [|discriminate].
  pose proof (wrap_end_running cfg st res (shared σ) w1) as Hflag.
  destruct (wrap_end cfg st res (shared σ) w1) as [[e2 t2] out]. simpl in Hflag.
  injection Hstep as <-. simpl.
  assert (Hj' : <[i := Finished]> (threads σ) !! j = Some (InFlight st')).
  { rewrite list_lookup_insert_ne by exact Hij. exact Hj. }
  split; [exact Hflag|].
  split; [unfold skipped; rewrite Hflag; apply andb_false_r|].
  split; [apply list_lookup_insert_eq; now apply lookup_lt_Some in Hi|].
  split; [exact Hj'|].
  unfold in_flight, flying. simpl.
  apply list_elem_of_lookup_2 in Hj'.
  assert (Hin : InFlight st' ∈ filter (fun p => is_in_flight p = true)
                                (<[i := Finished]> (threads σ))).
  { apply list_elem_of_filter. split; [reflexivity | exact Hj']. }
  destruct (filter _ _); [inversion Hin | simpl; lia].
Qed.

Lemma first_exit_clears_flag_witness :
  (escaped Demo.two_in_flight = None /\ 0%nat <> 1%nat
   /\ threads Demo.two_in_flight !! 0%nat = Some (InFlight 0)
   /\ threads Demo.two_in_flight !! 1%nat = Some (InFlight 0))
  /\ exists σ',
       step 0 DefaultConfig 0 Demo.two_in_flight = Some σ'
       /\ running (shared σ') = false
       /\ skipped DefaultConfig (shared σ') = false
       /\ threads σ' !! 1%nat = Some (InFlight 0).
Proof.
  split; [split; [reflexivity | split; [discriminate | split; reflexivity]]|].
  destruct (step 0 DefaultConfig 0 Demo.two_in_flight) as [σ'|] eqn:Hstep;
    [|vm_compute in Hstep; discriminate].
  exists σ'. split; [reflexivity|].
  destruct (first_exit_clears_flag Sample.counting 0 DefaultConfig Demo.two_in_flight σ'
              0 1 0 0 eq_refl (fun E : 0%nat = 1%nat => O_S 0 E) eq_refl eq_refl Hstep)
    as (Hflag & Hskip & _ & Hother & _).
  split; [exact Hflag|]. split; [exact Hskip | exact Hother].
Defined.

(** ** The lifecycle *)

(** X13.  [Start] and [Stop] are idempotent and touch nothing but the two
    running flags: after [Start] the scheduler says it runs, after [Stop]
    that it does not; a second [Start] (or [Stop]) in a row changes nothing
    and logs nothing, the first one logs exactly when it changed the state;
    the registry, the pool and the configuration are as before, and the
    scheduler's flag keeps agreeing with that of its cron. *)
Theorem lifecycle_is_idempotent (s : Scheduler) :
  (IsRunning (Start s).1 = true /\ IsRunning (Stop s).1 = false)
  /\ (Start (Start s).1 = ((Start s).1, []) /\ Stop (Stop s).1 = ((Stop s).1, []))
  /\ ((Start s).2 = [] <-> IsRunning s = true)
  /\ ((Stop s).2 = [] <-> IsRunning s = false)
  /\ (jobs (Start s).1, pool (Start s).1, config (Start s).1) = (jobs s, pool s, config s)
  /\ (jobs (Stop s).1, pool (Stop s).1, config (Stop s).1) = (jobs s, pool s, config s)
  /\ (cron_running (cron s) = sched_running s ->
      cron_running (cron (Start s).1) = sched_running (Start s).1
      /\ cron_running (cron (Stop s).1) = sched_running (Stop s).1
      /\ (IsRunning s = false -> (Stop (Start s).1).1 = s)
      /\ (IsRunning s = true -> (Start (Stop s).1).1 = s)).
Proof.
  unfold IsRunning, Start, Stop.
  destruct s as [[c] cfg p js [|]]; simpl;
    repeat split; try reflexivity; try discriminate; try congruence;
    simpl in *; intros; subst; try reflexivity; try discriminate.
Qed.

Lemma lifecycle_is_idempotent_witness :
  (cron_running (cron Sample.one_job) = sched_running Sample.one_job
   /\ IsRunning Sample.one_job = true)
  /\ (Start (Stop Sample.one_job).1).1 = Sample.one_job.
Proof.
  split; [split; reflexivity|].
  destruct (lifecycle_is_idempotent Sample.one_job) as (_ & _ & _ & _ & _ & _ & Hinv).
  destruct (Hinv eq_refl) as (_ & _ & _ & Hback). exact (Hback eq_refl).
Defined.

(** ** Job options *)

Section OptionFacts.
Context `{Runtime}.

Lemma set_options_twice o1 o2 e : set_options o1 (set_options o2 e) = set_options o1 e.
Proof. reflexivity. Qed.

Lemma apply_options_only opts :
  Forall only_options opts ->
  forall e, apply_options opts e = set_options (entry_options (apply_options opts e)) e.
Proof.
  induction 1 as [|opt opts Hopt _ IH]; intros e.
  - now destruct e.
  - change (apply_options (opt :: opts) e) with (apply_options opts (opt e)).
    rewrite (IH (opt e)) at 1. rewrite (Hopt e) at 2. apply set_options_twice.
Qed.

Lemma apply_options_name opts :
  Forall only_options opts -> forall e, name (apply_options opts e) = name e.
Proof. intros Hopts e. now rewrite (apply_options_only opts Hopts e). Qed.

Lemma with_options_only n strategy d m o :
  Forall only_options
    [WithMaxRetries n; WithBackoffStrategy strategy; WithInitialBackoff d;
     WithMaxBackoff d; WithBackoffMultiplier m; WithJobOptions o; WithNoRetry].
Proof. repeat constructor. Qed.

End OptionFacts.

(** X14.  The functional options of job.go write to the options of the
    entry and to nothing else, so a list of them, applied in order, leaves
    the identity, the work and the counters of the entry alone; each of them
    sets the field it names, [WithNoRetry] sets no retries and the strategy
    "none", and where two options set the same field the later one wins. *)
Theorem options_touch_only_options (R : Runtime) (opts : list JobOption) (e : jobEntry)
    (n n' : Z) (strategy : BackoffStrategy_t) (d : Z) (m : float) (o : JobOptions) :
  Forall only_options
    [WithMaxRetries n; WithBackoffStrategy strategy; WithInitialBackoff d;
     WithMaxBackoff d; WithBackoffMultiplier m; WithJobOptions o; WithNoRetry]
  /\ (Forall only_options opts ->
      apply_options opts e = set_options (entry_options (apply_options opts e)) e)
  /\ MaxRetries (entry_options (apply_options (opts ++ [WithMaxRetries n]) e)) = n
  /\ entry_options (apply_options (opts ++ [WithJobOptions o]) e) = o
  /\ (MaxRetries (entry_options (apply_options (opts ++ [WithNoRetry]) e)) = 0
      /\ BackoffStrategy (entry_options (apply_options (opts ++ [WithNoRetry]) e))
         = BackoffNone)
  /\ MaxRetries (entry_options
                   (apply_options (opts ++ [WithMaxRetries n; WithMaxRetries n']) e)) = n'
  /\ MaxRetries (entry_options
                   (apply_options (opts ++ [WithNoRetry; WithMaxRetries n]) e)) = n.
Proof.
  split; [apply with_options_only|].
  split; [intros Hopts; now apply apply_options_only|].
  rewrite !apply_options_app. repeat split.
Qed.

Lemma options_touch_only_options_witness :
  Forall only_options [WithMaxRetries 5; WithInitialBackoff Second]
  /\ apply_options [WithMaxRetries 5; WithInitialBackoff Second]
       (Sample.entry_of Sample.always_fails Sample.fixed3)
     = set_options {| MaxRetries := 5; BackoffStrategy := BackoffFixed;
                      InitialBackoff := Second; MaxBackoff := 0;
                      BackoffMultiplier := 0%float |}
         (Sample.entry_of Sample.always_fails Sample.fixed3).
Proof.
  assert (Hopts : Forall only_options [WithMaxRetries 5; WithInitialBackoff Second]).
  { repeat constructor. }
  split; [exact Hopts|].
  destruct (options_touch_only_options Sample.counting
              [WithMaxRetries 5; WithInitialBackoff Second]
              (Sample.entry_of Sample.always_fails Sample.fixed3)
              0 0 BackoffNone 0 0%float DefaultJobOptions) as (_ & Hframe & _).
  rewrite (Hframe Hopts). reflexivity.
Defined.

(** ** The registry *)

(** Case analysis on the lookup of the key [k] in the goal. *)
Ltac case_lookup k l E :=
  match goal with
  | |- context [@lookup ?K ?A ?M ?L k ?mm] =>
      destruct (@lookup K A M L k mm) as [l|] eqn:E
  end.

Section RegistryFacts.
Context `{Runtime} `{Collaborators}.

Lemma new_loc_fresh (heap : gmap loc jobEntry) : heap !! new_loc heap = None.
Proof. apply not_elem_of_dom. apply is_fresh. Qed.

Lemma addEntry_rejects spec entry m err :
  cron_Parse (WithSeconds (config (m_sched m))) spec = Some err ->
  addEntry spec entry m
  = (0, Some ("failed to add job " +:+ name entry +:+ ": " +:+ err), m, []).
Proof. intros Hp. unfold addEntry. now rewrite Hp. Qed.

Lemma consistent_no_zero m id :
  consistent m -> id <= 0 \/ m_nextID m < id -> jobs (m_sched m) !! id = None.
Proof.
  intros (_ & _ & _ & _ & Hids) Hid.
  destruct (jobs (m_sched m) !! id) as [l|] eqn:Hl; [|reflexivity].
  apply Hids in Hl. lia.
Qed.

Lemma addEntry_registers next spec entry m :
  consistent m ->
  m_nextID m < max_int ->
  cron_Parse (WithSeconds (config (m_sched m))) spec = None ->
  exists m' t,
    addEntry spec entry m = (m_nextID m + 1, None, m', t)
    /\ jobs (m_sched m') !! (m_nextID m + 1) = Some (new_loc (m_heap m))
    /\ m_heap m' !! new_loc (m_heap m) = Some (set_id (m_nextID m + 1) entry)
    /\ GetJob next m (m_nextID m + 1) = None
    /\ (forall id', id' <> m_nextID m + 1 -> GetJob next m' id' = GetJob next m id')
    /\ pool (m_sched m') = pool (m_sched m)
    /\ consistent m'.
Proof.
  intros Hc Hroom Hp.
  pose proof Hc as (Hheap & Hinj & Hcron & Hpos & Hids).
  unfold addEntry. rewrite Hp.
  rewrite incr_small by (unfold min_int; lia).
  pose proof (new_loc_fresh (m_heap m)) as Hfresh.
  remember (m_nextID m + 1) as id0 eqn:Hid0.
  remember (new_loc (m_heap m)) as l0 eqn:Hl0. clear Hl0.
  assert (Hnew : jobs (m_sched m) !! id0 = None).
  { apply consistent_no_zero; [exact Hc | right; lia]. }
  eexists _, _. split; [reflexivity|]. simpl. unfold GetJob, consistent. simpl.
  unfold JobID in *.
  split; [apply lookup_insert_eq|]. split; [apply lookup_insert_eq|].
  split; [now rewrite Hnew|].
  split; [|split; [reflexivity|]].
  - intros id' Hid'.
    rewrite lookup_insert_ne by congruence.
    case_lookup id' l Hl; [|reflexivity].
    destruct (Hheap _ _ Hl) as [e He].
    rewrite lookup_insert_ne by congruence. reflexivity.
  - split; [|split; [|split; [|split]]].
    + intros id l Hl. destruct (decide (id = id0)) as [->|Hne].
      * rewrite lookup_insert_eq in Hl. injection Hl as <-.
        rewrite lookup_insert_eq. eauto.
      * rewrite lookup_insert_ne in Hl by congruence.
        destruct (Hheap _ _ Hl) as [e He].
        rewrite lookup_insert_ne by congruence. eauto.
    + intros id1 id2 l H1 H2.
      destruct (decide (id1 = id0)) as [->|Hn1]; destruct (decide (id2 = id0)) as [->|Hn2];
        [reflexivity | | |].
      * rewrite lookup_insert_eq in H1. injection H1 as <-.
        rewrite lookup_insert_ne in H2 by congruence.
        destruct (Hheap _ _ H2) as [e He]. congruence.
      * rewrite lookup_insert_eq in H2. injection H2 as <-.
        rewrite lookup_insert_ne in H1 by congruence.
        destruct (Hheap _ _ H1) as [e He]. congruence.
      * rewrite lookup_insert_ne in H1, H2 by congruence. eauto.
    + now rewrite Hcron.
    + lia.
    + intros id l Hl. destruct (decide (id = id0)) as [->|Hne]; [lia|].
      rewrite lookup_insert_ne in Hl by congruence. apply Hids in Hl. lia.
Qed.

Lemma addEntry_consistent spec entry m :
  consistent m -> m_nextID m < max_int -> consistent (addEntry spec entry m).1.2.
Proof.
  intros Hc Hroom.
  destruct (cron_Parse (WithSeconds (config (m_sched m))) spec) as [err|] eqn:Hp.
  - now rewrite (addEntry_rejects _ _ _ _ Hp).
  - destruct (addEntry_registers (fun _ => 0) spec entry m Hc Hroom Hp)
      as (m' & t & -> & _ & _ & _ & _ & _ & Hc'). exact Hc'.
Qed.

Lemma RemoveJob_consistent id m : consistent m -> consistent (RemoveJob id m).1.
Proof.
  intros (Hheap & Hinj & Hcron & Hpos & Hids). unfold consistent. simpl.
  unfold JobID in *. split; [|split; [|split; [|split]]].
  - intros id' l Hl. apply lookup_delete_Some in Hl as [_ Hl]. eauto.
  - intros id1 id2 l H1 H2.
    apply lookup_delete_Some in H1 as [_ H1]. apply lookup_delete_Some in H2 as [_ H2]. eauto.
  - now rewrite Hcron.
  - exact Hpos.
  - intros id' l Hl. apply lookup_delete_Some in Hl as [_ Hl]. eauto.
Qed.

Lemma run_now_consistent id m : consistent m -> consistent (run_now m id).2.
Proof.
  intros Hc. unfold run_now, RunNow.
  destruct (jobs (m_sched m) !! id); simpl; exact Hc.
Qed.

Lemma run_task_keeps_dom fuel cfg l heap w out heap' w' t :
  run_task fuel cfg l heap w = Some (out, heap', w', t) ->
  forall l', is_Some (heap !! l') -> is_Some (heap' !! l').
Proof.
  unfold run_task. destruct (heap !! l) as [e|] eqn:He.
  - destruct (wrapJob fuel cfg e w) as [[[[o e'] w1] t1]|]; [|discriminate].
    intros [= <- <- <- <-] l' Hl'.
    destruct (decide (l' = l)) as [->|Hne];
      [rewrite lookup_insert_eq; eauto | now rewrite lookup_insert_ne by congruence].
  - now intros [= <- <- <- <-].
Qed.

Lemma pool_run_consistent fuel m w out m' w' t :
  consistent m -> pool_run fuel m w = Some (out, m', w', t) -> consistent m'.
Proof.
  intros Hc. unfold pool_run. destruct (pool (m_sched m)) as [|l rest].
  - now intros [= <- <- <- <-].
  - destruct (run_task fuel (config (m_sched m)) l (m_heap m) w)
      as [[[[o heap] w1] t1]|] eqn:Htask; [|discriminate].
    intros [= <- <- <- <-].
    destruct Hc as (Hheap & Hinj & Hcron & Hpos & Hids).
    unfold consistent. simpl. split; [|split; [|split; [|split]]]; eauto.
    intros id l' Hl'. eapply run_task_keeps_dom; eauto.
Qed.

Lemma fold_WithPool ps s :
  let s' := fold_left (fun s (opt : SchedulerOption) => opt s) (map WithPool ps) s in
  (cron s', config s', jobs s', sched_running s') = (cron s, config s, jobs s, sched_running s).
Proof.
  revert s. induction ps as [|p ps IH]; intros s; [reflexivity|].
  simpl. simpl in IH. rewrite IH. now destruct p.
Qed.

Lemma length_omap_total {A B} (f : A -> option B) (l : list A) :
  Forall (fun x => is_Some (f x)) l -> length (omap f l) = length l.
Proof.
  induction 1 as [|x l [y Hy] _ IH]; [reflexivity|].
  change (omap f (x :: l))
    with (match f x with Some y => y :: omap f l | None => omap f l end).
  rewrite Hy. simpl. now rewrite IH.
Qed.

Lemma consistent_empty (m : machine) :
  jobs (m_sched m) = ∅ -> m_cron m = ∅ -> 0 <= m_nextID m -> consistent m.
Proof.
  intros Hj Hcr Hn. unfold consistent. rewrite Hj, Hcr.
  split; [|split; [|split; [|split]]]; try done.
Qed.

End RegistryFacts.

(** X15.  Registering a job and asking for it: when the spec parses,
    [AddFunc] and [AddJob] return [nil] and the id that follows the last one
    handed out, under which no job was registered before; [GetJob] on that
    id then answers the name and the spec given, the scheduler's default
    options with the job's options applied to them, and a job that has not
    run; the entry behind it runs the function (or the [Job]) given; every
    other id answers as before, the pool is as before, and the registry is
    consistent again. *)
Theorem add_then_get (R : Runtime) (C : Collaborators) (next : JobID -> Z)
    (nm sp : string) (f : operation) (j : Job) (opts : list JobOption)
    (m : machine) :
  consistent m ->
  m_nextID m < max_int ->
  cron_Parse (WithSeconds (config (m_sched m))) sp = None ->
  Forall only_options opts ->
  let defaults := cfg_DefaultJobOptions (config (m_sched m)) in
  let id := m_nextID m + 1 in
  GetJob next m id = None
  /\ (exists m' t l e,
        AddFunc nm sp f opts m = (id, None, m', t)
        /\ GetJob next m' id
           = Some (new_info next id nm sp
                     (entry_options
                        (apply_options opts (set_fn (Some f) (newJobEntry nm sp defaults)))))
        /\ (jobs (m_sched m') !! id = Some l /\ m_heap m' !! l = Some e /\ job_closure e = f)
        /\ (forall id', id' <> id -> GetJob next m' id' = GetJob next m id')
        /\ pool (m_sched m') = pool (m_sched m)
        /\ consistent m')
  /\ (exists m' t l e,
        AddJob nm sp j opts m = (id, None, m', t)
        /\ GetJob next m' id
           = Some (new_info next id nm sp
                     (entry_options
                        (apply_options opts (set_job (Some j) (newJobEntry nm sp defaults)))))
        /\ (jobs (m_sched m') !! id = Some l /\ m_heap m' !! l = Some e
            /\ job_closure e = Job_Run j)
        /\ (forall id', id' <> id -> GetJob next m' id' = GetJob next m id')
        /\ pool (m_sched m') = pool (m_sched m)
        /\ consistent m').
Proof.
  intros Hc Hroom Hp Hopts defaults id.
  assert (Hgen : forall e0 : jobEntry,
    name e0 = nm -> spec e0 = sp ->
    runCount e0 = 0 -> failCount e0 = 0 -> running e0 = false -> lastRun e0 = 0 ->
    exists m' t l e,
      addEntry sp (apply_options opts e0) m = (id, None, m', t)
      /\ GetJob next m' id
         = Some (new_info next id nm sp (entry_options (apply_options opts e0)))
      /\ (jobs (m_sched m') !! id = Some l /\ m_heap m' !! l = Some e
          /\ job_closure e = job_closure e0)
      /\ (forall id', id' <> id -> GetJob next m' id' = GetJob next m id')
      /\ pool (m_sched m') = pool (m_sched m)
      /\ consistent m').
  { intros e0 Hname Hspec Hrc Hfc Hrun Hlast.
    destruct (addEntry_registers next sp (apply_options opts e0) m Hc Hroom Hp)
      as (m' & t & Hadd & Hjob & Hheap & _ & Hother & Hpool & Hc').
    exists m', t, (new_loc (m_heap m)), (set_id id (apply_options opts e0)).
    split; [exact Hadd|].
    split.
    { unfold GetJob. unfold JobID in *. fold id in Hjob, Hheap. rewrite Hjob, Hheap.
      rewrite (apply_options_only opts Hopts e0).
      unfold snapshot, new_info. simpl. now rewrite Hname, Hspec, Hrc, Hfc, Hrun, Hlast. }
    split; [|split; [exact Hother | split; [exact Hpool | exact Hc']]].
    split; [exact Hjob|]. split; [exact Hheap|].
    rewrite (apply_options_only opts Hopts e0). reflexivity. }
  split.
  { destruct (addEntry_registers next sp (newJobEntry nm sp defaults) m Hc Hroom Hp)
      as (_ & _ & _ & _ & _ & Hnone & _). exact Hnone. }
  split.
  - destruct (Hgen (set_fn (Some f) (newJobEntry nm sp defaults)))
      as (m' & t & l & e & Hadd & Hrest); try reflexivity.
    exists m', t, l, e. split; [exact Hadd | exact Hrest].
  - destruct (Hgen (set_job (Some j) (newJobEntry nm sp defaults)))
      as (m' & t & l & e & Hadd & Hrest); try reflexivity.
    exists m', t, l, e. split; [exact Hadd | exact Hrest].
Qed.

Lemma add_then_get_witness :
  (consistent Demo.fresh_machine
   /\ m_nextID Demo.fresh_machine < max_int
   /\ cron_Parse (WithSeconds (config (m_sched Demo.fresh_machine))) "* * * * *" = None
   /\ Forall only_options [WithMaxRetries 5])
  /\ exists m' t,
       AddFunc "job" "* * * * *" Sample.always_fails [WithMaxRetries 5] Demo.fresh_machine
       = (1, None, m', t)
       /\ GetJob (fun _ => 0) m' 1
          = Some (new_info (fun _ => 0) 1 "job" "* * * * *"
                    {| MaxRetries := 5; BackoffStrategy := BackoffExponential;
                       InitialBackoff := Second; MaxBackoff := 30 * Second;
                       BackoffMultiplier := 2%float |}).
Proof.
  assert (Hc : consistent Demo.fresh_machine).
  { apply consistent_empty; [reflexivity | reflexivity | simpl; lia]. }
  assert (Hopts : Forall only_options [WithMaxRetries 5]) by (repeat constructor).
  assert (Hroom : m_nextID Demo.fresh_machine < max_int) by reflexivity.
  split; [split; [exact Hc | split; [exact Hroom | split; [reflexivity | exact Hopts]]]|].
  destruct (add_then_get Sample.counting Demo.collaborators (fun _ => 0) "job" "* * * * *"
              Sample.always_fails {| Job_Run := Sample.always_fails; Job_Name := "job" |}
              [WithMaxRetries 5] Demo.fresh_machine Hc Hroom eq_refl Hopts)
    as (_ & (m' & t & l & e & Hadd & Hget & _) & _).
  exists m', t. split; [exact Hadd | exact Hget].
Defined.

(** X16.  A spec that cron's parser rejects registers nothing: [AddFunc] and
    [AddJob] return the id 0 and the error "failed to add job <name>: "
    followed by the parser's error; the registry, cron, memory and the pool
    are as before, and nothing is logged.  The id 0 is no job's id. *)
Theorem invalid_spec_changes_nothing (R : Runtime) (C : Collaborators)
    (next : JobID -> Z) (nm sp : string) (f : operation) (j : Job)
    (opts : list JobOption) (m : machine) (err : string) :
  cron_Parse (WithSeconds (config (m_sched m))) sp = Some err ->
  Forall only_options opts ->
  AddFunc nm sp f opts m = (0, Some ("failed to add job " +:+ nm +:+ ": " +:+ err), m, [])
  /\ AddJob nm sp j opts m = (0, Some ("failed to add job " +:+ nm +:+ ": " +:+ err), m, [])
  /\ (consistent m -> GetJob next m 0 = None /\ (run_now m 0).1 <> None).
Proof.
  intros Hp Hopts. unfold AddFunc, AddJob.
  rewrite !(addEntry_rejects _ _ _ _ Hp).
  rewrite !(apply_options_name opts Hopts). simpl.
  split; [reflexivity|]. split; [reflexivity|].
  intros Hc. pose proof (consistent_no_zero m 0 Hc (or_introl (Z.le_refl 0))) as Hz.
  unfold GetJob, run_now, RunNow. unfold JobID in *. rewrite Hz. split; [reflexivity | discriminate].
Qed.

Lemma invalid_spec_changes_nothing_witness :
  (cron_Parse (WithSeconds (config (m_sched Demo.with_job))) "" = Some "empty spec string"
   /\ Forall only_options [WithNoRetry])
  /\ AddFunc "late" "" Sample.always_fails [WithNoRetry] Demo.with_job
     = (0, Some "failed to add job late: empty spec string", Demo.with_job, []).
Proof.
  assert (Hopts : Forall only_options [WithNoRetry]) by (repeat constructor).
  split; [split; [reflexivity | exact Hopts]|].
  exact (proj1 (invalid_spec_changes_nothing Sample.counting Demo.collaborators (fun _ => 0)
                  "late" "" Sample.always_fails
                  {| Job_Run := Sample.always_fails; Job_Name := "late" |}
                  [WithNoRetry] Demo.with_job "empty spec string" eq_refl Hopts)).
Defined.

(** X17.  The registry stays consistent under every operation of the
    scheduler: [AddFunc] and [AddJob] (while the id counter has not reached
    [math.MaxInt]), [RemoveJob], [RunNow], and the pool running a task.  So
    once consistent, every registered id leads to an entry, no two ids share
    one, cron fires exactly the registered jobs, and every id handed out is
    positive and at most the counter. *)
Theorem registry_stays_consistent (R : Runtime) (C : Collaborators) (m : machine) :
  consistent m ->
  (forall nm sp f j opts,
     m_nextID m < max_int ->
     consistent (AddFunc nm sp f opts m).1.2 /\ consistent (AddJob nm sp j opts m).1.2)
  /\ (forall id, consistent (RemoveJob id m).1 /\ consistent (run_now m id).2)
  /\ (forall fuel w out m' w' t,
        pool_run fuel m w = Some (out, m', w', t) -> consistent m').
Proof.
  intros Hc. split; [|split].
  - intros nm sp f j opts Hroom.
    split; unfold AddFunc, AddJob; now apply addEntry_consistent.
  - intros id. split; [now apply RemoveJob_consistent | now apply run_now_consistent].
  - intros fuel w out m' w' t Hrun. eapply pool_run_consistent; eauto.
Qed.

Lemma registry_stays_consistent_witness :
  consistent Demo.fresh_machine /\ consistent Demo.with_job
  /\ consistent (RemoveJob 1 Demo.with_job).1.
Proof.
  assert (Hc : consistent Demo.fresh_machine).
  { apply consistent_empty; [reflexivity | reflexivity | simpl; lia]. }
  split; [exact Hc|].
  destruct (registry_stays_consistent Sample.counting Demo.collaborators
              Demo.fresh_machine Hc) as (Hadd & _ & _).
  destruct (Hadd "job" "* * * * *" Sample.always_fails
              {| Job_Run := Sample.always_fails; Job_Name := "job" |} [] eq_refl)
    as [Hwith _].
  split; [exact Hwith|].
  destruct (registry_stays_consistent Sample.counting Demo.collaborators
              Demo.with_job Hwith) as (_ & Hrem & _).
  exact (proj1 (Hrem 1)).
Defined.

(** X18.  [New]: the only error is an unknown time zone, "invalid timezone
    <zone>: " followed by the error of [time.LoadLocation], and then no
    scheduler is returned.  Otherwise the scheduler is returned with the
    configuration given ([DefaultConfig] for [nil]); it is not running, has
    no job (so [GetJob] and [RunNow] fail on every id), is consistent, and
    its pool is the last pool given with [WithPool] that is not [nil], or
    the default pool. *)
Theorem new_scheduler (R : Runtime) (C : Collaborators) (next : JobID -> Z)
    (cfg : option Config) (ps : list (option Pool)) :
  let c := match cfg with Some c => c | None => DefaultConfig end in
  match time_LoadLocation (Timezone c) with
  | Some err =>
      New cfg (map WithPool ps)
      = (None, Some ("invalid timezone " +:+ Timezone c +:+ ": " +:+ err))
  | None =>
      exists m,
        New cfg (map WithPool ps) = (Some m, None)
        /\ config (m_sched m) = c
        /\ IsRunning (m_sched m) = false
        /\ consistent m
        /\ ListJobs next m = []
        /\ (forall id, GetJob next m id = None
                       /\ (run_now m id).1 = Some ("job " +:+ pretty id +:+ " not found"))
        /\ pool (m_sched m)
           = fold_left (fun p o => match o with Some q => q | None => p end) ps []
  end.
Proof.
  intros c. unfold New. fold c.
  destruct (time_LoadLocation (Timezone c)) as [err|]; [reflexivity|].
  set (s0 := {| cron := {| cron_running := false |}; config := c; pool := [];
                jobs := ∅; sched_running := false |}).
  match goal with
  | |- context [fold_left ?f ?l s0] =>
      assert (Hfold : (cron (fold_left f l s0), config (fold_left f l s0),
                       jobs (fold_left f l s0), sched_running (fold_left f l s0))
                      = (cron s0, config s0, jobs s0, sched_running s0))
        by exact (fold_WithPool ps s0);
      remember (fold_left f l s0) as s eqn:Hs
  end.
  injection Hfold as Hcron Hconfig Hjobs Hrun.
  eexists. split; [reflexivity|]. simpl.
  split; [exact Hconfig|]. split; [exact Hrun|].
  split; [apply consistent_empty; simpl; [exact Hjobs | reflexivity | lia]|].
  split; [unfold ListJobs; simpl; rewrite Hjobs; now rewrite map_to_list_empty|].
  split.
  - intros id. unfold GetJob, run_now, RunNow. simpl. rewrite Hjobs.
    unfold JobID in *. rewrite lookup_empty. split; reflexivity.
  - rewrite Hs. change (@nil loc) with (pool s0). clear. generalize s0.
    induction ps as [|p ps IH]; intros s; [reflexivity|].
    simpl. rewrite IH. now destruct p.
Qed.

(** X19.  [RemoveJob]: afterwards [GetJob] and [RunNow] fail on the id,
    every other job answers as before, and the id counter, the entries in
    memory and the pool are untouched; "job removed" is logged exactly when
    the job was there, and removing an id that is not registered changes
    nothing at all.  Since the counter is not moved back, the id of a
    removed job is never handed out again. *)
Theorem remove_job (R : Runtime) (C : Collaborators) (next : JobID -> Z)
    (m : machine) (id : JobID) :
  GetJob next (RemoveJob id m).1 id = None
  /\ (run_now (RemoveJob id m).1 id).1 = Some ("job " +:+ pretty id +:+ " not found")
  /\ (forall id', id' <> id -> GetJob next (RemoveJob id m).1 id' = GetJob next m id')
  /\ (m_nextID (RemoveJob id m).1, m_heap (RemoveJob id m).1, pool (m_sched (RemoveJob id m).1))
     = (m_nextID m, m_heap m, pool (m_sched m))
  /\ ((RemoveJob id m).2 = [] <-> GetJob next m id = None)
  /\ (consistent m ->
      (jobs (m_sched m) !! id = None -> RemoveJob id m = (m, []))
      /\ (forall nm sp f opts,
            is_Some (jobs (m_sched m) !! id) ->
            m_nextID m < max_int ->
            (AddFunc nm sp f opts (RemoveJob id m).1).1.1.1 <> id)).
Proof.
  unfold GetJob, run_now, RunNow, RemoveJob. simpl. unfold JobID in *.
  rewrite lookup_delete_eq.
  split; [reflexivity|]. split; [reflexivity|].
  split; [intros id' Hne; now rewrite lookup_delete_ne by congruence|].
  split; [reflexivity|].
  split.
  { case_lookup id l Hl; [|split; reflexivity].
    destruct (m_heap m !! l); split; intros Hx; try discriminate; reflexivity. }
  intros (Hheap & Hinj & Hcron & Hpos & Hids). split.
  - intros Hnone. rewrite Hnone.
    destruct m as [[c cfg p js r] n cr h]. simpl in *. subst cr.
    unfold set_jobs. simpl. rewrite delete_id by exact Hnone. reflexivity.
  - intros nm sp f opts [l Hl] Hroom. apply Hids in Hl.
    unfold AddFunc, addEntry. simpl.
    destruct (cron_Parse (WithSeconds (config (m_sched m))) sp); simpl; [lia|].
    rewrite incr_small by (unfold min_int; lia). lia.
Qed.

Lemma remove_job_witness :
  (consistent Demo.with_job /\ is_Some (jobs (m_sched Demo.with_job) !! 1)
   /\ m_nextID Demo.with_job < max_int)
  /\ GetJob (fun _ => 0) (RemoveJob 1 Demo.with_job).1 1 = None
  /\ (AddFunc "again" "* * * * *" Sample.always_fails [] (RemoveJob 1 Demo.with_job).1).1.1.1
     <> 1.
Proof.
  assert (Hc : consistent Demo.with_job).
  { apply (addEntry_consistent "* * * * *" _ Demo.fresh_machine); [|reflexivity].
    apply consistent_empty; [reflexivity | reflexivity | simpl; lia]. }
  assert (Hreg : is_Some (jobs (m_sched Demo.with_job) !! 1)).
  { exists 0%nat. vm_compute. reflexivity. }
  split; [split; [exact Hc | split; [exact Hreg | reflexivity]]|].
  destruct (remove_job Sample.counting Demo.collaborators (fun _ => 0) Demo.with_job 1)
    as (Hgone & _ & _ & _ & _ & Hcons).
  split; [exact Hgone|].
  destruct (Hcons Hc) as [_ Hnever].
  exact (Hnever "again" "* * * * *" Sample.always_fails [] Hreg eq_refl).
Defined.

(** ** Run-now and the registry *)

(** X20.  Removing a job does not cancel a run of it that [RunNow] has
    already handed to the pool: the task holds the entry itself, not its
    id.  After [RunNow id] and then [RemoveJob id] the job is gone from the
    registry, and when the pool gets to the task it runs the wrapper on the
    entry all the same, job, retries, statistics and all. *)
Theorem queued_run_survives_removal (R : Runtime) (C : Collaborators)
    (next : JobID -> Z) (fuel : nat) (m : machine) (id : JobID) (l : loc)
    (e : jobEntry) (w : W) :
  jobs (m_sched m) !! id = Some l ->
  m_heap m !! l = Some e ->
  pool (m_sched m) = [] ->
  let m2 := (RemoveJob id (run_now m id).2).1 in
  (run_now m id).1 = None
  /\ GetJob next m2 id = None
  /\ pool (m_sched m2) = [l]
  /\ pool_run fuel m2 w
     = match wrapJob fuel (config (m_sched m)) e w with
       | None => None
       | Some (out, e', w', t) =>
           Some (out,
                 {| m_sched := set_pool [] (m_sched m2); m_nextID := m_nextID m;
                    m_cron := delete id (m_cron m); m_heap := <[l := e']> (m_heap m) |},
                 w', t)
       end.
Proof.
  intros Hjob Hheap Hpool m2. subst m2.
  unfold run_now, RunNow, RemoveJob, GetJob, pool_run, run_task, Submit. simpl.
  unfold JobID in *. rewrite Hjob. simpl. rewrite lookup_delete_eq, Hpool. simpl.
  rewrite Hheap.
  split; [reflexivity|]. split; [reflexivity|]. split; [reflexivity|].
  destruct (wrapJob fuel (config (m_sched m)) e w) as [[[[out e'] w'] t]|]; reflexivity.
Qed.

Lemma queued_run_survives_removal_witness :
  let m2 := (RemoveJob 1 (run_now Demo.with_job 1).2).1 in
  (jobs (m_sched Demo.with_job) !! 1 = Some 0%nat
   /\ pool (m_sched Demo.with_job) = [])
  /\ GetJob (fun _ => 0) m2 1 = None
  /\ exists e out m' w' t,
       m_heap Demo.with_job !! 0%nat = Some e
       /\ pool_run 5 m2 0%nat = Some (out, m', w', t)
       /\ length (calls t) = 4%nat.
Proof.
  cbv zeta.
  assert (Hjob : jobs (m_sched Demo.with_job) !! 1 = Some 0%nat) by (vm_compute; reflexivity).
  destruct (m_heap Demo.with_job !! 0%nat) as [e|] eqn:Hheap;
    [|vm_compute in Hheap; discriminate].
  destruct (queued_run_survives_removal Sample.counting Demo.collaborators (fun _ => 0) 5
              Demo.with_job 1 0%nat e 0%nat Hjob Hheap eq_refl)
    as (_ & Hgone & _ & Hrun).
  split; [split; [exact Hjob | reflexivity]|]. split; [exact Hgone|].
  destruct (pool_run 5 (RemoveJob 1 (run_now Demo.with_job 1).2).1 0%nat)
    as [[[[out m'] w'] t]|] eqn:Hpr; [|vm_compute in Hpr; discriminate].
  exists e, out, m', w', t. split; [reflexivity|]. split; [reflexivity|].
  vm_compute in Hpr. injection Hpr as _ _ _ <-. reflexivity.
Defined.

(** X21.  What a run through [RunNow] leaves is what [GetJob] shows: once
    the pool has run the task of a registered job (not skipped), [GetJob] on
    its id answers the same name, spec and options as before, a run count
    one higher, a fail count one higher exactly when the executor ended with
    an error or a recovered panic, the start of the run as [LastRun], and
    [Running] false.  Every other job answers as before, and the task has
    left the pool. *)
Theorem run_now_shows_in_job_info (R : Runtime) (C : Collaborators)
    (next : JobID -> Z) (fuel : nat) (m m' : machine) (id : JobID) (l : loc)
    (e : jobEntry) (w w' : W) (out : result unit) (t : list event) :
  consistent m ->
  jobs (m_sched m) !! id = Some l ->
  m_heap m !! l = Some e ->
  pool (m_sched m) = [] ->
  skipped (config (m_sched m)) e = false ->
  pool_run fuel (run_now m id).2 w = Some (out, m', w', t) ->
  (exists res t1,
     wrap_exec fuel e w = Some (res, w', t1)
     /\ calls t = calls t1
     /\ GetJob next m' id
        = Some {| info_ID := id; info_Name := name e; info_Spec := spec e;
                  info_LastRun := time_Now w; info_NextRun := next id;
                  info_RunCount := incr (runCount e);
                  info_FailCount := if run_failed (config (m_sched m)) res
                                    then incr (failCount e) else failCount e;
                  info_Running := false; info_Options := entry_options e |})
  /\ (forall id', id' <> id -> GetJob next m' id' = GetJob next m id')
  /\ pool (m_sched m') = [].
Proof.
  intros Hc Hjob Hheap Hpool Hskip Hrun.
  pose proof Hc as (Hdom & Hinj & _).
  unfold run_now, RunNow, pool_run, run_task, Submit in Hrun. simpl in Hrun.
  unfold JobID in *. rewrite Hjob in Hrun. simpl in Hrun.
  rewrite Hpool in Hrun. simpl in Hrun. rewrite Hheap in Hrun.
  destruct (wrapJob fuel (config (m_sched m)) e w) as [[[[out1 e1] w1] t1]|] eqn:Hwrap;
    [|discriminate].
  assert (Hparts : out = out1 /\ w' = w1 /\ t = t1
                   /\ m' = {| m_sched := set_pool [] (m_sched m); m_nextID := m_nextID m;
                              m_cron := m_cron m; m_heap := <[l := e1]> (m_heap m) |}).
  { injection Hrun as <- <- <- <-. repeat split. }
  destruct Hparts as (-> & -> & -> & ->). clear Hrun.
  destruct (wrapJob_parts fuel _ e e1 w w1 out1 t1 Hskip Hwrap)
    as (res & t2 & Hexec & Hcalls & _ & _ & Hframe & Hflag & Hlast & Hrc & Hfc & _).
  injection Hframe as Hid Hname Hspec _ _ Hopts.
  split; [|split; [|reflexivity]].
  - exists res, t2. split; [exact Hexec|]. split; [exact Hcalls|].
    unfold GetJob, set_pool. simpl. unfold JobID in *.
    rewrite Hjob, lookup_insert_eq. unfold snapshot.
    now rewrite Hname, Hspec, Hopts, Hflag, Hlast, Hrc, Hfc.
  - intros id' Hne. unfold GetJob, set_pool. simpl. unfold JobID in *.
    case_lookup id' l' Hl'; [|reflexivity].
    assert (Hll : l' <> l).
    { intros ->. apply Hne. exact (Hinj _ _ _ Hl' Hjob). }
    now rewrite lookup_insert_ne by congruence.
Qed.

Lemma run_now_shows_in_job_info_witness :
  exists e out m' w' t,
    (consistent Demo.with_job
     /\ jobs (m_sched Demo.with_job) !! 1 = Some 0%nat
     /\ m_heap Demo.with_job !! 0%nat = Some e
     /\ pool (m_sched Demo.with_job) = []
     /\ skipped (config (m_sched Demo.with_job)) e = false
     /\ pool_run 5 (run_now Demo.with_job 1).2 0%nat = Some (out, m', w', t))
    /\ exists info,
         GetJob (fun _ => 0) m' 1 = Some info
         /\ info_RunCount info = 1 /\ info_FailCount info = 1
         /\ info_Running info = false.
Proof.
  assert (Hc : consistent Demo.with_job).
  { apply (addEntry_consistent "* * * * *" _ Demo.fresh_machine); [|reflexivity].
    apply consistent_empty; [reflexivity | reflexivity | simpl; lia]. }
  assert (Hjob : jobs (m_sched Demo.with_job) !! 1 = Some 0%nat) by (vm_compute; reflexivity).
  destruct (m_heap Demo.with_job !! 0%nat) as [e|] eqn:Hheap;
    [|vm_compute in Hheap; discriminate].
  assert (Hskip : skipped (config (m_sched Demo.with_job)) e = false).
  { vm_compute in Hheap. injection Hheap as <-. reflexivity. }
  destruct (pool_run 5 (run_now Demo.with_job 1).2 0%nat)
    as [[[[out m'] w'] t]|] eqn:Hrun; [|vm_compute in Hrun; discriminate].
  exists e, out, m', w', t.
  split; [split; [exact Hc | split; [exact Hjob | split; [reflexivity | split;
            [reflexivity | split; [exact Hskip | reflexivity]]]]]|].
  destruct (run_now_shows_in_job_info Sample.counting Demo.collaborators (fun _ => 0) 5
              Demo.with_job m' 1 0%nat e 0%nat w' out t Hc Hjob Hheap eq_refl Hskip Hrun)
    as ((res & t1 & Hexec & _ & Hget) & _).
  eexists. split; [exact Hget|]. simpl.
  vm_compute in Hheap. injection Hheap as <-.
  vm_compute in Hexec. injection Hexec as <- _ _.
  repeat split.
Defined.

(** ** Listing *)

Section ListFacts.
Context `{Runtime} `{Collaborators}.

Lemma ListJobs_elem next m info :
  info ∈ ListJobs next m
  <-> exists id l e,
        jobs (m_sched m) !! id = Some l /\ m_heap m !! l = Some e
        /\ info = snapshot next id e.
Proof.
  unfold ListJobs. rewrite list_elem_of_omap. split.
  - intros ([id l] & Hin & Hf). apply elem_of_map_to_list in Hin.
    destruct (m_heap m !! l) as [e|] eqn:He; [|discriminate].
    injection Hf as <-. exists id, l, e. auto.
  - intros (id & l & e & Hl & He & ->). exists (id, l).
    split; [now apply elem_of_map_to_list|]. now rewrite He.
Qed.

Lemma NoDup_ids_omap (next : JobID -> Z) (heap : gmap loc jobEntry)
    (l : list (JobID * loc)) :
  NoDup l.*1 ->
  NoDup (map info_ID
           (omap (fun '(id, a) =>
                    match heap !! a with
                    | Some entry => Some (snapshot next id entry)
                    | None => None
                    end) l)).
Proof.
  induction l as [|[id a] l IH]; intros Hnd; [constructor|].
  apply NoDup_cons in Hnd as [Hnotin Hnd]. specialize (IH Hnd).
  change (omap ?f ((id, a) :: l))
    with (match f (id, a) with Some y => y :: omap f l | None => omap f l end).
  cbv beta iota. destruct (heap !! a) as [e|]; [|exact IH].
  simpl. apply NoDup_cons. split; [|exact IH].
  intros Hin. apply Hnotin.
  apply list_elem_of_In, in_map_iff in Hin as (info & Hid & Hin).
  apply list_elem_of_In, list_elem_of_omap in Hin as ([id' a'] & Hin' & Hf).
  destruct (heap !! a'); [|discriminate]. injection Hf as <-. simpl in Hid. subst id'.
  apply list_elem_of_fmap. now exists (id, a').
Qed.

End ListFacts.

(** X22.  [ListJobs] is the registry: on a consistent scheduler it lists as
    many jobs as are registered, each id once, no others, and for each of
    them exactly what [GetJob] answers on its id at that moment. *)
Theorem list_jobs_is_the_registry (R : Runtime) (C : Collaborators)
    (next : JobID -> Z) (m : machine) :
  consistent m ->
  length (ListJobs next m) = size (jobs (m_sched m))
  /\ NoDup (map info_ID (ListJobs next m))
  /\ (forall info, info ∈ ListJobs next m <-> GetJob next m (info_ID info) = Some info)
  /\ (forall id, is_Some (GetJob next m id) <-> is_Some (jobs (m_sched m) !! id)).
Proof.
  intros (Hdom & _). split; [|split; [|split]].
  - unfold ListJobs. rewrite length_omap_total; [apply length_map_to_list|].
    apply Forall_forall. intros [id l] Hin.
    apply elem_of_map_to_list in Hin.
    destruct (Hdom _ _ Hin) as [e He]. rewrite He. eauto.
  - apply NoDup_ids_omap. apply NoDup_fst_map_to_list.
  - intros info. rewrite ListJobs_elem. unfold GetJob. unfold JobID in *. split.
    + intros (id & l & e & Hl & He & ->). simpl. now rewrite Hl, He.
    + case_lookup (info_ID info) l Hl; [|discriminate].
      destruct (m_heap m !! l) as [e|] eqn:He; [|discriminate].
      intros [= <-]. exists (info_ID info), l, e. auto.
  - intros id. unfold GetJob. unfold JobID in *.
    case_lookup id l Hl.
    + destruct (Hdom _ _ Hl) as [e He]. rewrite He. split; eauto.
    + split; intros [x Hx]; discriminate.
Qed.

Lemma list_jobs_is_the_registry_witness :
  consistent Demo.with_job
  /\ length (ListJobs (fun _ => 0) Demo.with_job) = 1%nat
  /\ forall info,
       info ∈ ListJobs (fun _ => 0) Demo.with_job
       <-> GetJob (fun _ => 0) Demo.with_job (info_ID info) = Some info.
Proof.
  assert (Hc : consistent Demo.with_job).
  { apply (addEntry_consistent "* * * * *" _ Demo.fresh_machine); [|reflexivity].
    apply consistent_empty; [reflexivity | reflexivity | simpl; lia]. }
  split; [exact Hc|].
  destruct (list_jobs_is_the_registry Sample.counting Demo.collaborators (fun _ => 0)
              Demo.with_job Hc) as (Hlen & _ & Hmem & _).
  split; [rewrite Hlen; vm_compute; reflexivity | exact Hmem].
Defined.

(** ** The logging helper *)

Section FieldFacts.

Lemma fields_length_step (kv : list value) :
  length (fields kv) = Nat.div2 (length kv)
  /\ forall a, length (fields (a :: kv)) = Nat.div2 (S (length kv)).
Proof.
  induction kv as [|b kv [IH1 IH2]]; [split; reflexivity|].
  split; [apply IH2|]. intros a. simpl. now rewrite IH1.
Qed.

End FieldFacts.

(** X23.  [fields] pairs its arguments up, in order: keys and values given
    alternately come back as the fields with those keys and values, a last
    argument without a partner is dropped, and in general [n] arguments give
    [n / 2] fields (none for no argument). *)
Theorem fields_pairs_up (kvs : list (string * value)) (x : value) (kv : list value) :
  fields (flat_map (fun p => [VString p.1; p.2]) kvs) = kvs
  /\ fields (flat_map (fun p => [VString p.1; p.2]) kvs ++ [x]) = kvs
  /\ length (fields kv) = (length kv / 2)%nat
  /\ (fields kv = [] <-> (length kv <= 1)%nat).
Proof.
  split; [|split; [|split]].
  - induction kvs as [|[k v] kvs IH]; [reflexivity|]. simpl. now rewrite IH.
  - induction kvs as [|[k v] kvs IH]; [reflexivity|]. simpl. now rewrite IH.
  - rewrite (proj1 (fields_length_step kv)). apply Nat.div2_div.
  - destruct kv as [|a [|b kv]]; simpl; split; intros Hx; try reflexivity;
      try discriminate; lia.
Qed.

(** ** The wrapper, end to end *)

(** X24.  A run of the wrapper always comes to an end, and within bounds:
    for every configuration, entry and job (with [MaxRetries] below
    [math.MaxInt]) the function that [wrapJob] returns comes back, having invoked the
    job at most [max(MaxRetries, 0) + 1] times, and leaves [running] set
    only if it was skipped because the flag was set already.  With the
    recovery middleware on, no panic of the job leaves it. *)
Theorem wrapper_run_is_bounded (R : Runtime) (fuel : nat) (cfg : Config)
    (e : jobEntry) (w : W) :
  MaxRetries (entry_options e) < max_int ->
  (Z.to_nat (MaxRetries (entry_options e)) + 2 <= fuel)%nat ->
  exists out e' w' t,
    wrapJob fuel cfg e w = Some (out, e', w', t)
    /\ Z.of_nat (length (calls t)) <= Z.max 0 (MaxRetries (entry_options e)) + 1
    /\ running e' = skipped cfg e
    /\ (Recovery (Middleware cfg) = true -> out = Val tt).
Proof.
  intros Hmax Hfuel. destruct (skipped cfg e) eqn:Hskip.
  - unfold wrapJob. rewrite Hskip. eexists _, _, _, _. split; [reflexivity|]. simpl.
    split; [lia|]. split; [|reflexivity].
    unfold skipped in Hskip. now apply andb_true_iff in Hskip as [_ ->].
  - rewrite (wrapJob_run fuel cfg e w Hskip).
    assert (Hexec : exists res w' t1,
      wrap_exec fuel e w = Some (res, w', t1)
      /\ Z.of_nat (length (calls t1)) <= Z.max 0 (MaxRetries (entry_options e)) + 1).
    { unfold wrap_exec.
      destruct (Z.leb_spec (MaxRetries (entry_options e)) 0) as [Hle | Hpos].
      { rewrite no_retry_once by (now left).
        eexists _, _, _. split; [reflexivity|]. simpl. lia. }
      destruct (String.eqb_spec (BackoffStrategy (entry_options e)) BackoffNone)
        as [Hnone | Hstrat].
      { rewrite no_retry_once by (now right).
        eexists _, _, _. split; [reflexivity|]. simpl. lia. }
      destruct (retry_runs (entry_options e) (job_closure e) (Some (retry_logger e))
                  fuel w (conj Hpos Hmax) Hstrat Hfuel)
        as (res & w' & t1 & Hrun & errs & Hcalls & Hlen & _).
      exists res, w', t1. split; [exact Hrun|].
      rewrite Hcalls, length_app, length_map. simpl. lia. }
    destruct Hexec as (res & w' & t1 & -> & Hbound). cbv zeta.
    eexists _, _, _, _. split; [reflexivity|].
    rewrite !calls_app, (proj1 (wrap_begin_quiet cfg e w)), wrap_end_calls, app_nil_r.
    split; [exact Hbound|]. split; [apply wrap_end_running|].
    intros Hrec.
    destruct (wrap_end_entry cfg (time_Now w) res (wrap_begin cfg e w).1.1 w')
      as (_ & _ & _ & ->).
    unfold run_exit. rewrite Hrec. now destruct res.
Qed.

Lemma wrapper_run_is_bounded_witness :
  let e := Sample.entry_of Sample.always_fails Sample.fixed3 in
  (MaxRetries (entry_options e) < max_int
   /\ (Z.to_nat (MaxRetries (entry_options e)) + 2 <= 5)%nat)
  /\ exists out e' w' t,
       wrapJob 5 DefaultConfig e 0%nat = Some (out, e', w', t)
       /\ Z.of_nat (length (calls t)) <= 4
       /\ running e' = false
       /\ out = Val tt.
Proof.
  cbv zeta.
  assert (Hmax : MaxRetries (entry_options (Sample.entry_of Sample.always_fails Sample.fixed3))
                 < max_int) by reflexivity.
  assert (Hfuel : (Z.to_nat (MaxRetries (entry_options
                     (Sample.entry_of Sample.always_fails Sample.fixed3))) + 2 <= 5)%nat).
  { vm_compute. repeat constructor. }
  split; [split; [exact Hmax | exact Hfuel]|].
  destruct (wrapper_run_is_bounded Sample.counting 5 DefaultConfig
              (Sample.entry_of Sample.always_fails Sample.fixed3) 0%nat Hmax Hfuel)
    as (out & e' & w' & t & Hrun & Hbound & Hflag & Hout).
  exists out, e', w', t. split; [exact Hrun|]. split; [exact Hbound|].
  split; [exact Hflag | exact (Hout eq_refl)].
Defined.
